(** * ATAC-seq pipeline (atacseq.py): coordinate shifter, steric filter,
      QC scraping and the step-gated stage runner.

    The development embeds [Pipeline.shift_reads] and [Pipeline.run_pipeline]
    of [atacseq.py].  Text files live in a finite map from path to content,
    Python exceptions are values of [exn], and code that both writes files
    and raises runs in a small state-and-exception monad. *)

From Stdlib Require Import ZArith Lia Ascii String DecimalString DecimalPos.
From stdpp Require Import gmap strings list fin_maps sorting.

Local Open Scope Z_scope.

(** ** Python built-ins used by the source *)

Module Py.

(** The exceptions the modelled code can raise. *)
Inductive exn : Type :=
| IndexError
| ValueError
| KeyError (key : string)
| IOError (path : string).

Inductive result (A : Type) : Type :=
| Ok (a : A)
| Raise (e : exn).
Arguments Ok {A} a.
Arguments Raise {A} e.

Definition tab : ascii := Ascii.ascii_of_nat 9.
Definition newline : ascii := Ascii.ascii_of_nat 10.
Definition TAB : string := String tab "".
Definition NL : string := String newline "".

(** [str.isspace] on one byte: space, \t, \n, \v, \f, \r. *)
Definition isspace (c : ascii) : bool :=
  let n := Ascii.nat_of_ascii c in
  (Nat.eqb n 32 || (Nat.leb 9 n && Nat.leb n 13))%bool.

Fixpoint lstrip (s : string) : string :=
  match s with
  | EmptyString => EmptyString
  | String c s' => if isspace c then lstrip s' else s
  end.

Fixpoint rstrip (s : string) : string :=
  match s with
  | EmptyString => EmptyString
  | String c s' =>
      match rstrip s' with
      | EmptyString => if isspace c then EmptyString else String c EmptyString
      | r => String c r
      end
  end.

(** [s.strip()] with no argument. *)
Definition strip (s : string) : string := rstrip (lstrip s).

(** [s.split(sep)] for a one-character separator: never the empty list,
    [''.split(sep) == ['']]. *)
Fixpoint split (sep : ascii) (s : string) : list string :=
  match s with
  | EmptyString => [EmptyString]
  | String c s' =>
      if Ascii.eqb c sep then EmptyString :: split sep s'
      else match split sep s' with
           | [] => [String c EmptyString]
           | w :: ws => String c w :: ws
           end
  end.

(** [sep.join(l)]. *)
Fixpoint join (sep : string) (l : list string) : string :=
  match l with
  | [] => EmptyString
  | [x] => x
  | x :: rest => x +:+ sep +:+ join sep rest
  end.

(** Iterating over an open text file: each line keeps its trailing newline;
    a last line without one is yielded as it is. *)
Fixpoint readlines_go (cur : string) (s : string) : list string :=
  match s with
  | EmptyString =>
      match cur with EmptyString => [] | _ => [String.rev cur] end
  | String c s' =>
      if Ascii.eqb c newline then String.rev (String c cur) :: readlines_go EmptyString s'
      else readlines_go (String c cur) s'
  end.
Definition readlines (s : string) : list string := readlines_go EmptyString s.

(** [l[i]] for a non-negative index. *)
Definition index {A} (l : list A) (i : nat) : result A :=
  match l !! i with
  | Some x => Ok x
  | None => Raise IndexError
  end.

(** [l[i:]]. *)
Definition slice_from {A} (i : nat) (l : list A) : list A := drop i l.

Definition digit_val (c : ascii) : option Z :=
  let n := Ascii.nat_of_ascii c in
  if (Nat.leb 48 n && Nat.leb n 57)%bool then Some (Z.of_nat (n - 48)) else None.

Fixpoint digits_val (acc : Z) (s : string) : option Z :=
  match s with
  | EmptyString => Some acc
  | String c s' =>
      match digit_val c with
      | Some d => digits_val (10 * acc + d) s'
      | None => None
      end
  end.

Definition nat_literal (s : string) : option Z :=
  match s with
  | EmptyString => None
  | _ => digits_val 0 s
  end.

(** [int(s)] on a string: surrounding whitespace is ignored, then an
    optional sign and at least one decimal digit; anything else is a
    ValueError ([None] here). *)
Definition int_literal (s : string) : option Z :=
  match strip s with
  | String "+"%char r => nat_literal r
  | String "-"%char r => Z.opp <$> nat_literal r
  | t => nat_literal t
  end.

Definition int (s : string) : result Z :=
  match int_literal s with
  | Some z => Ok z
  | None => Raise ValueError
  end.

(** [str(z)] for an integer. *)
Definition str (z : Z) : string := NilZero.string_of_int (Z.to_int z).

End Py.

Export Py.


(** ** The state-and-exception monad *)

Module IO.

(** A computation over a state [S] either returns or raises; what it did
    to the state before an exception stays done. *)
Definition M (S A : Type) : Type := S -> result A * S.

Definition ret {S A} (a : A) : M S A := fun s => (Ok a, s).

Definition bind {S A B} (m : M S A) (f : A -> M S B) : M S B :=
  fun s =>
    match m s with
    | (Ok a, s') => f a s'
    | (Raise e, s') => (Raise e, s')
    end.

(** A pure computation that may raise. *)
Definition lift {S A} (r : result A) : M S A := fun s => (r, s).

Definition modify {S} (f : S -> S) : M S unit := fun s => (Ok tt, f s).

(** [for x in l: body(x)], stopping at the first exception. *)
Fixpoint for_each {S A} (l : list A) (body : A -> M S unit) : M S unit :=
  match l with
  | [] => ret tt
  | x :: rest => bind (body x) (fun _ => for_each rest body)
  end.

(** [if c: body]. *)
Definition when {S} (c : bool) (body : M S unit) : M S unit :=
  if c then body else ret tt.

(** [enumerate(l)]. *)
Definition enumerate {A} (l : list A) : list (nat * A) :=
  zip (seq 0 (length l)) l.

End IO.

Export IO.

Notation "x <~ m ;; k" := (bind m (fun x => k))
  (at level 100, m at next level, right associativity).
Notation "m ;;; k" := (bind m (fun _ => k))
  (at level 100, right associativity).

(** ** Text files *)

(** A text file system: path to content.  A path that is not bound does
    not exist. *)
Abbreviation files := (gmap string string).

Module File.

(** [open(path).read()]: IOError when the file does not exist. *)
Definition read_file (path : string) : M files string :=
  fun fs =>
    match fs !! path with
    | Some text => (Ok text, fs)
    | None => (Raise (IOError path), fs)
    end.

(** [open(path, 'w')]: the file is created or truncated. *)
Definition open_w (path : string) : M files unit :=
  modify (fun fs => <[path := EmptyString]> fs).

(** Writing [text] at the end of [path] (through a handle opened with 'w'
    or 'a'; with 'a' a missing file is created). *)
Definition file_append (path text : string) (fs : files) : files :=
  <[path := default EmptyString (fs !! path) +:+ text]> fs.

Definition write (path text : string) : M files unit :=
  modify (file_append path text).

End File.

Export File.

(** ** Module constants *)

Definition READ1 : nat := 0.
Definition FIRST_CHAR : nat := 0.
Definition MINUS_STRAND_SHIFT : Z := -5.
Definition PLUS_STRAND_SHIFT : Z := 4.
Definition STERIC_HINDRANCE_CUTOFF : Z := 38.

(** ** Pipeline.shift_reads *)

Module Shift.

(** The nested helper [to_log]: append one line to the log file. *)
Definition to_log (msg log_filepath : string) : M files unit :=
  write log_filepath (msg +:+ NL).

(** The nested helper [within_genome_boundry].  The table is consulted only
    when [check_pos >= 1]; a chromosome missing from it is a KeyError. *)
Definition within_genome_boundry (chrom : string) (check_pos : Z)
    (genome_sizes_dict : gmap string Z) : result bool :=
  if check_pos <? 1 then Ok false
  else match genome_sizes_dict !! chrom with
       | None => Raise (KeyError chrom)
       | Some size => if size <? check_pos then Ok false else Ok true
       end.

(** One iteration of the loop that fills [genome_sizes]:
    [chrom, size = line.strip().split('\t'); genome_sizes[chrom] = int(size)]. *)
Definition genome_sizes_line (line : string) (genome_sizes : gmap string Z)
    : result (gmap string Z) :=
  match split tab (strip line) with
  | [chrom; size] =>
      match int size with
      | Ok n => Ok (<[chrom := n]> genome_sizes)
      | Raise e => Raise e
      end
  | _ => Raise ValueError
  end.

Fixpoint load_genome_sizes (lines : list string) (genome_sizes : gmap string Z)
    : result (gmap string Z) :=
  match lines with
  | [] => Ok genome_sizes
  | line :: rest =>
      match genome_sizes_line line genome_sizes with
      | Ok gs => load_genome_sizes rest gs
      | Raise e => Raise e
      end
  end.

(** What the loop body reads off one line. *)
Record fields : Type := {
  record : list string;
  chrom : string;
  start : Z;
  end_ : Z;
  strand : string
}.

(** [record = line.strip().split('\t')] and
    [chrom, start, end, strand = record[0], int(record[1]), int(record[2]), record[5]],
    evaluated left to right. *)
Definition parse_line (line : string) : result fields :=
  let record := split tab (strip line) in
  match index record 0 with
  | Raise e => Raise e
  | Ok chrom =>
  match index record 1 with
  | Raise e => Raise e
  | Ok f1 =>
  match int f1 with
  | Raise e => Raise e
  | Ok start =>
  match index record 2 with
  | Raise e => Raise e
  | Ok f2 =>
  match int f2 with
  | Raise e => Raise e
  | Ok end_ =>
  match index record 5 with
  | Raise e => Raise e
  | Ok strand =>
      Ok {| record := record; chrom := chrom; start := start;
            end_ := end_; strand := strand |}
  end end end end end end.

(** The [if strand == '+' ... elif strand == '-' ... else] cascade; [None]
    is the [else] branch. *)
Definition new_coords (minus_strand_shift plus_strand_shift : Z)
    (strand : string) (start end_ : Z) : option (Z * Z) :=
  if String.eqb strand "+" then
    Some (start + plus_strand_shift, end_ + plus_strand_shift)
  else if String.eqb strand "-" then
    Some (start + minus_strand_shift, end_ + minus_strand_shift)
  else None.

(** The line written to the output file for an accepted record. *)
Definition output_line (r : fields) (new_start new_end : Z) : string :=
  join TAB ([chrom r; str new_start; str new_end] ++ slice_from 3 (record r)) +:+ NL.

Section Loop.
Variables (output_bed_filepath log_filepath : string).
Variables (minus_strand_shift plus_strand_shift : Z).
Variable genome_sizes : gmap string Z.

(** The body of [for line in input_bed]. *)
Definition shift_line (line : string) : M files unit :=
  r <~ lift (parse_line line) ;;
  match new_coords minus_strand_shift plus_strand_shift
          (strand r) (start r) (end_ r) with
  | None =>
      to_log "Mal-formatted line in file, skipping:" log_filepath ;;;
      to_log (strip line) log_filepath
  | Some (new_start, new_end) =>
      ok_start <~ lift (within_genome_boundry (chrom r) new_start genome_sizes) ;;
      if negb ok_start then
        to_log "Shift start site beyond chromosome boundry:" log_filepath ;;;
        to_log (strip line) log_filepath
      else
        ok_end <~ lift (within_genome_boundry (chrom r) new_end genome_sizes) ;;
        if negb ok_end then
          to_log "Shift end site beyond chromosome boundry:" log_filepath ;;;
          to_log (strip line) log_filepath
        else
          write output_bed_filepath (output_line r new_start new_end)
  end.
End Loop.

(** [shift_reads].  The input file is read when it is opened; the source
    reads it line by line while it writes, which is the same as long as the
    log and the output are other files than the input, and the log another
    file than the output. *)
Definition shift_reads (input_bed_filepath output_bed_filepath
    genome_sizes_filepath log_filepath : string)
    (minus_strand_shift plus_strand_shift : Z) : M files unit :=
  genome_text <~ read_file genome_sizes_filepath ;;
  genome_sizes <~ lift (load_genome_sizes (readlines genome_text) ∅) ;;
  open_w output_bed_filepath ;;;
  input_text <~ read_file input_bed_filepath ;;
  for_each (readlines input_text)
    (shift_line output_bed_filepath log_filepath
       minus_strand_shift plus_strand_shift genome_sizes).

End Shift.

(** ** Paths and patterns *)

Module Path.

Definition starts_with_slash (s : string) : bool :=
  match s with
  | String "/"%char _ => true
  | _ => false
  end.

Fixpoint ends_with_slash (s : string) : bool :=
  match s with
  | EmptyString => false
  | String c EmptyString => Ascii.eqb c "/"%char
  | String _ s' => ends_with_slash s'
  end.

(** [os.path.join(a, b)] (posixpath). *)
Definition path_join (a b : string) : string :=
  if starts_with_slash b then b
  else if (String.eqb a EmptyString || ends_with_slash a)%bool then a +:+ b
  else a +:+ "/" +:+ b.

End Path.

Export Path.

Module Re.

Definition is_digit (c : ascii) : bool :=
  match digit_val c with Some _ => true | None => false end.

(** The longest run of digits at the head of [s], and what follows it. *)
Fixpoint span_digits (s : string) : string * string :=
  match s with
  | EmptyString => (EmptyString, EmptyString)
  | String c s' =>
      if is_digit c then
        let '(ds, rest) := span_digits s' in (String c ds, rest)
      else (EmptyString, s)
  end.

(** [s] without the prefix [p], if it has it. *)
Fixpoint strip_prefix (p s : string) : option string :=
  match p, s with
  | EmptyString, _ => Some s
  | String a p', String b s' =>
      if Ascii.eqb a b then strip_prefix p' s' else None
  | String _ _, EmptyString => None
  end.

(** One attempt of [(\d+) \+ \d+ mapped] at the head of [s]; the result is
    group 1.  A digit run is always followed by a non-digit in the pattern,
    so only the longest run can match. *)
Definition mapped_at (s : string) : option string :=
  match span_digits s with
  | (EmptyString, _) => None
  | (g1, rest) =>
      match strip_prefix " + " rest with
      | None => None
      | Some rest1 =>
          match span_digits rest1 with
          | (EmptyString, _) => None
          | (_, rest2) =>
              match strip_prefix " mapped" rest2 with
              | Some _ => Some g1
              | None => None
              end
          end
      end
  end.

(** [re.search(r'(\d+) \+ \d+ mapped', s)]: group 1 of the leftmost match. *)
Fixpoint search_mapped (s : string) : option string :=
  match mapped_at s with
  | Some g => Some g
  | None =>
      match s with
      | EmptyString => None
      | String _ s' => search_mapped s'
      end
  end.

(** [re.match(r'\d+', s) is not None]: [s] starts with a digit. *)
Definition match_digits (s : string) : bool :=
  match s with
  | String c _ => is_digit c
  | EmptyString => false
  end.

End Re.

Export Re.

(** ** Alignment files (pysam) *)

Record AlignedSegment : Type := {
  query_name : string;
  flag : Z;
  reference_name : string;
  reference_start : Z;
  template_length : Z
}.

Record AlignmentFile : Type := {
  header : string;
  reads : list AlignedSegment
}.

(** The loop
    [for read in sortmerged.fetch():
       if abs(int(read.template_length)) >= STERIC_HINDRANCE_CUTOFF: steric.write(read)],
    where [written] is what the output file holds so far. *)
Fixpoint steric_filter (fetched written : list AlignedSegment)
    : list AlignedSegment :=
  match fetched with
  | [] => written
  | read :: rest =>
      if STERIC_HINDRANCE_CUTOFF <=? Z.abs (template_length read)
      then steric_filter rest (written ++ [read])
      else steric_filter rest written
  end.

(** ** QC scraping of the MarkDuplicates metrics *)

Module Metrics.

Definition placeholder : string := "Could not open MarkDuplicates metrics".

(** One iteration of [for line in markdup_metrics]; [current] is
    [qc_data['percent_duplicate_reads']]. *)
Definition scrape_line (line current : string) : result string :=
  match line with
  | EmptyString => Raise IndexError            (* line[FIRST_CHAR] *)
  | String c _ =>
      if Ascii.eqb c "#"%char then Ok current
      else
        let record := split tab (strip line) in
        if Nat.eqb (length record) 9 then
          match index record 7 with
          | Raise e => Raise e
          | Ok f =>
              if match_digits f then Ok f else Ok current
          end
        else Ok current
  end.

Fixpoint scrape_lines (lines : list string) (current : string) : result string :=
  match lines with
  | [] => Ok current
  | line :: rest =>
      match scrape_line line current with
      | Ok v => scrape_lines rest v
      | Raise e => Raise e
      end
  end.

(** The whole [try: ... except: ...] block; [report] is the content of the
    metrics file, [None] when it cannot be opened. *)
Definition percent_duplicate (report : option string) (current : string) : string :=
  match report with
  | None => placeholder
  | Some text =>
      match scrape_lines (readlines text) current with
      | Ok v => v
      | Raise _ => placeholder
      end
  end.

End Metrics.

(** ** Pipeline.run_pipeline *)

Module Pipeline.

(** chunkypipes components, kept as the data the source builds
    ([Param] and [Redir] are the source's Parameter and Redirect, which are
    reserved words here). *)
Inductive stream : Type := STDOUT | STDERR | BOTH.

Record Software : Type := { sw_name : string; sw_path : string }.

#[warnings="-register-all"]
Inductive arg : Type :=
| Param (words : list string)
| Redir (to : stream) (dest : string)
| Pipe (sw : Software) (args : list arg).

(** What the pipeline asks of the outside world. *)
Inductive action : Type :=
| Run (sw : Software) (args : list arg)        (* Software.run *)
| Call (argv : list string)                    (* subprocess.call / Popen / check_output *)
| ShiftReads (input_bed output_bed genome_sizes log : string)
| OpenFile (path mode : string).               (* open() and pysam.AlignmentFile() *)

Record QC : Type := {
  total_raw_reads_counts : list (list string);
  trimmed_reads_counts : list (list string);
  num_reads_mapped : list string;
  percent_duplicate_reads : string;
  num_unique_reads_mapped : list string;
  num_mtDNA_reads_mapped : list string;
  num_reads_mapped_after_filtering : string;
  num_peaks_called : string
}.

(** Files on disk: text files and alignment containers. *)
Record store : Type := {
  disk : files;
  bams : gmap string AlignmentFile
}.

(** The local variables of [run_pipeline] that stages update, the disk, and
    the log of actions, each tagged with the stage that performed it
    (0 before the first stage, 7 after the last). *)
Record state : Type := {
  world : store;
  trace : list (nat * action);
  read_pairs : list string;
  staging_delete : list string;
  bwa_bam_outs : list string;
  qc_data : QC
}.

Definition set_world (f : store -> store) (st : state) : state :=
  {| world := f (world st); trace := trace st; read_pairs := read_pairs st;
     staging_delete := staging_delete st; bwa_bam_outs := bwa_bam_outs st;
     qc_data := qc_data st |}.
Definition set_trace (f : list (nat * action) -> list (nat * action)) (st : state) : state :=
  {| world := world st; trace := f (trace st); read_pairs := read_pairs st;
     staging_delete := staging_delete st; bwa_bam_outs := bwa_bam_outs st;
     qc_data := qc_data st |}.
Definition set_read_pairs (f : list string -> list string) (st : state) : state :=
  {| world := world st; trace := trace st; read_pairs := f (read_pairs st);
     staging_delete := staging_delete st; bwa_bam_outs := bwa_bam_outs st;
     qc_data := qc_data st |}.
Definition set_staging_delete (f : list string -> list string) (st : state) : state :=
  {| world := world st; trace := trace st; read_pairs := read_pairs st;
     staging_delete := f (staging_delete st); bwa_bam_outs := bwa_bam_outs st;
     qc_data := qc_data st |}.
Definition set_bwa_bam_outs (f : list string -> list string) (st : state) : state :=
  {| world := world st; trace := trace st; read_pairs := read_pairs st;
     staging_delete := staging_delete st; bwa_bam_outs := f (bwa_bam_outs st);
     qc_data := qc_data st |}.
Definition set_qc_data (f : QC -> QC) (st : state) : state :=
  {| world := world st; trace := trace st; read_pairs := read_pairs st;
     staging_delete := staging_delete st; bwa_bam_outs := bwa_bam_outs st;
     qc_data := f (qc_data st) |}.

Definition set_disk (f : files -> files) (w : store) : store :=
  {| disk := f (disk w); bams := bams w |}.
Definition set_bams (f : gmap string AlignmentFile -> gmap string AlignmentFile)
    (w : store) : store :=
  {| disk := disk w; bams := f (bams w) |}.

Definition add_total_raw (x : list string) (q : QC) : QC :=
  {| total_raw_reads_counts := total_raw_reads_counts q ++ [x];
     trimmed_reads_counts := trimmed_reads_counts q;
     num_reads_mapped := num_reads_mapped q;
     percent_duplicate_reads := percent_duplicate_reads q;
     num_unique_reads_mapped := num_unique_reads_mapped q;
     num_mtDNA_reads_mapped := num_mtDNA_reads_mapped q;
     num_reads_mapped_after_filtering := num_reads_mapped_after_filtering q;
     num_peaks_called := num_peaks_called q |}.
Definition add_trimmed (x : list string) (q : QC) : QC :=
  {| total_raw_reads_counts := total_raw_reads_counts q;
     trimmed_reads_counts := trimmed_reads_counts q ++ [x];
     num_reads_mapped := num_reads_mapped q;
     percent_duplicate_reads := percent_duplicate_reads q;
     num_unique_reads_mapped := num_unique_reads_mapped q;
     num_mtDNA_reads_mapped := num_mtDNA_reads_mapped q;
     num_reads_mapped_after_filtering := num_reads_mapped_after_filtering q;
     num_peaks_called := num_peaks_called q |}.
Definition add_num_reads_mapped (x : string) (q : QC) : QC :=
  {| total_raw_reads_counts := total_raw_reads_counts q;
     trimmed_reads_counts := trimmed_reads_counts q;
     num_reads_mapped := num_reads_mapped q ++ [x];
     percent_duplicate_reads := percent_duplicate_reads q;
     num_unique_reads_mapped := num_unique_reads_mapped q;
     num_mtDNA_reads_mapped := num_mtDNA_reads_mapped q;
     num_reads_mapped_after_filtering := num_reads_mapped_after_filtering q;
     num_peaks_called := num_peaks_called q |}.
Definition set_percent_duplicate (f : string -> string) (q : QC) : QC :=
  {| total_raw_reads_counts := total_raw_reads_counts q;
     trimmed_reads_counts := trimmed_reads_counts q;
     num_reads_mapped := num_reads_mapped q;
     percent_duplicate_reads := f (percent_duplicate_reads q);
     num_unique_reads_mapped := num_unique_reads_mapped q;
     num_mtDNA_reads_mapped := num_mtDNA_reads_mapped q;
     num_reads_mapped_after_filtering := num_reads_mapped_after_filtering q;
     num_peaks_called := num_peaks_called q |}.

(** The initial [qc_data] dictionary. *)
Definition qc_init : QC :=
  {| total_raw_reads_counts := [];
     trimmed_reads_counts := [];
     num_reads_mapped := [];
     percent_duplicate_reads := "0";
     num_unique_reads_mapped := [];
     num_mtDNA_reads_mapped := [];
     num_reads_mapped_after_filtering := "-1";
     num_peaks_called := "-1" |}.

(** [pipeline_config], one field per key the source reads. *)
Record config : Type := {
  cutadapt_path : string;
  bwa_path : string;
  bwa_threads : string;
  bwa_index_dir : string;
  fastqc_path : string;
  samtools_path : string;
  novosort_path : string;
  novosort_threads : string;
  picard_path : string;
  bedtools_path : string;
  blacklist_bed : string;
  genome_sizes : string;
  makeTagDirectory_path : string;
  findPeaks_path : string;
  pos2bed_path : string
}.

(** [pipeline_args]; [output] is already [os.path.abspath]'ed and [step]
    already through [int()]. *)
Record arguments : Type := {
  reads_arg : list string;
  output : string;
  lib : string;
  step : Z;
  forward_adapter : string;
  reverse_adapter : string
}.

(** What the outside world does and answers, which the source cannot
    know: the effect of a command on the files, the output of
    [zcat path | wc -l], and the text of [str(qc_data)] (a dictionary, whose
    key order the language does not fix). *)
Record environment : Type := {
  exec : action -> store -> store;
  zcat_wc : string -> store -> string;
  repr_qc : QC -> string
}.

Section Run.
Variable env : environment.
Variable pipeline_config : config.
Variable pipeline_args : arguments.

(** *** Variables instantiated from the arguments *)

Definition output_dir : string := output pipeline_args.
Definition logs_dir : string := path_join output_dir "logs".
Definition lib_prefix : string := lib pipeline_args.
Definition tmp_dir : string := path_join output_dir "tmp".

(** *** Software instances *)

Definition mk (name path : string) : Software :=
  {| sw_name := name; sw_path := path |}.

Definition cutadapt := mk "cutadapt" (cutadapt_path pipeline_config).
Definition fastqc := mk "FastQC" (fastqc_path pipeline_config).
Definition bwa_aln := mk "BWA aln" (bwa_path pipeline_config +:+ " aln").
Definition bwa_sampe := mk "BWA sampe" (bwa_path pipeline_config +:+ " sampe").
Definition samtools_view :=
  mk "samtools view" (samtools_path pipeline_config +:+ " view").
Definition samtools_flagstat :=
  mk "samtools flagstat" (samtools_path pipeline_config +:+ " flagstat").
Definition samtools_index :=
  mk "samtools index" (samtools_path pipeline_config +:+ " index").
Definition novosort := mk "novosort" (novosort_path pipeline_config).
Definition picard_mark_dup :=
  mk "Picard MarkDuplicates" (picard_path pipeline_config +:+ " MarkDuplicates").
Definition picard_insert_metrics :=
  mk "Picard CollectInsertSizeMetrics"
     (picard_path pipeline_config +:+ " CollectInsertSizeMetrics").
Definition bedtools_bamtobed :=
  mk "bedtools bamtobed" (bedtools_path pipeline_config +:+ " bamtobed").
Definition bedtools_sort :=
  mk "bedtools sort" (bedtools_path pipeline_config +:+ " sort").
Definition bedtools_merge :=
  mk "bedtools merge" (bedtools_path pipeline_config +:+ " merge").
Definition bedtools_intersect :=
  mk "bedtools intersect" (bedtools_path pipeline_config +:+ " intersect").
Definition homer_maketagdir :=
  mk "HOMER makeTagDirectory" (makeTagDirectory_path pipeline_config).
Definition homer_findpeaks :=
  mk "HOMER findPeaks" (findPeaks_path pipeline_config).
Definition homer_pos2bed := mk "HOMER pos2bed" (pos2bed_path pipeline_config).

(** *** Primitive steps *)

Definition gets {A} (f : state -> A) : M state A := fun st => (Ok (f st), st).

(** Record an action of stage [n] that the pipeline performs itself. *)
Definition note (n : nat) (a : action) : M state unit :=
  modify (set_trace (fun t => t ++ [(n, a)])).

(** Hand an action of stage [n] to the outside world.  The source does
    not look at exit codes, so nothing is raised here. *)
Definition emit (n : nat) (a : action) : M state unit :=
  note n a ;;; modify (set_world (exec env a)).

Definition run (n : nat) (sw : Software) (args : list arg) : M state unit :=
  emit n (Run sw args).

Definition call (n : nat) (argv : list string) : M state unit :=
  emit n (Call argv).

(** [count_gzipped_lines]: [zcat filepath | wc -l], stripped. *)
Definition count_gzipped_lines (n : nat) (filepath : string) : M state string :=
  call n ["zcat"; filepath] ;;;
  call n ["wc"; "-l"] ;;;
  gets (fun st => strip (zcat_wc env filepath (world st))).

(** [x if x else 'ZZZ']. *)
Definition or_ZZZ (adapter : string) : string :=
  match adapter with EmptyString => "ZZZ" | _ => adapter end.

(** *** Stage 1: trimming *)

Definition stage1_pair (i : nat) (read_pair : string) : M state unit :=
  match split ":"%char read_pair with
  | [read1; read2] =>
      c1 <~ count_gzipped_lines 1 read1 ;;
      n1 <~ lift (int c1) ;;
      c2 <~ count_gzipped_lines 1 read2 ;;
      n2 <~ lift (int c2) ;;
      modify (set_qc_data (add_total_raw [str (n1 / 4); str (n2 / 4)])) ;;;
      let trimmed_read1_filename :=
        path_join output_dir
          (lib_prefix +:+ "_" +:+ str (Z.of_nat i) +:+ "_read1.trimmed.fastq.gz") in
      let trimmed_read2_filename :=
        path_join output_dir
          (lib_prefix +:+ "_" +:+ str (Z.of_nat i) +:+ "_read2.trimmed.fastq.gz") in
      run 1 cutadapt
        [ Param ["--quality-base=33"];
          Param ["--minimum-length=5"];
          Param ["-q"; "30"];
          Param ["--output=" +:+ trimmed_read1_filename];
          Param ["--paired-output=" +:+ trimmed_read2_filename];
          Param ["-a"; or_ZZZ (forward_adapter pipeline_args)];
          Param ["-A"; or_ZZZ (reverse_adapter pipeline_args)];
          Param [read1];
          Param [read2];
          Redir STDOUT (path_join logs_dir "cutadapt.summary.log") ] ;;;
      t1 <~ count_gzipped_lines 1 trimmed_read1_filename ;;
      m1 <~ lift (int t1) ;;
      t2 <~ count_gzipped_lines 1 trimmed_read2_filename ;;
      m2 <~ lift (int t2) ;;
      modify (set_qc_data (add_trimmed [str (m1 / 4); str (m2 / 4)])) ;;;
      modify (set_staging_delete
                (fun l => l ++ [trimmed_read1_filename; trimmed_read2_filename])) ;;;
      modify (set_read_pairs
                (fun l => <[i := join ":" [trimmed_read1_filename;
                                           trimmed_read2_filename]]> l))
  | _ => lift (Raise ValueError)        (* read1, read2 = ... *)
  end.

(** The loop replaces only the element it has just read, so it runs
    over the list as it was when the loop began. *)
Definition stage1 : M state unit :=
  rps <~ gets read_pairs ;;
  for_each (enumerate rps) (fun p => stage1_pair (fst p) (snd p)).

(** *** Stage 2: quality reports and per-read alignment *)

Definition stage2_read (fastqc_output_dir read : string) : M state unit :=
  run 2 fastqc
    [ Param ["--outdir=" +:+ fastqc_output_dir];
      Param [read] ] ;;;
  run 2 bwa_aln
    [ Param ["-t"; bwa_threads pipeline_config];
      Param [bwa_index_dir pipeline_config];
      Param [read];
      Redir STDOUT (read +:+ ".sai") ] ;;;
  modify (set_staging_delete (fun l => l ++ [read +:+ ".sai"])).

Definition stage2 : M state unit :=
  let fastqc_output_dir := path_join output_dir "fastqc" in
  call 2 ["mkdir"; "-p"; fastqc_output_dir] ;;;
  rps <~ gets read_pairs ;;
  for_each (enumerate rps) (fun p =>
    for_each (split ":"%char (snd p)) (stage2_read fastqc_output_dir)).

(** *** Stage 3: paired alignment *)

Definition stage3_pair (i : nat) (read_pair : string) : M state unit :=
  match split ":"%char read_pair with
  | [read1; read2] =>
      let bwa_bam_output :=
        path_join output_dir
          (lib_prefix +:+ "." +:+ str (Z.of_nat i) +:+ ".bam") in
      run 3 bwa_sampe
        [ Param ["-a"; "2000"];
          Param ["-n"; "1"];
          Param [bwa_index_dir pipeline_config];
          Param [read1 +:+ ".sai"];
          Param [read2 +:+ ".sai"];
          Param [read1];
          Param [read2];
          Redir STDERR (path_join logs_dir "bwa_sampe.log");
          Pipe samtools_view
            [ Param ["-hSb"];
              Param ["-o"; bwa_bam_output];
              Param ["-"] ] ] ;;;
      modify (set_bwa_bam_outs (fun l => l ++ [bwa_bam_output]))
  | _ => lift (Raise ValueError)
  end.

Definition stage3 : M state unit :=
  rps <~ gets read_pairs ;;
  for_each (enumerate rps) (fun p => stage3_pair (fst p) (snd p)).

(** *** Stage 4: post-processing *)

(** The [try: ... except: ...] around the flagstat report. *)
Definition flagstat_mapped (report : option string) (path : string) : string :=
  match report with
  | None => "Could not open flagstats " +:+ path
  | Some flagstats_contents =>
      match search_mapped flagstats_contents with
      | Some group1 =>
          match int group1 with
          | Ok n => str (n / 2)
          | Raise _ => "Could not open flagstats " +:+ path
          end
      | None => "0"
      end
  end.

Definition stage4_flagstat (bwa_bam : string) : M state unit :=
  run 4 samtools_flagstat
    [ Param [bwa_bam];
      Redir STDOUT (bwa_bam +:+ ".flagstat") ] ;;;
  note 4 (OpenFile (bwa_bam +:+ ".flagstat") "r") ;;;
  report <~ gets (fun st => disk (world st) !! (bwa_bam +:+ ".flagstat")) ;;
  modify (set_qc_data
            (add_num_reads_mapped
               (flagstat_mapped report (bwa_bam +:+ ".flagstat")))).

(** [map(str, range(1, 23)) + ['X', 'Y']]. *)
Definition chromosomes : list string :=
  map (fun n => str (Z.of_nat n)) (seq 1 22) ++ ["X"; "Y"].

Definition stage4 : M state unit :=
  bams0 <~ gets bwa_bam_outs ;;
  for_each (enumerate bams0) (fun p => stage4_flagstat (snd p)) ;;;
  let sortmerged_bam := path_join output_dir (lib_prefix +:+ ".sortmerged.bam") in
  let steric_filter_bam := path_join output_dir (lib_prefix +:+ ".steric.bam") in
  let duprm_bam := path_join output_dir (lib_prefix +:+ ".duprm.bam") in
  let unique_bam := path_join output_dir (lib_prefix +:+ ".unique.bam") in
  let unmappedrm_bam := path_join output_dir (lib_prefix +:+ ".unmappedrm.bam") in
  let chrmrm_bam := path_join output_dir (lib_prefix +:+ ".chrmrm.bam") in
  outs <~ gets bwa_bam_outs ;;
  run 4 novosort
    [ Param ["--threads"; novosort_threads pipeline_config];
      Param ["--tmpcompression"; "6"];
      Param ["--tmpdir"; tmp_dir];
      Param outs;
      Redir STDOUT sortmerged_bam;
      Redir STDERR (path_join logs_dir "novosort.log") ] ;;;
  (* steric hindrance filter, through pysam *)
  run 4 samtools_index [ Param [sortmerged_bam] ] ;;;
  note 4 (OpenFile sortmerged_bam "rb") ;;;
  opened <~ gets (fun st => bams (world st) !! sortmerged_bam) ;;
  match opened with
  | None => lift (Raise (IOError sortmerged_bam))
  | Some sortmerged_bam_alignmentfile =>
  note 4 (OpenFile steric_filter_bam "wb") ;;;
  modify (set_world (set_bams (fun b =>
    <[steric_filter_bam :=
        {| header := header sortmerged_bam_alignmentfile;
           reads := steric_filter (reads sortmerged_bam_alignmentfile) [] |}]> b))) ;;;
  (* mark and remove duplicates *)
  let markduplicates_metrics_filepath := path_join logs_dir "mark_dup.metrics" in
  run 4 picard_mark_dup
    [ Param ["INPUT=" +:+ steric_filter_bam];
      Param ["OUTPUT=" +:+ duprm_bam];
      Param ["TMP_DIR=" +:+ tmp_dir];
      Param ["METRICS_FILE=" +:+ markduplicates_metrics_filepath];
      Param ["REMOVE_DUPLICATES=true"];
      Param ["VALIDATION_STRINGENCY=LENIENT"];
      Redir BOTH (path_join logs_dir "mark_dup.log") ] ;;;
  (* QC: percent duplicates *)
  note 4 (OpenFile markduplicates_metrics_filepath "r") ;;;
  report <~ gets (fun st => disk (world st) !! markduplicates_metrics_filepath) ;;
  modify (set_qc_data (set_percent_duplicate (Metrics.percent_duplicate report))) ;;;
  (* uniquely mapped reads *)
  run 4 samtools_view
    [ Param ["-b"];
      Param ["-F"; "256"];
      Param ["-q"; "10"];
      Param ["-o"; unique_bam];
      Param [duprm_bam] ] ;;;
  (* remove unmapped reads *)
  run 4 samtools_view
    [ Param ["-b"];
      Param ["-F"; "12"];
      Param ["-o"; unmappedrm_bam];
      Param [unique_bam] ] ;;;
  run 4 samtools_index [ Param [unmappedrm_bam] ] ;;;
  (* remove chrM *)
  run 4 samtools_view
    ([ Param ["-b"];
       Param ["-o"; chrmrm_bam];
       Param [unmappedrm_bam] ]
     ++ map (fun chromosome => Param ["chr" +:+ chromosome]) chromosomes) ;;;
  (* stage delete for temporary files *)
  modify (set_staging_delete (fun l => l ++
    [ sortmerged_bam;
      sortmerged_bam +:+ ".bai";
      steric_filter_bam;
      unique_bam;
      duprm_bam;
      unmappedrm_bam;
      unmappedrm_bam +:+ ".bai";
      chrmrm_bam ]))
  end.

(** *** Stage 5: blacklist and shift *)

(** Run a computation on the text files of the state. *)
Definition on_disk {A} (m : M files A) : M state A :=
  fun st =>
    let '(r, fs) := m (disk (world st)) in
    (r, set_world (set_disk (fun _ => fs)) st).

Definition stage5 : M state unit :=
  let processed_bam := path_join output_dir (lib_prefix +:+ ".processed.bam") in
  let unshifted_bed := path_join output_dir (lib_prefix +:+ ".unshifted.bed") in
  let processed_bed := path_join output_dir (lib_prefix +:+ ".processed.bed") in
  let chrmrm_bam := path_join output_dir (lib_prefix +:+ ".chrmrm.bam") in
  run 5 bedtools_intersect
    [ Param ["-v"];
      Param ["-abam"; chrmrm_bam];
      Param ["-b"; blacklist_bed pipeline_config];
      Param ["-f"; "0.5"];
      Redir STDOUT processed_bam ] ;;;
  run 5 picard_insert_metrics
    [ Param ["INPUT=" +:+ processed_bam];
      Param ["OUTPUT=" +:+ path_join logs_dir (lib_prefix +:+ ".insertsize.metrics")];
      Param ["HISTOGRAM_FILE=" +:+ path_join logs_dir (lib_prefix +:+ ".insertsize.pdf")] ] ;;;
  run 5 samtools_index [ Param [processed_bam] ] ;;;
  run 5 bedtools_bamtobed
    [ Param ["-i"; processed_bam];
      Redir STDOUT unshifted_bed ] ;;;
  modify (set_staging_delete (fun l => l ++ [unshifted_bed])) ;;;
  note 5 (ShiftReads unshifted_bed processed_bed
            (genome_sizes pipeline_config)
            (path_join logs_dir "shift_reads.logs")) ;;;
  on_disk (Shift.shift_reads unshifted_bed processed_bed
             (genome_sizes pipeline_config)
             (path_join logs_dir "shift_reads.logs")
             MINUS_STRAND_SHIFT PLUS_STRAND_SHIFT).

(** *** Stage 6: tag directory and peak calling *)

Definition stage6 : M state unit :=
  let processed_bed := path_join output_dir (lib_prefix +:+ ".processed.bed") in
  let homer_tagdir := path_join output_dir (lib_prefix +:+ "_tagdir") in
  let unsorted_peaks := path_join output_dir (lib_prefix +:+ ".unsorted.peaks.bed") in
  let sorted_peaks := path_join output_dir (lib_prefix +:+ ".sorted.peaks.bed") in
  let merged_peaks := path_join output_dir (lib_prefix +:+ ".peaks.bed") in
  run 6 homer_maketagdir
    [ Param [homer_tagdir];
      Param ["-format"; "bed"];
      Param [processed_bed];
      Redir BOTH (path_join logs_dir "maketagdir.log") ] ;;;
  run 6 homer_findpeaks
    [ Param [homer_tagdir];
      Param ["-fragLength"; "0"];
      Param ["-fdr"; "0.01"];
      Param ["-localSize"; "50000"];
      Param ["-o"; "auto"];
      Param ["-style"; "dnase"];
      Param ["-size"; "150"];
      Param ["-minDist"; "50"];
      Redir BOTH (path_join logs_dir "findpeaks.log") ] ;;;
  run 6 homer_pos2bed
    [ Param [path_join homer_tagdir "peaks.txt"];
      Redir STDOUT unsorted_peaks;
      Redir STDERR (path_join logs_dir "pos2bed.log") ] ;;;
  run 6 bedtools_sort
    [ Param ["-i"; unsorted_peaks];
      Redir STDOUT sorted_peaks ] ;;;
  run 6 bedtools_merge
    [ Param ["-i"; sorted_peaks];
      Redir STDOUT merged_peaks ] ;;;
  modify (set_staging_delete (fun l => l ++ [unsorted_peaks; sorted_peaks])).

(** *** Before the first stage and after the last *)

Definition setup : M state unit :=
  call 0 ["mkdir"; "-p"; output_dir; tmp_dir; logs_dir].

Definition finish : M state unit :=
  let qc_path := path_join logs_dir "qc_metrics.txt" in
  note 7 (OpenFile qc_path "w") ;;;
  q <~ gets qc_data ;;
  modify (set_world (set_disk (fun fs => <[qc_path := repr_qc env q +:+ NL]> fs))) ;;;
  dels <~ gets staging_delete ;;
  for_each dels (fun delete_file => call 7 ["rm"; "-rf"; delete_file]).

(** The state in which the first stage starts, on the files [w]. *)
Definition initial (w : store) : state :=
  {| world := w;
     trace := [];
     read_pairs := reads_arg pipeline_args;
     staging_delete := [tmp_dir];
     bwa_bam_outs := [];
     qc_data := qc_init |}.

(** The body of stage [n]. *)
Definition stage (n : nat) : M state unit :=
  match n with
  | 1%nat => stage1
  | 2%nat => stage2
  | 3%nat => stage3
  | 4%nat => stage4
  | 5%nat => stage5
  | 6%nat => stage6
  | _ => ret tt
  end.

(** [run_pipeline], from the first [if step <= 1:] to the end. *)
Definition run_pipeline : M state unit :=
  let step := step pipeline_args in
  setup ;;;
  when (step <=? 1) stage1 ;;;
  when (step <=? 2) stage2 ;;;
  when (step <=? 3) stage3 ;;;
  when (step <=? 4) stage4 ;;;
  when (step <=? 5) stage5 ;;;
  when (step <=? 6) stage6 ;;;
  finish.
End Run.

End Pipeline.

(** ** Vocabulary of the statements *)

Module ShiftSpec.

(** The three messages [shift_reads] logs. *)
Definition MALFORMED : string := "Mal-formatted line in file, skipping:".
Definition START_BEYOND : string := "Shift start site beyond chromosome boundry:".
Definition END_BEYOND : string := "Shift end site beyond chromosome boundry:".

(** The files after [to_log(msg, log); to_log(line.strip(), log)]. *)
Definition logged (log msg line : string) (fs : files) : files :=
  file_append log (strip line +:+ NL) (file_append log (msg +:+ NL) fs).

(** A line of six tab-separated fields. *)
Definition bed6 (chrom start end_ name score strand : string) : string :=
  join TAB [chrom; start; end_; name; score; strand] +:+ NL.

End ShiftSpec.

(** ** Sample inputs *)

Module Sample.
Import ShiftSpec.

(** The genome size file [{"chr1": 100}]. *)
Definition genome_chr1 : string := "chr1" +:+ TAB +:+ "100" +:+ NL.

Definition chr1_100 : gmap string Z := {[ "chr1" := 100 ]}.

Definition line_minus : string := bed6 "chr1" "10" "20" "name" "0" "-".
Definition line_plus_edge : string := bed6 "chr1" "96" "99" "name" "0" "+".
Definition line_plus : string := bed6 "chr1" "10" "20" "name" "0" "+".
Definition line_dot : string := bed6 "chr1" "10" "20" "name" "0" ".".
Definition line_chr2_minus : string := bed6 "chr2" "3" "10" "name" "0" "-".
Definition line_chr2_plus : string := bed6 "chr2" "3" "10" "name" "0" "+".
Definition line_chr2_low_end : string := bed6 "chr2" "10" "2" "name" "0" "-".
Definition line_short : string := join TAB ["chr1"; "10"; "20"] +:+ NL.
Definition line_not_int : string := bed6 "chr1" "ten" "20" "name" "0" "+".

(** A disk holding the genome size file as "genome.sizes" and one input
    interval file as "in.bed". *)
Definition disk_with (input : string) : files :=
  <[ "genome.sizes" := genome_chr1 ]> (<[ "in.bed" := input ]> ∅).

(** [shift_reads] as stage 5 calls it, on the sample paths. *)
Definition shift_sample : M files unit :=
  Shift.shift_reads "in.bed" "out.bed" "genome.sizes" "shift.log"
    MINUS_STRAND_SHIFT PLUS_STRAND_SHIFT.

End Sample.

Module SampleFields.
Import Shift.

(** What [parse_line] reads off the sample lines. *)
Definition fields_of (chrom start_field end_field strand : string) (start end_ : Z)
    : fields :=
  {| record := [chrom; start_field; end_field; "name"; "0"; strand];
     chrom := chrom; start := start; end_ := end_; strand := strand |}.

Definition fields_minus : fields := fields_of "chr1" "10" "20" "-" 10 20.
Definition fields_plus : fields := fields_of "chr1" "10" "20" "+" 10 20.
Definition fields_plus_edge : fields := fields_of "chr1" "96" "99" "+" 96 99.
Definition fields_dot : fields := fields_of "chr1" "10" "20" "." 10 20.
Definition fields_chr2_minus : fields := fields_of "chr2" "3" "10" "-" 3 10.
Definition fields_chr2_plus : fields := fields_of "chr2" "3" "10" "+" 3 10.

End SampleFields.

Module FilterSpec.

(** The test of the steric-hindrance filter. *)
Definition long_enough (read : AlignedSegment) : bool :=
  STERIC_HINDRANCE_CUTOFF <=? Z.abs (template_length read).

(** A record with the given fragment length. *)
Definition read_of (tlen : Z) : AlignedSegment :=
  {| query_name := "read"; flag := 0; reference_name := "chr1";
     reference_start := 0; template_length := tlen |}.

End FilterSpec.

Module MetricsSpec.

(** Following the spec's words: the 8th field (index 7) of a row, if the row
    is not a comment, has exactly 9 tab-separated fields once stripped, and
    that field starts with a digit. *)
Definition data_row_field (line : string) : option string :=
  match line with
  | EmptyString => None
  | String c _ =>
      if Ascii.eqb c "#"%char then None
      else
        let record := split tab (strip line) in
        if Nat.eqb (length record) 9 then
          match record !! 7%nat with
          | Some f => if match_digits f then Some f else None
          | None => None
          end
        else None
  end.

(** A metrics row of 9 fields for library [name] with duplication [pct]. *)
Definition row (name pct : string) : string :=
  join TAB [name; "1"; "2"; "3"; "4"; "5"; "6"; pct; "7"] +:+ NL.

(** A report with a comment, the column names and two library rows. *)
Definition two_rows : string :=
  "## METRICS CLASS" +:+ NL +:+
  join TAB ["LIBRARY"; "A"; "B"; "C"; "D"; "E"; "F"; "PERCENT_DUPLICATION"; "G"] +:+ NL +:+
  row "lib1" "0.10" +:+ row "lib2" "0.20".

End MetricsSpec.

Module RunSpec.
Import Pipeline.

(** The stages a run from [step] enters: the numbers 1 to 6 that [step]
    does not exceed, in ascending order. *)
Definition selected (step : Z) : list nat :=
  List.filter (fun n => step <=? Z.of_nat n) (seq 1 6).

(** The tags of a trace. *)
Definition tags (t : list (nat * action)) : list nat := map fst t.

(** Every string a command is given: parameters, redirect targets and the
    arguments of piped commands. *)
Fixpoint arg_words (a : arg) : list string :=
  match a with
  | Param ws => ws
  | Redir _ dest => [dest]
  | Pipe _ args =>
      (fix go (l : list arg) : list string :=
         match l with
         | [] => []
         | x :: l' => arg_words x ++ go l'
         end) args
  end.

Definition words (a : action) : list string :=
  match a with
  | Run _ args => flat_map arg_words args
  | Call argv => argv
  | ShiftReads input_bed output_bed genome log => [input_bed; output_bed; genome; log]
  | OpenFile path _ => [path]
  end.

(** [s] ends with [suf]. *)
Definition ends (suf s : string) : Prop := exists p, s = p +:+ suf.

Fixpoint suffixb (suf s : string) : bool :=
  (String.eqb suf s ||
   match s with
   | EmptyString => false
   | String _ s' => suffixb suf s'
   end)%bool.

Section Outputs.
Variable pipeline_args : arguments.

Local Abbreviation out_dir := (output_dir pipeline_args).
Local Abbreviation logs := (logs_dir pipeline_args).
Local Abbreviation lib_ := (lib_prefix pipeline_args).

Definition trimmed (i : nat) (which : string) : string :=
  path_join out_dir
    (lib_ +:+ "_" +:+ str (Z.of_nat i) +:+ "_read" +:+ which +:+ ".trimmed.fastq.gz").

Definition bwa_bam (i : nat) : string :=
  path_join out_dir (lib_ +:+ "." +:+ str (Z.of_nat i) +:+ ".bam").

Definition in_out (suffix : string) : string := path_join out_dir (lib_ +:+ suffix).

Definition chrmrm_bam : string := in_out ".chrmrm.bam".

(** The files stages 1 to 4 produce for the read pair of index [i], in a
    run from the first stage. *)
Definition pair_outputs (i : nat) : list string :=
  [ trimmed i "1"; trimmed i "2";
    trimmed i "1" +:+ ".sai"; trimmed i "2" +:+ ".sai";
    bwa_bam i; bwa_bam i +:+ ".flagstat" ].

(** The output paths of stages 1 to 4 for [n] read pairs. *)
Definition stage14_outputs (n : nat) : list string :=
  flat_map pair_outputs (seq 0 n) ++
  [ path_join logs "cutadapt.summary.log";
    path_join out_dir "fastqc";
    path_join logs "bwa_sampe.log";
    in_out ".sortmerged.bam";
    path_join logs "novosort.log";
    in_out ".sortmerged.bam" +:+ ".bai";
    in_out ".steric.bam";
    path_join logs "mark_dup.metrics";
    path_join logs "mark_dup.log";
    in_out ".duprm.bam";
    in_out ".unique.bam";
    in_out ".unmappedrm.bam";
    in_out ".unmappedrm.bam" +:+ ".bai";
    chrmrm_bam ].

(** What stage 4 appends to [staging_delete]. *)
Definition stage4_staged : list string :=
  [ in_out ".sortmerged.bam";
    in_out ".sortmerged.bam" +:+ ".bai";
    in_out ".steric.bam";
    in_out ".unique.bam";
    in_out ".duprm.bam";
    in_out ".unmappedrm.bam";
    in_out ".unmappedrm.bam" +:+ ".bai";
    chrmrm_bam ].
End Outputs.

(** Endings that tell the output paths of stages 1 to 4. *)
Definition stage14_endings : list string :=
  [ ".trimmed.fastq.gz"; ".sai"; ".flagstat";
    "0.bam"; "1.bam"; "2.bam"; "3.bam"; "4.bam";
    "5.bam"; "6.bam"; "7.bam"; "8.bam"; "9.bam";
    "cutadapt.summary.log"; "fastqc"; "bwa_sampe.log";
    ".sortmerged.bam"; "novosort.log"; ".bai"; ".steric.bam";
    "mark_dup.metrics"; "mark_dup.log"; ".duprm.bam"; ".unique.bam";
    ".unmappedrm.bam"; ".chrmrm.bam" ].

(** [ending] is no ending of a stage 1 to 4 output, by comparison with
    each of [stage14_endings]. *)
Definition apart (ending : string) : bool :=
  forallb (fun b => (negb (suffixb ending b) && negb (suffixb b ending))%bool)
    stage14_endings.

(** A computation adds to the trace, and what it adds is tagged [k]. *)
Definition tagged (k : nat) {A} (m : M state A) : Prop :=
  forall st, exists l,
    trace (m st).2 = trace st ++ l /\ Forall (fun e => e.1 = k) l.

(** A computation adds to the trace entries whose tags ascend from [lo] to
    [hi] and satisfy [Q]. *)
Definition ascends (Q : nat -> Prop) (lo hi : nat) {A} (m : M state A) : Prop :=
  forall st, exists l,
    trace (m st).2 = trace st ++ l /\
    Forall (fun n => (lo <= n <= hi)%nat /\ Q n) (tags l) /\
    StronglySorted le (tags l).

(** The tags a run from [step] may leave: 0 and 7 around the stages, and
    the stages 1 to 6 that [step] does not exceed. *)
Definition allowed (step : Z) (n : nat) : Prop :=
  n = 0%nat \/ n = 7%nat \/ ((1 <= n <= 6)%nat /\ step <= Z.of_nat n).

(** The files after the commands of the trace [t] have run, in order, on
    the files [w]. *)
Definition replay (env : environment) (t : list (nat * action)) (w : store) : store :=
  fold_left (fun w' e => exec env e.2 w') t w.

(** The command [a], if it is one, leaves the text file [p] as it is. *)
Definition leaves (env : environment) (p : string) (a : action) : Prop :=
  match a with
  | Run _ _ | Call _ => forall w, disk (exec env a w) !! p = disk w !! p
  | ShiftReads _ _ _ _ | OpenFile _ _ => True
  end.

End RunSpec.

Module SampleRun.
Import Pipeline.

Definition sample_bam : AlignmentFile :=
  {| header := "@HD";
     reads := map FilterSpec.read_of [10; 38; -38; 37; -50] |}.

(** An outside world in which novosort leaves a container where its
    standard output is sent and bamtobed an interval file, every other
    command does nothing, every gzipped file has 8 lines. *)
Definition sample_exec (a : action) (w : store) : store :=
  match a with
  | Run sw args =>
      if String.eqb (sw_name sw) "novosort" then
        fold_right (fun x acc =>
          match x with
          | Redir STDOUT dest => set_bams (fun b => <[dest := sample_bam]> b) acc
          | _ => acc
          end) w args
      else if String.eqb (sw_name sw) "bedtools bamtobed" then
        fold_right (fun x acc =>
          match x with
          | Redir STDOUT dest =>
              set_disk (fun d => <[dest := Sample.line_minus +:+ Sample.line_dot]> d) acc
          | _ => acc
          end) w args
      else w
  | _ => w
  end.

Definition sample_env : environment :=
  {| exec := sample_exec;
     zcat_wc := fun _ _ => "8" +:+ NL;
     repr_qc := fun _ => "{}" |}.

Definition sample_config : config :=
  {| cutadapt_path := "cutadapt";
     bwa_path := "bwa";
     bwa_threads := "4";
     bwa_index_dir := "/ref/genome.fa";
     fastqc_path := "fastqc";
     samtools_path := "samtools";
     novosort_path := "novosort";
     novosort_threads := "4";
     picard_path := "java -jar picard.jar";
     bedtools_path := "bedtools";
     blacklist_bed := "/ref/blacklist.bed";
     genome_sizes := "/ref/genome.sizes";
     makeTagDirectory_path := "makeTagDirectory";
     findPeaks_path := "findPeaks";
     pos2bed_path := "pos2bed.pl" |}.

Definition sample_args (step : Z) : arguments :=
  {| reads_arg := ["/data/a_1.fastq.gz:/data/a_2.fastq.gz"];
     output := "/out";
     lib := "lib";
     step := step;
     forward_adapter := "";
     reverse_adapter := "" |}.

(** A disk with the genome size file and nothing else. *)
Definition sample_store : store :=
  {| disk := {[ "/ref/genome.sizes" := Sample.genome_chr1 ]}; bams := ∅ |}.

Definition sample_run (step : Z) : result unit * state :=
  run_pipeline sample_env sample_config (sample_args step)
    (initial (sample_args step) sample_store).

End SampleRun.

(** ** What a line of the interval file comes to *)

Module Account.
Import Shift ShiftSpec.

(** A line that does not raise is either written to the output file or
    logged with one of the three messages. *)
Inductive outcome : Type :=
| Emitted (text : string)
| Logged (msg : string).

(** The decisions of the loop body of [shift_reads], without its writes. *)
Definition classify (minus_strand_shift plus_strand_shift : Z)
    (genome_sizes : gmap string Z) (line : string) : result outcome :=
  match parse_line line with
  | Raise e => Raise e
  | Ok r =>
      match new_coords minus_strand_shift plus_strand_shift
              (strand r) (start r) (end_ r) with
      | None => Ok (Logged MALFORMED)
      | Some (new_start, new_end) =>
          match within_genome_boundry (chrom r) new_start genome_sizes with
          | Raise e => Raise e
          | Ok false => Ok (Logged START_BEYOND)
          | Ok true =>
              match within_genome_boundry (chrom r) new_end genome_sizes with
              | Raise e => Raise e
              | Ok false => Ok (Logged END_BEYOND)
              | Ok true => Ok (Emitted (output_line r new_start new_end))
              end
          end
      end
  end.

(** The outcomes of the lines up to the first one that raises, and the
    exception it raises, if any. *)
Fixpoint classify_all (minus_strand_shift plus_strand_shift : Z)
    (genome_sizes : gmap string Z) (lines : list string)
    : list (string * outcome) * option exn :=
  match lines with
  | [] => ([], None)
  | line :: rest =>
      match classify minus_strand_shift plus_strand_shift genome_sizes line with
      | Raise e => ([], Some e)
      | Ok o =>
          let '(os, err) :=
            classify_all minus_strand_shift plus_strand_shift genome_sizes rest in
          ((line, o) :: os, err)
      end
  end.

(** What an outcome adds to the output file and to the log. *)
Definition output_text (lo : string * outcome) : string :=
  match lo.2 with
  | Emitted text => text
  | Logged _ => EmptyString
  end.

Definition log_text (lo : string * outcome) : string :=
  match lo.2 with
  | Emitted _ => EmptyString
  | Logged msg => (msg +:+ NL) +:+ (strip lo.1 +:+ NL)
  end.

Definition is_emitted (lo : string * outcome) : bool :=
  match lo.2 with Emitted _ => true | Logged _ => false end.

(** Concatenation of strings. *)
Definition concat_text (l : list string) : string :=
  fold_right String.append EmptyString l.

(** The content of a file, an absent file counting as empty. *)
Definition content (fs : files) (path : string) : string :=
  default EmptyString (fs !! path).

End Account.


(** ** Lines of the genome size file *)

Module GenomeSpec.

(** What a line of the genome size file binds: the chromosome and its
    length, when the stripped line is exactly two tab-separated fields and
    the second one is an integer literal. *)
Definition entry (line : string) : option (string * Z) :=
  match split tab (strip line) with
  | [chrom; size] =>
      match int_literal size with
      | Some n => Some (chrom, n)
      | None => None
      end
  | _ => None
  end.

End GenomeSpec.


(** ** Lists of the state that only grow *)

Module Growth.
Import Pipeline.

(** A computation only appends to the list [proj] of the state. *)
Definition appends {X} (proj : state -> list X) {A} (m : M state A) : Prop :=
  forall st, exists l, proj (m st).2 = proj st ++ l.

(** A computation leaves the part [proj] of the state as it was. *)
Definition keeps {X} (proj : state -> X) {A} (m : M state A) : Prop :=
  forall st, proj (m st).2 = proj st.

(** The cleanup command for a staged path. *)
Definition rm_rf (delete_file : string) : nat * action :=
  (7%nat, Call ["rm"; "-rf"; delete_file]).

End Growth.


(** ** Characters in strings *)

Module Text.

(** How many times [c] occurs in [s]. *)
Fixpoint count_char (c : ascii) (s : string) : nat :=
  match s with
  | EmptyString => 0
  | String x s' => ((if Ascii.eqb x c then 1 else 0) + count_char c s')%nat
  end.

(** All characters of [s] satisfy [f]. *)
Fixpoint all_chars (f : ascii -> bool) (s : string) : bool :=
  match s with
  | EmptyString => true
  | String x s' => (f x && all_chars f s')%bool
  end.

(** First and last character. *)
Definition first_char (s : string) : option ascii :=
  match s with
  | EmptyString => None
  | String c _ => Some c
  end.

Fixpoint last_char (s : string) : option ascii :=
  match s with
  | EmptyString => None
  | String c EmptyString => Some c
  | String _ s' => last_char s'
  end.

(** [s] is not empty and neither begins nor ends with whitespace: what
    [strip] returns on a line that is not blank. *)
Definition trimmed_text (s : string) : Prop :=
  (exists c, first_char s = Some c /\ isspace c = false) /\
  (exists c, last_char s = Some c /\ isspace c = false).

End Text.


(** ** Decimal numerals *)

Module Numeral.

(** The value of a sequence of decimal digits read after the value
    [acc]. *)
Fixpoint uint_val (acc : Z) (u : Decimal.uint) : Z :=
  match u with
  | Decimal.Nil => acc
  | Decimal.D0 u' => uint_val (10 * acc + 0) u'
  | Decimal.D1 u' => uint_val (10 * acc + 1) u'
  | Decimal.D2 u' => uint_val (10 * acc + 2) u'
  | Decimal.D3 u' => uint_val (10 * acc + 3) u'
  | Decimal.D4 u' => uint_val (10 * acc + 4) u'
  | Decimal.D5 u' => uint_val (10 * acc + 5) u'
  | Decimal.D6 u' => uint_val (10 * acc + 6) u'
  | Decimal.D7 u' => uint_val (10 * acc + 7) u'
  | Decimal.D8 u' => uint_val (10 * acc + 8) u'
  | Decimal.D9 u' => uint_val (10 * acc + 9) u'
  end.

(** A character of a numeral: a digit or the minus sign. *)
Definition numeral_char (c : ascii) : bool :=
  (Re.is_digit c || Ascii.eqb c "-"%char)%bool.

End Numeral.


(** ** Text of the flagstat report *)

Module FlagstatSpec.
Import Re Text.

(** The report [s] holds, after the text [before], the pattern of the
    search: the digits [g], then " + ", the digits [h] and " mapped". *)
Definition mapped_text (s before g h rest : string) : Prop :=
  s = before +:+ g +:+ " + " +:+ h +:+ " mapped" +:+ rest /\
  g <> EmptyString /\ all_chars is_digit g = true /\
  h <> EmptyString /\ all_chars is_digit h = true.

(** What is recorded when the report cannot be opened. *)
Definition could_not_open (path : string) : string :=
  "Could not open flagstats " +:+ path.

End FlagstatSpec.

(** * Properties *)

(** ** The coordinate shifter, one line at a time *)

Module ShiftFacts.
Import Shift ShiftSpec.

Section Line.
Variables (out log : string) (minus plus : Z) (gs : gmap string Z).

Lemma shift_line_unparsed line e fs :
  parse_line line = Raise e ->
  shift_line out log minus plus gs line fs = (Raise e, fs).
Proof. intros H. unfold shift_line, bind, lift. now rewrite H. Qed.

Lemma shift_line_malformed line r fs :
  parse_line line = Ok r ->
  new_coords minus plus (strand r) (start r) (end_ r) = None ->
  shift_line out log minus plus gs line fs = (Ok tt, logged log MALFORMED line fs).
Proof.
  intros H Hc. unfold shift_line, bind, lift. rewrite H, Hc. reflexivity.
Qed.

Lemma shift_line_shifted line r ns ne fs :
  parse_line line = Ok r ->
  new_coords minus plus (strand r) (start r) (end_ r) = Some (ns, ne) ->
  shift_line out log minus plus gs line fs =
    match within_genome_boundry (chrom r) ns gs with
    | Raise e => (Raise e, fs)
    | Ok false => (Ok tt, logged log START_BEYOND line fs)
    | Ok true =>
        match within_genome_boundry (chrom r) ne gs with
        | Raise e => (Raise e, fs)
        | Ok false => (Ok tt, logged log END_BEYOND line fs)
        | Ok true => (Ok tt, file_append out (output_line r ns ne) fs)
        end
    end.
Proof.
  intros H Hc. unfold shift_line, bind, lift. rewrite H, Hc.
  destruct (within_genome_boundry (chrom r) ns gs) as [[|]|e]; try reflexivity.
  cbn. destruct (within_genome_boundry (chrom r) ne gs) as [[|]|e]; reflexivity.
Qed.
End Line.

End ShiftFacts.

(** ** Strings *)

Lemma append_cons (x : ascii) (a b : string) :
  String x a +:+ b = String x (a +:+ b).
Proof. reflexivity. Qed.

Lemma append_nil_l (b : string) : EmptyString +:+ b = b.
Proof. reflexivity. Qed.

Lemma append_assoc (a b c : string) : (a +:+ b) +:+ c = a +:+ (b +:+ c).
Proof.
  induction a as [|x a IH]; [reflexivity|].
  rewrite !append_cons. now rewrite IH.
Qed.

Lemma append_nil_r (a : string) : a +:+ EmptyString = a.
Proof.
  induction a as [|x a IH]; [reflexivity|].
  rewrite append_cons. now rewrite IH.
Qed.

Lemma length_append (a b : string) :
  String.length (a +:+ b) = (String.length a + String.length b)%nat.
Proof.
  induction a as [|x a IH]; [reflexivity|].
  rewrite append_cons. cbn. now rewrite IH.
Qed.

(** ** The boundary test and the file primitives *)

Section WithinBoundary.
Import Shift.
Variables (chrom : string) (pos : Z) (gs : gmap string Z).

Lemma within_true :
  within_genome_boundry chrom pos gs = Ok true <->
  exists size, gs !! chrom = Some size /\ 1 <= pos <= size.
Proof.
  unfold within_genome_boundry.
  destruct (Z.ltb_spec pos 1).
  - split; [discriminate | intros (size & _ & ?); lia].
  - destruct (gs !! chrom) as [size|]; [|split; [discriminate | intros (? & ? & _); discriminate]].
    destruct (Z.ltb_spec size pos).
    + split; [discriminate | intros (? & [= <-] & ?); lia].
    + split; [intros _; exists size; split; [reflexivity | lia] | reflexivity].
Qed.

Lemma within_false :
  within_genome_boundry chrom pos gs = Ok false <->
  pos < 1 \/ exists size, gs !! chrom = Some size /\ size < pos.
Proof.
  unfold within_genome_boundry.
  destruct (Z.ltb_spec pos 1).
  - split; [intros _; left; lia | reflexivity].
  - destruct (gs !! chrom) as [size|].
    + destruct (Z.ltb_spec size pos).
      * split; [intros _; right; exists size; split; [reflexivity | lia] | reflexivity].
      * split; [discriminate | intros [? | (? & [= <-] & ?)]; lia].
    + split; [discriminate | intros [? | (? & ? & _)]; [lia | discriminate]].
Qed.

Lemma within_raise e :
  within_genome_boundry chrom pos gs = Raise e <->
  1 <= pos /\ gs !! chrom = None /\ e = KeyError chrom.
Proof.
  unfold within_genome_boundry.
  destruct (Z.ltb_spec pos 1).
  - split; [discriminate | intros (? & _); lia].
  - destruct (gs !! chrom) as [size|].
    + destruct (size <? pos); (split; [discriminate | intros (_ & ? & _); discriminate]).
    + split; [intros [= <-]; split; [lia | split; reflexivity] | intros (_ & _ & ->); reflexivity].
Qed.
End WithinBoundary.

Section FileAppend.
Variables (p q text : string) (fs : files).

Lemma file_append_other : p <> q -> file_append p text fs !! q = fs !! q.
Proof. intros H. unfold file_append. now rewrite lookup_insert_ne. Qed.

Lemma file_append_same :
  file_append p text fs !! p = Some (default EmptyString (fs !! p) +:+ text).
Proof. unfold file_append. now rewrite lookup_insert_eq. Qed.
End FileAppend.

Lemma logged_other log msg line q fs :
  log <> q -> ShiftSpec.logged log msg line fs !! q = fs !! q.
Proof.
  intros H. unfold ShiftSpec.logged. now rewrite !file_append_other.
Qed.

(** ** Claims about single records *)

Section Records.
Import Shift ShiftSpec ShiftFacts.
Variables (out log : string) (gs : gmap string Z).

Local Abbreviation shift1 := (shift_line out log MINUS_STRAND_SHIFT PLUS_STRAND_SHIFT gs).

(** C1. With the shifts of the pipeline (+4 on the plus strand, -5 on the
    minus strand), a record that parses with strand '+' gets the
    coordinates (start+4, end+4) and one with strand '-' gets
    (start-5, end-5): nothing else can be written for it to the output
    file.  A record with any other strand has the malformed-line message
    and the line itself appended to the log, and the output file is left
    as it was. *)
Theorem shift_by_strand (line : string) (r : fields) (fs : files) :
  out <> log ->
  parse_line line = Ok r ->
  (strand r = "+" ->
     new_coords MINUS_STRAND_SHIFT PLUS_STRAND_SHIFT (strand r) (start r) (end_ r)
       = Some (start r + 4, end_ r + 4) /\
     ((shift1 line fs).2 !! out = fs !! out \/
      shift1 line fs =
        (Ok tt, file_append out (output_line r (start r + 4) (end_ r + 4)) fs))) /\
  (strand r = "-" ->
     new_coords MINUS_STRAND_SHIFT PLUS_STRAND_SHIFT (strand r) (start r) (end_ r)
       = Some (start r - 5, end_ r - 5) /\
     ((shift1 line fs).2 !! out = fs !! out \/
      shift1 line fs =
        (Ok tt, file_append out (output_line r (start r - 5) (end_ r - 5)) fs))) /\
  (strand r <> "+" -> strand r <> "-" ->
     shift1 line fs = (Ok tt, logged log MALFORMED line fs) /\
     (shift1 line fs).2 !! out = fs !! out /\
     (shift1 line fs).2 !! log =
       Some (default EmptyString (fs !! log)
             +:+ (MALFORMED +:+ NL) +:+ (strip line +:+ NL))).
Proof.
  intros Hne Hp.
  assert (Hcases : forall ns ne,
    new_coords MINUS_STRAND_SHIFT PLUS_STRAND_SHIFT (strand r) (start r) (end_ r)
      = Some (ns, ne) ->
    (shift1 line fs).2 !! out = fs !! out \/
    shift1 line fs = (Ok tt, file_append out (output_line r ns ne) fs)).
  { intros ns ne Hc. rewrite (shift_line_shifted _ _ _ _ _ _ _ ns ne _ Hp Hc).
    destruct (within_genome_boundry (chrom r) ns gs) as [[|]|e]; cbn.
    - destruct (within_genome_boundry (chrom r) ne gs) as [[|]|e]; cbn.
      + now right.
      + left. apply logged_other. congruence.
      + now left.
    - left. apply logged_other. congruence.
    - now left. }
  split; [|split].
  - intros Hs.
    assert (Hc : new_coords MINUS_STRAND_SHIFT PLUS_STRAND_SHIFT
                   (strand r) (start r) (end_ r) = Some (start r + 4, end_ r + 4)).
    { unfold new_coords. rewrite Hs. reflexivity. }
    split; [exact Hc | exact (Hcases _ _ Hc)].
  - intros Hs.
    assert (Hc : new_coords MINUS_STRAND_SHIFT PLUS_STRAND_SHIFT
                   (strand r) (start r) (end_ r) = Some (start r - 5, end_ r - 5)).
    { unfold new_coords. rewrite Hs. reflexivity. }
    split; [exact Hc | exact (Hcases _ _ Hc)].
  - intros Hp' Hm'.
    assert (Hc : new_coords MINUS_STRAND_SHIFT PLUS_STRAND_SHIFT
                   (strand r) (start r) (end_ r) = None).
    { unfold new_coords.
      destruct (String.eqb_spec (strand r) "+"); [contradiction|].
      destruct (String.eqb_spec (strand r) "-"); [contradiction|]. reflexivity. }
    rewrite (shift_line_malformed _ _ _ _ _ _ _ _ Hp Hc). cbn.
    split; [reflexivity | split].
    + apply logged_other. congruence.
    + unfold logged. rewrite file_append_same, file_append_same. cbn.
      f_equal. now rewrite !append_assoc.
Qed.
End Records.

Lemma shift_by_strand_witness :
  (Shift.shift_line "out.bed" "shift.log" MINUS_STRAND_SHIFT PLUS_STRAND_SHIFT
     Sample.chr1_100 Sample.line_dot ∅).2 !! "out.bed" = (∅ : files) !! "out.bed".
Proof.
  refine (proj1 (proj2 (proj2 (proj2
    (shift_by_strand "out.bed" "shift.log" Sample.chr1_100 Sample.line_dot
       SampleFields.fields_dot ∅ _ _)) _ _))).
  - discriminate.
  - reflexivity.
  - discriminate.
  - discriminate.
Defined.

Section Bounds.
Import Shift ShiftSpec ShiftFacts.
Variables (out log : string) (gs : gmap string Z).

Local Abbreviation shift1 := (shift_line out log MINUS_STRAND_SHIFT PLUS_STRAND_SHIFT gs).

(** C2. A record is written to the output file only if both shifted
    coordinates lie between 1 and the length of its chromosome in the
    genome size table; a record whose chromosome is in the table and that
    has a shifted coordinate outside these bounds has a boundary message
    and its original line appended to the log, leaves the output file as
    it was, and raises nothing; a record within the bounds is written.  A
    record with a shifted start below 1 is logged and dropped whatever the
    table holds; a record whose chromosome is not in the table and whose
    shifted start is at least 1 raises KeyError, also when its shifted end
    is out of bounds.  On the table {"chr1": 100} the record
    chr1 96 99 name 0 + has new end 103 and is dropped. *)
Theorem shift_within_bounds (line : string) (r : fields) (ns ne : Z) (fs : files) :
  out <> log ->
  parse_line line = Ok r ->
  new_coords MINUS_STRAND_SHIFT PLUS_STRAND_SHIFT (strand r) (start r) (end_ r)
    = Some (ns, ne) ->
  ((shift1 line fs).2 !! out <> fs !! out ->
     exists size, gs !! chrom r = Some size /\ 1 <= ns <= size /\ 1 <= ne <= size) /\
  (forall size, gs !! chrom r = Some size ->
     ~ (1 <= ns <= size /\ 1 <= ne <= size) ->
     exists msg, (msg = START_BEYOND \/ msg = END_BEYOND) /\
       shift1 line fs = (Ok tt, logged log msg line fs) /\
       (shift1 line fs).2 !! out = fs !! out /\
       (shift1 line fs).2 !! log =
         Some (default EmptyString (fs !! log)
               +:+ (msg +:+ NL) +:+ (strip line +:+ NL))) /\
  (forall size, gs !! chrom r = Some size ->
     1 <= ns <= size /\ 1 <= ne <= size ->
     shift1 line fs = (Ok tt, file_append out (output_line r ns ne) fs)) /\
  (ns < 1 -> shift1 line fs = (Ok tt, logged log START_BEYOND line fs)) /\
  (gs !! chrom r = None -> 1 <= ns ->
     shift1 line fs = (Raise (KeyError (chrom r)), fs)) /\
  (new_coords MINUS_STRAND_SHIFT PLUS_STRAND_SHIFT "+" 96 99 = Some (100, 103) /\
   (Sample.shift_sample (Sample.disk_with Sample.line_plus_edge)).1 = Ok tt /\
   (Sample.shift_sample (Sample.disk_with Sample.line_plus_edge)).2 !! "out.bed"
     = Some EmptyString /\
   (Sample.shift_sample (Sample.disk_with Sample.line_plus_edge)).2 !! "shift.log"
     = Some (END_BEYOND +:+ NL +:+ strip Sample.line_plus_edge +:+ NL)).
Proof.
  intros Hne Hp Hc.
  pose proof (shift_line_shifted out log _ _ gs line r ns ne fs Hp Hc) as E.
  assert (Hlog : forall msg,
    logged log msg line fs !! log =
      Some (default EmptyString (fs !! log) +:+ (msg +:+ NL) +:+ (strip line +:+ NL))).
  { intros msg. unfold logged. rewrite !file_append_same. cbn.
    now rewrite !append_assoc. }
  split; [|split; [|split; [|split; [|split]]]].
  - intros Hchg.
    destruct (within_genome_boundry (chrom r) ns gs) as [[|]|e] eqn:Ws.
    + destruct (within_genome_boundry (chrom r) ne gs) as [[|]|e] eqn:We.
      * apply within_true in Ws as (size & Hs & ?).
        apply within_true in We as (size' & Hs' & ?).
        exists size. rewrite Hs in Hs'. injection Hs' as <-. tauto.
      * exfalso. apply Hchg. rewrite E. cbn. apply logged_other. congruence.
      * exfalso. apply Hchg. now rewrite E.
    + exfalso. apply Hchg. rewrite E. cbn. apply logged_other. congruence.
    + exfalso. apply Hchg. now rewrite E.
  - intros size Hs Hviol.
    destruct (within_genome_boundry (chrom r) ns gs) as [[|]|e] eqn:Ws.
    + destruct (within_genome_boundry (chrom r) ne gs) as [[|]|e] eqn:We.
      * apply within_true in Ws as (s1 & Hs1 & ?).
        apply within_true in We as (s2 & Hs2 & ?).
        rewrite Hs in Hs1, Hs2. injection Hs1 as <-. injection Hs2 as <-.
        exfalso. apply Hviol. lia.
      * exists END_BEYOND. rewrite E. cbn.
        split; [now right | split; [reflexivity | split]];
          [apply logged_other; congruence | apply Hlog].
      * apply within_raise in We as (_ & Hn & _). congruence.
    + exists START_BEYOND. rewrite E. cbn.
      split; [now left | split; [reflexivity | split]];
        [apply logged_other; congruence | apply Hlog].
    + apply within_raise in Ws as (_ & Hn & _). congruence.
  - intros size Hs [Hb1 Hb2].
    assert (W1 : within_genome_boundry (chrom r) ns gs = Ok true)
      by (apply within_true; eauto).
    assert (W2 : within_genome_boundry (chrom r) ne gs = Ok true)
      by (apply within_true; eauto).
    now rewrite E, W1, W2.
  - intros Hlow.
    assert (W : within_genome_boundry (chrom r) ns gs = Ok false)
      by (apply within_false; now left).
    now rewrite E, W.
  - intros Habs Hpos.
    assert (W : within_genome_boundry (chrom r) ns gs = Raise (KeyError (chrom r)))
      by (apply within_raise; auto).
    now rewrite E, W.
  - repeat split; vm_compute; reflexivity.
Qed.
End Bounds.

Lemma shift_within_bounds_witness :
  Shift.shift_line "out.bed" "shift.log" MINUS_STRAND_SHIFT PLUS_STRAND_SHIFT
    Sample.chr1_100 Sample.line_minus ∅
  = (Ok tt, file_append "out.bed"
              (Shift.output_line SampleFields.fields_minus 5 15) ∅).
Proof.
  refine (proj1 (proj2 (proj2
    (shift_within_bounds "out.bed" "shift.log" Sample.chr1_100 Sample.line_minus
       SampleFields.fields_minus 5 15 ∅ _ _ _))) 100 _ _).
  - discriminate.
  - reflexivity.
  - reflexivity.
  - reflexivity.
  - lia.
Defined.

(** C2 (as stated, refuted). On the table {"chr1": 100} the record
    chr2 10 2 name 0 - has the shifted end -3, below 1, and yet is not
    logged and dropped: the shifted start 5 is looked up first and the
    line raises KeyError. *)
Lemma bound_violation_may_raise :
  ~ (Shift.new_coords MINUS_STRAND_SHIFT PLUS_STRAND_SHIFT "-" 10 2 = Some (5, -3) ->
     ~ (1 <= -3) ->
     (Shift.shift_line "out.bed" "shift.log" MINUS_STRAND_SHIFT PLUS_STRAND_SHIFT
        Sample.chr1_100 Sample.line_chr2_low_end ∅).1 = Ok tt).
Proof.
  intros H.
  assert (E : (Shift.shift_line "out.bed" "shift.log" MINUS_STRAND_SHIFT
                 PLUS_STRAND_SHIFT Sample.chr1_100 Sample.line_chr2_low_end ∅).1
              = Raise (KeyError "chr2")) by (vm_compute; reflexivity).
  rewrite H in E; [discriminate E | reflexivity | lia].
Qed.

(** C3 (as stated, refuted). On the table {"chr1": 100} the record
    chr1 10 20 name 0 - is not written as the five fields
    chr1 5 15 name 0: the line in the output file is another one. *)
Lemma minus_record_not_five_fields :
  ~ ((Sample.shift_sample (Sample.disk_with Sample.line_minus)).2 !! "out.bed"
       = Some (join TAB ["chr1"; "5"; "15"; "name"; "0"] +:+ NL)
     \/ (Sample.shift_sample (Sample.disk_with Sample.line_minus)).2 !! "out.bed"
       = Some (join TAB ["chr1"; "5"; "15"; "name"; "0"])).
Proof. vm_compute. intros [H | H]; discriminate H. Qed.

(** C3 (amended). On the table {"chr1": 100} the record
    chr1 10 20 name 0 - is shifted by -5 to (5, 15), both within [1, 100],
    and the output file holds exactly the line chr1 5 15 name 0 -, with the
    strand field, like every field after the third, passed through; nothing
    is logged. *)
Theorem minus_record_emitted :
  Shift.new_coords MINUS_STRAND_SHIFT PLUS_STRAND_SHIFT "-" 10 20 = Some (5, 15) /\
  Shift.within_genome_boundry "chr1" 5 Sample.chr1_100 = Ok true /\
  Shift.within_genome_boundry "chr1" 15 Sample.chr1_100 = Ok true /\
  (Sample.shift_sample (Sample.disk_with Sample.line_minus)).1 = Ok tt /\
  (Sample.shift_sample (Sample.disk_with Sample.line_minus)).2 !! "out.bed"
    = Some (join TAB ["chr1"; "5"; "15"; "name"; "0"; "-"] +:+ NL) /\
  (Sample.shift_sample (Sample.disk_with Sample.line_minus)).2 !! "shift.log" = None.
Proof. repeat split; vm_compute; reflexivity. Qed.

(** ** Lines that do not parse *)

Section Parsing.
Import Shift ShiftSpec ShiftFacts.

Lemma index_raises {A} (l : list A) (i : nat) e :
  index l i = Raise e -> e = IndexError /\ (length l <= i)%nat.
Proof.
  unfold index. destruct (l !! i) eqn:E; [discriminate|].
  intros [= <-]. split; [reflexivity | now apply lookup_ge_None].
Qed.

Lemma index_ok {A} (l : list A) (i : nat) x :
  index l i = Ok x <-> l !! i = Some x.
Proof.
  unfold index. destruct (l !! i); split; congruence.
Qed.

Lemma int_raises (s : string) e :
  int s = Raise e -> e = ValueError /\ int_literal s = None.
Proof.
  unfold int. destruct (int_literal s); [discriminate|]. now intros [= <-].
Qed.

Lemma int_ok (s : string) z : int s = Ok z <-> int_literal s = Some z.
Proof. unfold int. destruct (int_literal s); split; congruence. Qed.

(** What a successful parse says about the line. *)
Lemma parse_line_ok (line : string) (r : fields) :
  parse_line line = Ok r ->
  record r = split tab (strip line) /\
  (6 <= length (record r))%nat /\
  record r !! 0%nat = Some (chrom r) /\
  (exists f1, record r !! 1%nat = Some f1 /\ int_literal f1 = Some (start r)) /\
  (exists f2, record r !! 2%nat = Some f2 /\ int_literal f2 = Some (end_ r)) /\
  record r !! 5%nat = Some (strand r).
Proof.
  unfold parse_line.
  destruct (index _ 0) as [c|] eqn:E0; [|discriminate].
  destruct (index _ 1) as [f1|] eqn:E1; [|discriminate].
  destruct (int f1) as [s|] eqn:I1; [|discriminate].
  destruct (index _ 2) as [f2|] eqn:E2; [|discriminate].
  destruct (int f2) as [e|] eqn:I2; [|discriminate].
  destruct (index _ 5) as [sd|] eqn:E5; [|discriminate].
  intros [= <-]. cbn.
  apply index_ok in E0, E1, E2, E5. apply int_ok in I1, I2.
  split; [reflexivity|]. split; [apply lookup_lt_Some in E5; lia|].
  split; [assumption|]. split; [eauto|]. split; [eauto | assumption].
Qed.

(** Only IndexError and ValueError come out of the parse. *)
Lemma parse_line_raises (line : string) e :
  parse_line line = Raise e -> e = IndexError \/ e = ValueError.
Proof.
  unfold parse_line.
  destruct (index _ 0) as [c|] eqn:E0;
    [|intros [= <-]; left; now apply index_raises in E0].
  destruct (index _ 1) as [f1|] eqn:E1;
    [|intros [= <-]; left; now apply index_raises in E1].
  destruct (int f1) as [s|] eqn:I1;
    [|intros [= <-]; right; now apply int_raises in I1].
  destruct (index _ 2) as [f2|] eqn:E2;
    [|intros [= <-]; left; now apply index_raises in E2].
  destruct (int f2) as [e'|] eqn:I2;
    [|intros [= <-]; right; now apply int_raises in I2].
  destruct (index _ 5) as [sd|] eqn:E5;
    [discriminate | intros [= <-]; left; now apply index_raises in E5].
Qed.

Lemma parse_line_short (line : string) :
  (length (split tab (strip line)) < 6)%nat ->
  exists e, (e = IndexError \/ e = ValueError) /\ parse_line line = Raise e.
Proof.
  intros Hlen. destruct (parse_line line) as [r|e] eqn:E.
  - apply parse_line_ok in E as (Hr & H6 & _). rewrite Hr in H6. lia.
  - exists e. split; [now apply parse_line_raises in E | reflexivity].
Qed.

Lemma parse_line_not_int (line f : string) :
  split tab (strip line) !! 1%nat = Some f \/ split tab (strip line) !! 2%nat = Some f ->
  int_literal f = None ->
  parse_line line = Raise ValueError.
Proof.
  intros Hf Hn. unfold parse_line.
  destruct (index _ 0) as [c|] eqn:E0.
  2:{ apply index_raises in E0 as [_ Hl].
      destruct Hf as [Hf | Hf]; apply lookup_lt_Some in Hf; lia. }
  destruct (index _ 1) as [f1|] eqn:E1.
  2:{ apply index_raises in E1 as [_ Hl].
      destruct Hf as [Hf | Hf]; apply lookup_lt_Some in Hf; lia. }
  apply index_ok in E1.
  destruct (int f1) as [s|] eqn:I1.
  2:{ apply int_raises in I1 as [-> _]. reflexivity. }
  apply int_ok in I1.
  destruct Hf as [Hf | Hf]; [congruence|].
  unfold index at 1. rewrite Hf.
  unfold int. now rewrite Hn.
Qed.
End Parsing.

Section LogStates.
Import Shift ShiftSpec.
Variables (out log : string).

Lemma logged_lookup msg line (fs : files) :
  logged log msg line fs !! log =
    Some (default EmptyString (fs !! log) +:+ (msg +:+ NL) +:+ (strip line +:+ NL)).
Proof.
  unfold logged. rewrite !file_append_same. cbn. now rewrite !append_assoc.
Qed.

Lemma logged_msg_inj m1 m2 line (fs : files) :
  logged log m1 line fs = logged log m2 line fs ->
  (m1 +:+ NL) +:+ (strip line +:+ NL) = (m2 +:+ NL) +:+ (strip line +:+ NL).
Proof.
  intros H. apply (f_equal (fun m : files => m !! log)) in H.
  rewrite !logged_lookup in H. injection H as H.
  now apply String.app_inj in H.
Qed.

Lemma emitted_not_logged text msg line (fs : files) :
  out <> log ->
  file_append out text fs <> logged log msg line fs.
Proof.
  intros Hne H. apply (f_equal (fun m : files => m !! log)) in H.
  rewrite logged_lookup, file_append_other in H by assumption.
  destruct (fs !! log) as [d|]; [|discriminate]. cbn in H. injection H as H.
  apply (f_equal String.length) in H.
  rewrite !length_append in H. cbn in H. lia.
Qed.
End LogStates.

Section Malformed.
Import Shift ShiftSpec ShiftFacts.
Variables (out log : string) (minus plus : Z) (gs : gmap string Z).

Local Abbreviation shift1 := (shift_line out log minus plus gs).

(** C10. A line with fewer than six tab-separated fields, or whose start
    or end field is not an integer literal, makes the loop body raise
    IndexError or ValueError while it parses, before it logs or writes
    anything, and the loop over the file stops there with that exception.
    The malformed-line branch, which logs and skips, is taken exactly by
    the lines that parse (at least six fields, integer start and end) and
    carry a strand other than '+' and '-'.  The sample line of three
    fields raises IndexError, the one with start 'ten' ValueError. *)
Theorem unparsed_line_raises (line : string) (fs : files) :
  ((length (split tab (strip line)) < 6)%nat ->
     exists e, (e = IndexError \/ e = ValueError) /\
       shift1 line fs = (Raise e, fs) /\
       forall rest, for_each (line :: rest) shift1 fs = (Raise e, fs)) /\
  (forall f,
     split tab (strip line) !! 1%nat = Some f \/
     split tab (strip line) !! 2%nat = Some f ->
     int_literal f = None ->
     shift1 line fs = (Raise ValueError, fs) /\
     forall rest, for_each (line :: rest) shift1 fs = (Raise ValueError, fs)) /\
  (out <> log ->
     (shift1 line fs = (Ok tt, logged log MALFORMED line fs) <->
      exists r, parse_line line = Ok r /\ strand r <> "+" /\ strand r <> "-")) /\
  (forall r, parse_line line = Ok r ->
     record r = split tab (strip line) /\
     (6 <= length (record r))%nat /\
     (exists f1, record r !! 1%nat = Some f1 /\ int_literal f1 = Some (start r)) /\
     (exists f2, record r !! 2%nat = Some f2 /\ int_literal f2 = Some (end_ r)) /\
     record r !! 5%nat = Some (strand r)) /\
  (parse_line Sample.line_short = Raise IndexError /\
   parse_line Sample.line_not_int = Raise ValueError).
Proof.
  assert (Hloop : forall e, shift1 line fs = (Raise e, fs) ->
            forall rest, for_each (line :: rest) shift1 fs = (Raise e, fs)).
  { intros e H rest. cbn. unfold bind. now rewrite H. }
  split; [|split; [|split; [|split]]].
  - intros Hlen. destruct (parse_line_short line Hlen) as (e & He & Hp).
    exists e. split; [assumption|].
    pose proof (shift_line_unparsed out log minus plus gs line e fs Hp) as H.
    split; [assumption | now apply Hloop].
  - intros f Hf Hn.
    pose proof (parse_line_not_int line f Hf Hn) as Hp.
    pose proof (shift_line_unparsed out log minus plus gs line _ fs Hp) as H.
    split; [assumption | now apply Hloop].
  - intros Hne. split.
    + intros H. destruct (parse_line line) as [r|e] eqn:Hp.
      2:{ rewrite (shift_line_unparsed _ _ _ _ _ _ _ _ Hp) in H. discriminate. }
      exists r. split; [reflexivity|].
      destruct (new_coords minus plus (strand r) (start r) (end_ r))
        as [[ns ne]|] eqn:Hc.
      * exfalso. rewrite (shift_line_shifted _ _ _ _ _ _ _ _ _ _ Hp Hc) in H.
        destruct (within_genome_boundry (chrom r) ns gs) as [[|]|e];
          [|injection H as H|discriminate].
        -- destruct (within_genome_boundry (chrom r) ne gs) as [[|]|e];
             [injection H as H|injection H as H|discriminate].
           ++ now apply emitted_not_logged in H.
           ++ apply logged_msg_inj in H. discriminate H.
        -- apply logged_msg_inj in H. discriminate H.
      * unfold new_coords in Hc.
        destruct (String.eqb_spec (strand r) "+"); [discriminate|].
        destruct (String.eqb_spec (strand r) "-"); [discriminate|]. tauto.
    + intros (r & Hp & Hs1 & Hs2). apply shift_line_malformed with r; [assumption|].
      unfold new_coords.
      destruct (String.eqb_spec (strand r) "+"); [contradiction|].
      destruct (String.eqb_spec (strand r) "-"); [contradiction|]. reflexivity.
  - intros r Hp. apply parse_line_ok in Hp. tauto.
  - split; reflexivity.
Qed.
End Malformed.

Lemma unparsed_line_raises_witness :
  exists e, (e = IndexError \/ e = ValueError) /\
    Shift.shift_line "out.bed" "shift.log" MINUS_STRAND_SHIFT PLUS_STRAND_SHIFT
      Sample.chr1_100 Sample.line_short ∅ = (Raise e, ∅).
Proof.
  destruct (proj1 (unparsed_line_raises "out.bed" "shift.log"
                     MINUS_STRAND_SHIFT PLUS_STRAND_SHIFT Sample.chr1_100
                     Sample.line_short ∅)) as (e & He & H & _).
  - vm_compute. lia.
  - exists e. split; assumption.
Defined.

(** ** Chromosomes missing from the genome size table *)

(** C9 (as stated, refuted). Not every record whose chromosome is absent
    from the table raises KeyError: chr2 3 10 name 0 - on the table
    {"chr1": 100} has new start -2, is logged and dropped. *)
Lemma absent_chromosome_may_be_logged :
  ~ (Sample.chr1_100 !! "chr2" = None ->
     exists fs',
       Shift.shift_line "out.bed" "shift.log" MINUS_STRAND_SHIFT PLUS_STRAND_SHIFT
         Sample.chr1_100 Sample.line_chr2_minus ∅ = (Raise (KeyError "chr2"), fs')).
Proof.
  intros H. destruct (H eq_refl) as (fs' & E).
  assert (E1 : (Shift.shift_line "out.bed" "shift.log" MINUS_STRAND_SHIFT
                  PLUS_STRAND_SHIFT Sample.chr1_100 Sample.line_chr2_minus ∅).1
               = Ok tt) by (vm_compute; reflexivity).
  rewrite E in E1. discriminate E1.
Qed.

Section Absent.
Import Shift ShiftSpec ShiftFacts.
Variables (out log : string) (minus plus : Z) (gs : gmap string Z).

Local Abbreviation shift1 := (shift_line out log minus plus gs).

Lemma shift_line_total (line : string) (r : fields) (fs : files) :
  parse_line line = Ok r ->
  is_Some (gs !! chrom r) ->
  exists fs', shift1 line fs = (Ok tt, fs').
Proof.
  intros Hp [size Hs].
  destruct (new_coords minus plus (strand r) (start r) (end_ r)) as [[ns ne]|] eqn:Hc.
  - rewrite (shift_line_shifted _ _ _ _ _ _ _ _ _ _ Hp Hc).
    destruct (within_genome_boundry (chrom r) ns gs) as [[|]|e] eqn:Ws.
    + destruct (within_genome_boundry (chrom r) ne gs) as [[|]|e] eqn:We; eauto.
      apply within_raise in We as (_ & Hn & _). congruence.
    + eauto.
    + apply within_raise in Ws as (_ & Hn & _). congruence.
  - rewrite (shift_line_malformed _ _ _ _ _ _ _ _ Hp Hc). eauto.
Qed.

Lemma shift_loop_total (lines : list string) :
  Forall (fun line => exists r, parse_line line = Ok r /\ is_Some (gs !! chrom r)) lines ->
  forall fs, exists fs', for_each lines shift1 fs = (Ok tt, fs').
Proof.
  induction 1 as [|line rest (r & Hp & Hs) _ IH]; intros fs.
  - exists fs. reflexivity.
  - destruct (shift_line_total line r fs Hp Hs) as (fs1 & E1).
    destruct (IH fs1) as (fs2 & E2).
    exists fs2. cbn. unfold bind. now rewrite E1.
Qed.

(** C9 (amended). A record that parses and whose chromosome is absent from
    the table raises KeyError, before anything is logged or written, exactly
    when its strand is '+' or '-' and its shifted start is at least 1; with
    another strand it is logged as malformed, with a shifted start below 1
    it is logged as beyond the boundary, and in both cases it is dropped
    without an exception.  When every line of the input parses and names a
    chromosome of the table, the loop over the file returns. *)
Theorem absent_chromosome (line : string) (r : fields) (fs : files) :
  parse_line line = Ok r ->
  gs !! chrom r = None ->
  (shift1 line fs = (Raise (KeyError (chrom r)), fs) <->
     exists ns ne,
       new_coords minus plus (strand r) (start r) (end_ r) = Some (ns, ne) /\ 1 <= ns) /\
  (new_coords minus plus (strand r) (start r) (end_ r) = None ->
     shift1 line fs = (Ok tt, logged log MALFORMED line fs)) /\
  (forall ns ne,
     new_coords minus plus (strand r) (start r) (end_ r) = Some (ns, ne) -> ns < 1 ->
     shift1 line fs = (Ok tt, logged log START_BEYOND line fs)) /\
  (forall lines,
     Forall (fun l => exists r', parse_line l = Ok r' /\ is_Some (gs !! chrom r')) lines ->
     forall fs0, exists fs', for_each lines shift1 fs0 = (Ok tt, fs')).
Proof.
  intros Hp Hn.
  assert (Hstart : forall ns ne,
    new_coords minus plus (strand r) (start r) (end_ r) = Some (ns, ne) -> ns < 1 ->
    shift1 line fs = (Ok tt, logged log START_BEYOND line fs)).
  { intros ns ne Hc Hlt. rewrite (shift_line_shifted _ _ _ _ _ _ _ _ _ _ Hp Hc).
    assert (W : within_genome_boundry (chrom r) ns gs = Ok false)
      by (apply within_false; now left).
    now rewrite W. }
  split; [|split; [|split]].
  - split.
    + intros H.
      destruct (new_coords minus plus (strand r) (start r) (end_ r))
        as [[ns ne]|] eqn:Hc.
      * exists ns, ne. split; [reflexivity|].
        destruct (Z.lt_ge_cases ns 1) as [Hlt|]; [|assumption].
        rewrite (Hstart ns ne eq_refl Hlt) in H. discriminate.
      * rewrite (shift_line_malformed _ _ _ _ _ _ _ _ Hp Hc) in H. discriminate.
    + intros (ns & ne & Hc & Hge).
      rewrite (shift_line_shifted _ _ _ _ _ _ _ _ _ _ Hp Hc).
      assert (W : within_genome_boundry (chrom r) ns gs = Raise (KeyError (chrom r)))
        by (apply within_raise; auto).
      now rewrite W.
  - intros Hc. now apply shift_line_malformed with r.
  - exact Hstart.
  - intros lines Hall fs0. now apply shift_loop_total.
Qed.
End Absent.

Lemma absent_chromosome_witness :
  Shift.shift_line "out.bed" "shift.log" MINUS_STRAND_SHIFT PLUS_STRAND_SHIFT
    Sample.chr1_100 Sample.line_chr2_plus ∅ = (Raise (KeyError "chr2"), ∅).
Proof.
  refine (proj2 (proj1
    (absent_chromosome "out.bed" "shift.log" MINUS_STRAND_SHIFT PLUS_STRAND_SHIFT
       Sample.chr1_100 Sample.line_chr2_plus SampleFields.fields_chr2_plus ∅ _ _)) _).
  - reflexivity.
  - reflexivity.
  - exists 7, 14. split; [reflexivity | lia].
Defined.

(** ** Running the shifter twice *)

Section Determinism.
Import Shift ShiftSpec ShiftFacts.
Variables (out log : string) (minus plus : Z) (gs : gmap string Z).
Hypothesis out_log : out <> log.

Local Abbreviation shift1 := (shift_line out log minus plus gs).

(** What a line does to the files does not depend on the files: it is one
    of three updates, chosen by the line and the table. *)
Lemma shift_line_effect (line : string) :
  exists (res : result unit) (g : files -> files),
    (forall fs, shift1 line fs = (res, g fs)) /\
    (forall fs p, p <> out -> p <> log -> g fs !! p = fs !! p) /\
    (forall fsA fsB, fsA !! out = fsB !! out -> g fsA !! out = g fsB !! out).
Proof.
  assert (Hid : forall res, exists (res' : result unit) (g : files -> files),
    (forall fs, (res, fs) = (res', g fs)) /\
    (forall fs p, p <> out -> p <> log -> g fs !! p = fs !! p) /\
    (forall fsA fsB, fsA !! out = fsB !! out -> g fsA !! out = g fsB !! out)).
  { intros res. exists res, (fun fs => fs). auto. }
  assert (Hlogged : forall msg, exists (res' : result unit) (g : files -> files),
    (forall fs, (Ok tt, logged log msg line fs) = (res', g fs)) /\
    (forall fs p, p <> out -> p <> log -> g fs !! p = fs !! p) /\
    (forall fsA fsB, fsA !! out = fsB !! out -> g fsA !! out = g fsB !! out)).
  { intros msg. exists (Ok tt), (logged log msg line).
    split; [reflexivity | split].
    - intros fs p _ Hp. apply logged_other. congruence.
    - intros fsA fsB H. rewrite !logged_other by congruence. exact H. }
  destruct (parse_line line) as [r|e] eqn:Hp.
  - destruct (new_coords minus plus (strand r) (start r) (end_ r))
      as [[ns ne]|] eqn:Hc.
    + destruct (within_genome_boundry (chrom r) ns gs) as [[|]|e] eqn:Ws.
      * destruct (within_genome_boundry (chrom r) ne gs) as [[|]|e] eqn:We.
        -- exists (Ok tt), (file_append out (output_line r ns ne)).
           split; [|split].
           ++ intros fs. rewrite (shift_line_shifted _ _ _ _ _ _ _ _ _ _ Hp Hc).
              now rewrite Ws, We.
           ++ intros fs p Hp' _. apply file_append_other. congruence.
           ++ intros fsA fsB H. rewrite !file_append_same. now rewrite H.
        -- destruct (Hlogged END_BEYOND) as (res & g & Hg & Hrest).
           exists res, g. split; [|exact Hrest].
           intros fs. rewrite (shift_line_shifted _ _ _ _ _ _ _ _ _ _ Hp Hc).
           rewrite Ws, We. apply Hg.
        -- destruct (Hid (Raise e)) as (res & g & Hg & Hrest).
           exists res, g. split; [|exact Hrest].
           intros fs. rewrite (shift_line_shifted _ _ _ _ _ _ _ _ _ _ Hp Hc).
           rewrite Ws, We. apply Hg.
      * destruct (Hlogged START_BEYOND) as (res & g & Hg & Hrest).
        exists res, g. split; [|exact Hrest].
        intros fs. rewrite (shift_line_shifted _ _ _ _ _ _ _ _ _ _ Hp Hc).
        rewrite Ws. apply Hg.
      * destruct (Hid (Raise e)) as (res & g & Hg & Hrest).
        exists res, g. split; [|exact Hrest].
        intros fs. rewrite (shift_line_shifted _ _ _ _ _ _ _ _ _ _ Hp Hc).
        rewrite Ws. apply Hg.
    + destruct (Hlogged MALFORMED) as (res & g & Hg & Hrest).
      exists res, g. split; [|exact Hrest].
      intros fs. rewrite (shift_line_malformed _ _ _ _ _ _ _ _ Hp Hc). apply Hg.
  - destruct (Hid (Raise e)) as (res & g & Hg & Hrest).
    exists res, g. split; [|exact Hrest].
    intros fs. rewrite (shift_line_unparsed _ _ _ _ _ _ _ _ Hp). apply Hg.
Qed.

(** The loop touches the output file and the log, nothing else. *)
Lemma shift_loop_frame (lines : list string) (p : string) :
  p <> out -> p <> log ->
  forall fs, (for_each lines shift1 fs).2 !! p = fs !! p.
Proof.
  intros Hpo Hpl. induction lines as [|line rest IH]; intros fs; [reflexivity|].
  destruct (shift_line_effect line) as (res & g & Hg & Hframe & _).
  cbn. unfold bind. rewrite Hg. destruct res as [[]|e]; cbn.
  - rewrite IH. now apply Hframe.
  - now apply Hframe.
Qed.

(** Outcome and output file of the loop depend on the files only through
    the output file it starts from. *)
Lemma shift_loop_output (lines : list string) :
  forall fsA fsB, fsA !! out = fsB !! out ->
    (for_each lines shift1 fsA).1 = (for_each lines shift1 fsB).1 /\
    (for_each lines shift1 fsA).2 !! out = (for_each lines shift1 fsB).2 !! out.
Proof.
  induction lines as [|line rest IH]; intros fsA fsB H; [now split|].
  destruct (shift_line_effect line) as (res & g & Hg & _ & Hout).
  cbn. unfold bind. rewrite !Hg. destruct res as [[]|e]; cbn.
  - apply IH. now apply Hout.
  - split; [reflexivity | now apply Hout].
Qed.
End Determinism.

Lemma shift_reads_unfold input out genome log minus plus (fs : files) :
  Shift.shift_reads input out genome log minus plus fs =
    match fs !! genome with
    | None => (Raise (IOError genome), fs)
    | Some genome_text =>
        match Shift.load_genome_sizes (readlines genome_text) ∅ with
        | Raise e => (Raise e, fs)
        | Ok gs =>
            match <[out := EmptyString]> fs !! input with
            | None => (Raise (IOError input), <[out := EmptyString]> fs)
            | Some input_text =>
                for_each (readlines input_text)
                  (Shift.shift_line out log minus plus gs) (<[out := EmptyString]> fs)
            end
        end
    end.
Proof.
  unfold Shift.shift_reads, bind, read_file, lift, open_w, modify.
  destruct (fs !! genome) as [gt|]; [|reflexivity].
  destruct (Shift.load_genome_sizes (readlines gt) ∅) as [gs|e]; [|reflexivity].
  destruct (<[out := EmptyString]> fs !! input); reflexivity.
Qed.

(** C8. Running [shift_reads] a second time on the files the first run
    left, with the same arguments, ends the same way (returns, or raises
    the same exception) and leaves the output file with the same content,
    byte for byte; the log and the output are files of their own, so the
    input file and the genome size table are the same in both runs. *)
Theorem shift_reads_twice input out genome log minus plus (fs : files) :
  log <> input -> log <> genome -> log <> out ->
  out <> input -> out <> genome ->
  let run := Shift.shift_reads input out genome log minus plus in
  (run (run fs).2).1 = (run fs).1 /\
  (run (run fs).2).2 !! out = (run fs).2 !! out.
Proof.
  intros Hli Hlg Hlo Hoi Hog run. subst run.
  rewrite (shift_reads_unfold input out genome log minus plus fs).
  destruct (fs !! genome) as [gt|] eqn:Eg.
  2:{ cbn. rewrite shift_reads_unfold, Eg. now split. }
  destruct (Shift.load_genome_sizes (readlines gt) ∅) as [gs|e] eqn:El.
  2:{ cbn. rewrite shift_reads_unfold, Eg, El. now split. }
  destruct (<[out := EmptyString]> fs !! input) as [it|] eqn:Ei.
  - set (fs1 := <[out := EmptyString]> fs) in *.
    set (fs2 := (for_each (readlines it) (Shift.shift_line out log minus plus gs) fs1).2).
    assert (Eg2 : fs2 !! genome = Some gt).
    { unfold fs2. rewrite shift_loop_frame by congruence.
      unfold fs1. rewrite lookup_insert_ne by congruence. exact Eg. }
    assert (Ei2 : <[out := EmptyString]> fs2 !! input = Some it).
    { rewrite lookup_insert_ne by congruence.
      unfold fs2. rewrite shift_loop_frame by congruence. exact Ei. }
    rewrite shift_reads_unfold, Eg2, El, Ei2.
    apply shift_loop_output; [congruence|].
    unfold fs1. now rewrite !lookup_insert_eq.
  - cbn. rewrite shift_reads_unfold.
    rewrite lookup_insert_ne by congruence. rewrite Eg, El.
    rewrite insert_insert_eq, Ei. now split.
Qed.

Lemma shift_reads_twice_witness :
  (Sample.shift_sample (Sample.shift_sample
      (Sample.disk_with (Sample.line_minus +:+ Sample.line_dot))).2).2 !! "out.bed"
  = (Sample.shift_sample
      (Sample.disk_with (Sample.line_minus +:+ Sample.line_dot))).2 !! "out.bed".
Proof.
  refine (proj2 (shift_reads_twice "in.bed" "out.bed" "genome.sizes" "shift.log"
            MINUS_STRAND_SHIFT PLUS_STRAND_SHIFT
            (Sample.disk_with (Sample.line_minus +:+ Sample.line_dot)) _ _ _ _ _));
    discriminate.
Defined.

(** ** The steric-hindrance filter *)

Lemma steric_filter_app (fetched written : list AlignedSegment) :
  steric_filter fetched written =
    written ++ List.filter FilterSpec.long_enough fetched.
Proof.
  revert written. induction fetched as [|read rest IH]; intros written; cbn.
  - now rewrite app_nil_r.
  - unfold FilterSpec.long_enough at 1.
    destruct (STERIC_HINDRANCE_CUTOFF <=? Z.abs (template_length read)).
    + rewrite IH. now rewrite <- app_assoc.
    + apply IH.
Qed.

Lemma filter_sublist {A} (f : A -> bool) (l : list A) :
  sublist (List.filter f l) l.
Proof.
  induction l as [|x l IH]; cbn; [constructor|].
  destruct (f x); now constructor.
Qed.

(** C4. The filter writes a record if and only if the absolute value of its
    fragment length is at least 38; the records written are records of the
    input, unchanged and in the order of the input.  Of records with
    fragment lengths 10, 38, -38, 37, -50 it writes those with 38, -38
    and -50, in that order. *)
Theorem steric_filter_keeps (fetched : list AlignedSegment) :
  steric_filter fetched [] = List.filter FilterSpec.long_enough fetched /\
  (forall read, In read (steric_filter fetched []) <->
     In read fetched /\ 38 <= Z.abs (template_length read)) /\
  sublist (steric_filter fetched []) fetched /\
  map template_length
    (steric_filter (map FilterSpec.read_of [10; 38; -38; 37; -50]) [])
    = [38; -38; -50].
Proof.
  pose proof (steric_filter_app fetched []) as E. cbn in E.
  split; [exact E | split; [|split]].
  - intros read. rewrite E, List.filter_In. unfold FilterSpec.long_enough.
    change STERIC_HINDRANCE_CUTOFF with 38. rewrite Z.leb_le. reflexivity.
  - rewrite E. apply filter_sublist.
  - reflexivity.
Qed.

(** ** The duplicate rate scraped from the metrics report *)

Section Scrape.
Import Metrics MetricsSpec.

Lemma scrape_line_field (line current : string) :
  line <> EmptyString ->
  scrape_line line current = Ok (default current (data_row_field line)).
Proof.
  intros Hne. destruct line as [|c rest]; [contradiction|].
  unfold scrape_line, data_row_field.
  destruct (Ascii.eqb c "#"); [reflexivity|].
  cbv zeta.
  destruct (Nat.eqb (length (split tab (strip (String c rest)))) 9) eqn:E9;
    [|reflexivity].
  unfold index.
  destruct (split tab (strip (String c rest)) !! 7%nat) as [f|] eqn:E7.
  - destruct (match_digits f); reflexivity.
  - apply Nat.eqb_eq in E9. apply lookup_ge_None in E7. lia.
Qed.

Lemma scrape_lines_last (lines : list string) :
  Forall (fun line => line <> EmptyString) lines ->
  forall current,
    scrape_lines lines current =
      Ok (default current (last (omap data_row_field lines))).
Proof.
  induction 1 as [|line rest Hne _ IH]; intros current; [reflexivity|].
  cbn [scrape_lines]. rewrite (scrape_line_field line current Hne), IH.
  f_equal. cbn [omap list_omap].
  destruct (data_row_field line) as [f|]; cbn [default]; [|reflexivity].
  rewrite last_cons. now destruct (last (omap data_row_field rest)).
Qed.

Lemma rev_app_nonempty (s t : string) :
  s <> EmptyString -> String.rev_app s t <> EmptyString.
Proof.
  revert t. induction s as [|c s IH]; intros t Hne; [contradiction|].
  cbn. destruct s as [|d s]; [discriminate | apply IH; discriminate].
Qed.

Lemma readlines_go_nonempty (s cur : string) :
  Forall (fun line => line <> EmptyString) (readlines_go cur s).
Proof.
  revert cur. induction s as [|c s IH]; intros cur; cbn [readlines_go].
  - destruct cur; constructor; [|constructor].
    unfold String.rev. apply rev_app_nonempty. discriminate.
  - destruct (Ascii.eqb c newline); [|apply IH].
    constructor; [|apply IH]. unfold String.rev. apply rev_app_nonempty. discriminate.
Qed.

(** C7 (amended). With a report that opens, the recorded value is the 8th
    field of the last row that is not a comment, has exactly 9 tab-separated
    fields once stripped, and whose 8th field starts with a digit; when no
    row is like that the value recorded before stays.  With a report that
    does not open, the placeholder is recorded.  The block is a total
    function of the report: no exception leaves it. *)
Theorem percent_duplicate_last_row (current : string) :
  (forall text,
     percent_duplicate (Some text) current =
       default current (last (omap data_row_field (readlines text)))) /\
  percent_duplicate None current = "Could not open MarkDuplicates metrics" /\
  percent_duplicate (Some two_rows) "0" = "0.20" /\
  percent_duplicate (Some EmptyString) "0" = "0".
Proof.
  split; [|split; [|split]]; try reflexivity.
  intros text. unfold percent_duplicate.
  now rewrite (scrape_lines_last _ (readlines_go_nonempty text EmptyString)).
Qed.
End Scrape.

(** C7 (as stated, refuted). On a report with two library rows, the first
    with duplication 0.10 and the second with 0.20, the value recorded is
    not the one of the first row. *)
Lemma percent_duplicate_not_first_row :
  ~ (head (omap MetricsSpec.data_row_field (readlines MetricsSpec.two_rows))
       = Some (Metrics.percent_duplicate (Some MetricsSpec.two_rows) "0")).
Proof. vm_compute. discriminate. Qed.


(** ** The stage runner *)

Section Monad.
Context {S A B : Type}.

Lemma bind_ok (m : M S A) (f : A -> M S B) (s s' : S) (a : A) :
  m s = (Ok a, s') -> bind m f s = f a s'.
Proof. intros H. unfold bind. now rewrite H. Qed.

Lemma bind_raise (m : M S A) (f : A -> M S B) (s s' : S) e :
  m s = (Raise e, s') -> bind m f s = (Raise e, s').
Proof. intros H. unfold bind. now rewrite H. Qed.
End Monad.

Lemma for_each_ok {S A} (P : S -> Prop) (l : list A) (body : A -> M S unit) :
  (forall x s, P s -> exists s', body x s = (Ok tt, s') /\ P s') ->
  forall s, P s -> exists s', for_each l body s = (Ok tt, s') /\ P s'.
Proof.
  intros Hbody. induction l as [|x l IH]; intros s Hs.
  - exists s. now split.
  - destruct (Hbody x s Hs) as (s1 & E1 & H1).
    destruct (IH s1 H1) as (s2 & E2 & H2).
    exists s2. cbn. unfold bind. rewrite E1. now split.
Qed.

Section Stage4.
Import Pipeline RunSpec.
Variables (env : environment) (cfg : config) (args : arguments).

Lemma stage4_flagstat_ok (bwa_bam : string) (st : state) :
  exists st', stage4_flagstat env cfg bwa_bam st = (Ok tt, st') /\
    staging_delete st' = staging_delete st.
Proof. eexists. split; reflexivity. Qed.

(** C6 (amended). Stage 4 either stops with IOError at the sorted-merged
    container, leaving the staging-delete list as it was, or reaches its
    end, and then it has appended to the list, in this order: the
    sorted-merged container and its index, the steric-filtered, unique and
    duplicate-removed containers, the unmapped-removed container and its
    index, and the chrM-removed container '<lib>.chrmrm.bam'.  In the sample
    world, where novosort leaves a container, the end is reached. *)
Theorem stage4_stages_chrmrm (st : state) :
  ((exists st',
      stage4 env cfg args st = (Ok tt, st') /\
      staging_delete st' = staging_delete st ++ stage4_staged args /\
      In (chrmrm_bam args) (staging_delete st')) \/
   (exists st',
      stage4 env cfg args st = (Raise (IOError (in_out args ".sortmerged.bam")), st') /\
      staging_delete st' = staging_delete st)) /\
  ((stage4 SampleRun.sample_env SampleRun.sample_config (SampleRun.sample_args 4)
      (initial (SampleRun.sample_args 4) SampleRun.sample_store)).1 = Ok tt /\
   staging_delete
     (stage4 SampleRun.sample_env SampleRun.sample_config (SampleRun.sample_args 4)
        (initial (SampleRun.sample_args 4) SampleRun.sample_store)).2 =
     ["/out/tmp"; "/out/lib.sortmerged.bam"; "/out/lib.sortmerged.bam.bai";
      "/out/lib.steric.bam"; "/out/lib.unique.bam"; "/out/lib.duprm.bam";
      "/out/lib.unmappedrm.bam"; "/out/lib.unmappedrm.bam.bai";
      "/out/lib.chrmrm.bam"]).
Proof.
  split; [|split; vm_compute; reflexivity].
  destruct (for_each_ok (fun s => staging_delete s = staging_delete st)
              (enumerate (bwa_bam_outs st))
              (fun p => stage4_flagstat env cfg p.2) ) with (s := st)
    as (st1 & E1 & H1).
  { intros x s Hs. destruct (stage4_flagstat_ok x.2 s) as (s' & E & H).
    exists s'. split; [exact E | congruence]. }
  { reflexivity. }
  unfold stage4.
  rewrite (bind_ok (gets bwa_bam_outs) _ st st _ eq_refl).
  rewrite (bind_ok _ _ st st1 tt E1).
  unfold bind, gets, run, emit, note, modify, lift. cbn -[path_join].
  match goal with
  | |- context [match ?o with Some _ => _ | None => _ end] => destruct o as [f|]
  end.
  - left. eexists. split; [reflexivity|]. cbn -[path_join].
    rewrite H1. split; [reflexivity|].
    apply in_or_app. right. unfold stage4_staged. cbn -[path_join]. tauto.
  - right. eexists. split; [reflexivity|]. cbn -[path_join]. exact H1.
Qed.
End Stage4.

(** C6 (as stated, refuted). At the end of stage 4 in the sample world the
    staging-delete list does contain '/out/lib.chrmrm.bam'. *)
Lemma chrmrm_is_staged :
  ~ ((Pipeline.stage4 SampleRun.sample_env SampleRun.sample_config
        (SampleRun.sample_args 4)
        (Pipeline.initial (SampleRun.sample_args 4) SampleRun.sample_store)).1
       = Ok tt ->
     ~ In "/out/lib.chrmrm.bam"
         (Pipeline.staging_delete
            (Pipeline.stage4 SampleRun.sample_env SampleRun.sample_config
               (SampleRun.sample_args 4)
               (Pipeline.initial (SampleRun.sample_args 4) SampleRun.sample_store)).2)).
Proof.
  intros H. apply H; [vm_compute; reflexivity|].
  vm_compute. tauto.
Qed.

(** *** What each stage adds to the trace *)

Section Tagged.
Import Pipeline RunSpec.
Variables (env : environment) (cfg : config) (args : arguments).
Variable k : nat.

Lemma tagged_same {A} (m : M state A) :
  (forall st, trace (m st).2 = trace st) -> tagged k m.
Proof.
  intros H st. exists []. rewrite H, app_nil_r. split; [reflexivity | constructor].
Qed.

Lemma tagged_ret {A} (a : A) : tagged k (ret a).
Proof. now apply tagged_same. Qed.

Lemma tagged_lift {A} (r : result A) : tagged k (lift r).
Proof. now apply tagged_same. Qed.

Lemma tagged_gets {A} (f : state -> A) : tagged k (gets f).
Proof. now apply tagged_same. Qed.

Lemma tagged_modify (f : state -> state) :
  (forall st, trace (f st) = trace st) -> tagged k (modify f).
Proof. intros H. now apply tagged_same. Qed.

Lemma tagged_note (a : action) : tagged k (note k a).
Proof.
  intros st. exists [(k, a)]. split; [reflexivity | now repeat constructor].
Qed.

Lemma tagged_bind {A B} (m : M state A) (f : A -> M state B) :
  tagged k m -> (forall a, tagged k (f a)) -> tagged k (bind m f).
Proof.
  intros Hm Hf st. destruct (Hm st) as (l1 & E1 & F1).
  unfold bind. destruct (m st) as [[a|e] st1]; cbn in *.
  - destruct (Hf a st1) as (l2 & E2 & F2).
    exists (l1 ++ l2). rewrite E2, E1, app_assoc.
    split; [reflexivity | now apply Forall_app].
  - now exists l1.
Qed.

Lemma tagged_emit (a : action) : tagged k (emit env k a).
Proof.
  apply tagged_bind; [apply tagged_note | intros _; now apply tagged_same].
Qed.

Lemma tagged_run sw l : tagged k (run env k sw l).
Proof. apply tagged_emit. Qed.

Lemma tagged_call argv : tagged k (call env k argv).
Proof. apply tagged_emit. Qed.

Lemma tagged_for_each {A} (l : list A) (body : A -> M state unit) :
  (forall x, tagged k (body x)) -> tagged k (for_each l body).
Proof.
  intros H. induction l as [|x l IH]; cbn.
  - apply tagged_ret.
  - apply tagged_bind; [apply H | intros _; exact IH].
Qed.

Lemma tagged_on_disk {A} (m : M files A) : tagged k (on_disk m).
Proof.
  apply tagged_same. intros st. unfold on_disk.
  now destruct (m (disk (world st))).
Qed.

Lemma tagged_count path : tagged k (count_gzipped_lines env k path).
Proof.
  unfold count_gzipped_lines.
  apply tagged_bind; [apply tagged_call | intros _].
  apply tagged_bind; [apply tagged_call | intros _].
  now apply tagged_same.
Qed.
End Tagged.

Create HintDb tagged.
#[local] Hint Resolve tagged_ret tagged_lift tagged_gets tagged_note tagged_emit
  tagged_run tagged_call tagged_on_disk tagged_count : tagged.

Ltac tagged_step :=
  first
    [ apply tagged_bind; [|intros ?]
    | apply tagged_for_each; intros ?
    | apply tagged_same; intros ?; reflexivity
    | solve [auto with tagged] ].

Section Stages.
Import Pipeline RunSpec.
Variables (env : environment) (cfg : config) (args : arguments).

Lemma tagged_stage1 : tagged 1 (stage1 env cfg args).
Proof.
  unfold stage1. repeat tagged_step.
  unfold stage1_pair.
  destruct (split ":" _) as [|r1 [|r2 [|]]]; repeat tagged_step.
Qed.

Lemma tagged_stage2 : tagged 2 (stage2 env cfg args).
Proof. unfold stage2, stage2_read. cbv zeta. repeat tagged_step. Qed.

Lemma tagged_stage3 : tagged 3 (stage3 env cfg args).
Proof.
  unfold stage3. repeat tagged_step.
  unfold stage3_pair.
  destruct (split ":" _) as [|r1 [|r2 [|]]]; repeat tagged_step.
Qed.

Lemma tagged_stage4 : tagged 4 (stage4 env cfg args).
Proof.
  unfold stage4, stage4_flagstat. cbv zeta. repeat tagged_step.
  match goal with |- tagged _ (match ?o with _ => _ end) => destruct o end;
    repeat tagged_step.
Qed.

Lemma tagged_stage5 : tagged 5 (stage5 env cfg args).
Proof. unfold stage5. cbv zeta. repeat tagged_step. Qed.

Lemma tagged_stage6 : tagged 6 (stage6 env cfg args).
Proof. unfold stage6. cbv zeta. repeat tagged_step. Qed.

Lemma tagged_setup : tagged 0 (setup env args).
Proof. unfold setup. repeat tagged_step. Qed.

Lemma tagged_finish : tagged 7 (finish env args).
Proof. unfold finish. cbv zeta. repeat tagged_step. Qed.
End Stages.

Section Ascends.
Import Pipeline RunSpec.
Variable Q : nat -> Prop.

Lemma ascends_ret {A} lo hi (a : A) : ascends Q lo hi (ret a).
Proof.
  intros st. exists []. rewrite app_nil_r.
  split; [reflexivity | split; constructor].
Qed.

Lemma tagged_ascends {A} k (m : M state A) :
  tagged k m -> Q k -> ascends Q k k m.
Proof.
  intros Hm Hq st. destruct (Hm st) as (l & E & F).
  exists l. split; [exact E|].
  assert (Hk : Forall (fun n => n = k) (tags l)).
  { unfold tags. rewrite Forall_fmap. exact F. }
  split.
  - eapply Forall_impl; [exact Hk|]. intros n ->. split; [lia | exact Hq].
  - clear -Hk. induction Hk as [|n t -> Ht IH]; constructor; [exact IH|].
    eapply Forall_impl; [exact Ht|]. intros ? ->. lia.
Qed.

Lemma ascends_weaken {A} lo hi lo' hi' (m : M state A) :
  ascends Q lo hi m -> (lo' <= lo)%nat -> (hi <= hi')%nat ->
  ascends Q lo' hi' m.
Proof.
  intros Hm Hlo Hhi st. destruct (Hm st) as (l & E & F & S).
  exists l. split; [exact E | split; [|exact S]].
  eapply Forall_impl; [exact F|]. intros n [? ?]. split; [lia | assumption].
Qed.

Lemma ascends_bind {A B} lo mid hi (m : M state A) (f : A -> M state B) :
  (lo <= mid <= hi)%nat ->
  ascends Q lo mid m -> (forall a, ascends Q mid hi (f a)) ->
  ascends Q lo hi (bind m f).
Proof.
  intros Hb Hm Hf st. destruct (Hm st) as (l1 & E1 & F1 & S1).
  unfold bind. destruct (m st) as [[a|e] st1]; cbn in *.
  - destruct (Hf a st1) as (l2 & E2 & F2 & S2).
    exists (l1 ++ l2). rewrite E2, E1, app_assoc.
    split; [reflexivity|]. unfold tags in *. rewrite fmap_app. split.
    + apply Forall_app. split.
      * eapply Forall_impl; [exact F1|]. intros n [? ?]. split; [lia | assumption].
      * eapply Forall_impl; [exact F2|]. intros n [? ?]. split; [lia | assumption].
    + apply StronglySorted_app_2; [|assumption|assumption].
      intros x1 x2 H1 H2.
      rewrite Forall_forall in F1, F2.
      destruct (F1 x1 H1) as [? _]. destruct (F2 x2 H2) as [? _]. lia.
  - exists l1. split; [exact E1 | split; [|exact S1]].
    eapply Forall_impl; [exact F1|]. intros n [? ?]. split; [lia | assumption].
Qed.

Lemma ascends_when k (b : bool) (m : M state unit) :
  tagged k m -> (b = true -> Q k) -> ascends Q k k (when b m).
Proof.
  intros Hm Hq. destruct b; cbn.
  - apply tagged_ascends; auto.
  - apply ascends_ret.
Qed.
End Ascends.

Section Runner.
Import Pipeline RunSpec.
Variables (env : environment) (cfg : config) (args : arguments).

Lemma run_pipeline_ascends :
  ascends (allowed (step args)) 0 7 (run_pipeline env cfg args).
Proof.
  assert (Hq : forall n, (1 <= n <= 6)%nat ->
            (step args <=? Z.of_nat n) = true -> allowed (step args) n).
  { intros n Hn Hle. right. right. split; [exact Hn | now apply Z.leb_le]. }
  unfold run_pipeline. cbv zeta.
  apply (ascends_bind _ 0 0 7); [lia | |intros _].
  { apply tagged_ascends; [apply tagged_setup | now left]. }
  apply (ascends_bind _ 0 1 7); [lia | |intros _].
  { apply (ascends_weaken _ 1 1); [|lia|lia].
    apply ascends_when; [apply tagged_stage1 | apply (Hq 1%nat); lia]. }
  apply (ascends_bind _ 1 2 7); [lia | |intros _].
  { apply (ascends_weaken _ 2 2); [|lia|lia].
    apply ascends_when; [apply tagged_stage2 | apply (Hq 2%nat); lia]. }
  apply (ascends_bind _ 2 3 7); [lia | |intros _].
  { apply (ascends_weaken _ 3 3); [|lia|lia].
    apply ascends_when; [apply tagged_stage3 | apply (Hq 3%nat); lia]. }
  apply (ascends_bind _ 3 4 7); [lia | |intros _].
  { apply (ascends_weaken _ 4 4); [|lia|lia].
    apply ascends_when; [apply tagged_stage4 | apply (Hq 4%nat); lia]. }
  apply (ascends_bind _ 4 5 7); [lia | |intros _].
  { apply (ascends_weaken _ 5 5); [|lia|lia].
    apply ascends_when; [apply tagged_stage5 | apply (Hq 5%nat); lia]. }
  apply (ascends_bind _ 5 6 7); [lia | |intros _].
  { apply (ascends_weaken _ 6 6); [|lia|lia].
    apply ascends_when; [apply tagged_stage6 | apply (Hq 6%nat); lia]. }
  apply (ascends_weaken _ 7 7); [|lia|lia].
  apply tagged_ascends; [apply tagged_finish | right; now left].
Qed.

Lemma bind_ext {S A B} (m : M S A) (f g : A -> M S B) (s : S) :
  (forall a s', f a s' = g a s') -> bind m f s = bind m g s.
Proof. intros H. unfold bind. destruct (m s) as [[a|e] s']; [apply H | reflexivity]. Qed.

Lemma for_each_then {S A} (l : list A) (body : A -> M S unit) (k : M S unit) (s : S) :
  bind (for_each l body) (fun _ => k) s =
    fold_right (fun x acc => bind (body x) (fun _ => acc)) k l s.
Proof.
  revert s. induction l as [|x l IH]; intros s; [reflexivity|].
  cbn. unfold bind at 1 2 3. destruct (body x s) as [[[]|e] s']; [|reflexivity].
  apply IH.
Qed.

Lemma selected_cases (step : Z) :
  selected step =
    (if step <=? 1 then [1%nat] else []) ++ (if step <=? 2 then [2%nat] else []) ++
    (if step <=? 3 then [3%nat] else []) ++ (if step <=? 4 then [4%nat] else []) ++
    (if step <=? 5 then [5%nat] else []) ++ (if step <=? 6 then [6%nat] else []).
Proof.
  unfold selected. cbn [seq List.filter].
  change (Z.of_nat 1) with 1. change (Z.of_nat 2) with 2.
  change (Z.of_nat 3) with 3. change (Z.of_nat 4) with 4.
  change (Z.of_nat 5) with 5. change (Z.of_nat 6) with 6.
  destruct (step <=? 1), (step <=? 2), (step <=? 3),
    (step <=? 4), (step <=? 5), (step <=? 6); reflexivity.
Qed.

Lemma gated_sequence {S} (b1 b2 b3 b4 b5 b6 : bool) (body : nat -> M S unit)
    (k : M S unit) (s : S) :
  (when b1 (body 1%nat) ;;; when b2 (body 2%nat) ;;; when b3 (body 3%nat) ;;;
   when b4 (body 4%nat) ;;; when b5 (body 5%nat) ;;; when b6 (body 6%nat) ;;; k) s =
  fold_right (fun x acc => bind (body x) (fun _ => acc)) k
    ((if b1 then [1%nat] else []) ++ (if b2 then [2%nat] else []) ++
     (if b3 then [3%nat] else []) ++ (if b4 then [4%nat] else []) ++
     (if b5 then [5%nat] else []) ++ (if b6 then [6%nat] else [])) s.
Proof. destruct b1, b2, b3, b4, b5, b6; reflexivity. Qed.

Lemma run_pipeline_selected (st : state) :
  run_pipeline env cfg args st =
    (setup env args ;;;
     for_each (selected (step args)) (stage env cfg args) ;;;
     finish env args) st.
Proof.
  unfold run_pipeline. cbv zeta. apply bind_ext. intros _ s.
  rewrite for_each_then, selected_cases.
  exact (gated_sequence _ _ _ _ _ _ (stage env cfg args) (finish env args) s).
Qed.
End Runner.

(** *** Telling the output paths of stages 1 to 4 by their endings *)

Section Endings.
Import Pipeline RunSpec.

Lemma ends_refl (s : string) : ends s s.
Proof. now exists EmptyString. Qed.

Lemma ends_app_r (a x y : string) : ends a y -> ends a (x +:+ y).
Proof. intros [p ->]. exists (x +:+ p). now rewrite append_assoc. Qed.

Lemma ends_path_join (a d b : string) : ends a b -> ends a (path_join d b).
Proof.
  intros H. unfold path_join.
  destruct (starts_with_slash b); [exact H|].
  destruct (_ || _)%bool; repeat apply ends_app_r; exact H.
Qed.

Lemma ends_weak_total (a b w : string) :
  ends a w -> ends b w -> ends a b \/ ends b a.
Proof.
  intros [p ->] [q E]. revert q E.
  induction p as [|c p IH]; intros q E.
  - right. exists q. exact E.
  - destruct q as [|d q].
    + left. exists (String c p). symmetry. exact E.
    + rewrite !append_cons in E. injection E as _ E. now apply (IH q).
Qed.

Lemma suffixb_complete (a b : string) : ends a b -> suffixb a b = true.
Proof.
  intros [p ->]. induction p as [|c p IH].
  - change (EmptyString +:+ a) with a.
    destruct a; cbn [suffixb]; now rewrite String.eqb_refl.
  - rewrite append_cons. cbn [suffixb]. rewrite IH. apply orb_true_r.
Qed.

(** An ending that is apart from the endings of stages 1 to 4 is the
    ending of none of their outputs. *)
Lemma apart_ends (a b w : string) :
  apart a = true -> In b stage14_endings -> ends a w -> ends b w -> False.
Proof.
  intros Ha Hb Haw Hbw. unfold apart in Ha.
  rewrite forallb_forall in Ha. specialize (Ha b Hb).
  apply andb_prop in Ha as [H1 H2].
  destruct (ends_weak_total a b w Haw Hbw) as [H | H];
    apply suffixb_complete in H; [rewrite H in H1 | rewrite H in H2]; discriminate.
Qed.

(** The decimal numeral of a natural number ends with a digit. *)
Lemma uint_ends_digit (u : Decimal.uint) :
  u <> Decimal.Nil ->
  exists p d, NilEmpty.string_of_uint u = p +:+ String d EmptyString /\
              In d ["0"; "1"; "2"; "3"; "4"; "5"; "6"; "7"; "8"; "9"]%char.
Proof.
  induction u as [|u IH|u IH|u IH|u IH|u IH|u IH|u IH|u IH|u IH|u IH];
    intros Hn; [contradiction|..];
    (destruct (Decimal.uint_eq_dec u Decimal.Nil) as [->|Hu];
     [ exists EmptyString; eexists; split; [reflexivity | cbn; tauto]
     | destruct (IH Hu) as (p & d & E & Hd);
       eexists (String _ p), d; split; [cbn; rewrite E; reflexivity | exact Hd] ]).
Qed.

Lemma str_nat_ends_digit (i : nat) :
  exists p d, str (Z.of_nat i) = p +:+ String d EmptyString /\
              In d ["0"; "1"; "2"; "3"; "4"; "5"; "6"; "7"; "8"; "9"]%char.
Proof.
  unfold str. destruct (Z.of_nat i) as [|q|q] eqn:E; [| |lia].
  - exists EmptyString, "0"%char. split; [reflexivity | cbn; tauto].
  - cbn. unfold NilZero.string_of_uint.
    destruct (Pos.to_uint q) eqn:Eq;
      try (apply uint_ends_digit; discriminate).
    exists EmptyString, "0"%char. split; [reflexivity | cbn; tauto].
Qed.
End Endings.

Ltac solve_ends :=
  repeat first [apply ends_path_join | apply ends_app_r]; apply ends_refl.

Ltac ending_found :=
  eexists; split; cycle 1; [solve_ends | cbn; tauto].

Section Stage14.
Import Pipeline RunSpec.
Variable args : arguments.

Lemma stage14_output_ending (n : nat) (x : string) :
  In x (stage14_outputs args n) ->
  exists b, In b stage14_endings /\ ends b x.
Proof.
  unfold stage14_outputs. rewrite in_app_iff, in_flat_map.
  intros [(i & _ & Hi) | Hx].
  - unfold pair_outputs in Hi. cbn [In] in Hi.
    destruct Hi as [<- | [<- | [<- | [<- | [<- | [<- | []]]]]]];
      unfold trimmed; try ending_found.
    + unfold bwa_bam.
      destruct (str_nat_ends_digit i) as (p & d & -> & Hd).
      exists (String d ".bam"). split.
      * cbn in Hd. unfold stage14_endings. cbn.
        repeat (destruct Hd as [<- | Hd]; [tauto|]). contradiction.
      * apply ends_path_join. do 2 apply ends_app_r.
        exists p. now rewrite append_assoc.
  - cbn [In] in Hx. unfold chrmrm_bam, in_out in Hx.
    repeat (destruct Hx as [<- | Hx]; [ending_found|]). contradiction.
Qed.

Lemma not_stage14_output (a x : string) (n : nat) :
  ends a x -> apart a = true -> ~ In x (stage14_outputs args n).
Proof.
  intros Ha Hap Hin.
  destruct (stage14_output_ending n x Hin) as (b & Hb & Hbx).
  exact (apart_ends a b x Hap Hb Ha Hbx).
Qed.
End Stage14.

(** *** A run from a given step *)

Ltac word_ok Hin :=
  first
    [ left; reflexivity
    | right; left; reflexivity
    | right; right; left; reflexivity
    | right; right; right; reflexivity
    | exfalso; eapply not_stage14_output;
        [ | | exact Hin]; [solve_ends | vm_compute; reflexivity] ].

Ltac words_ok :=
  let x := fresh "x" in
  let Hx := fresh "Hx" in
  let Hin := fresh "Hin" in
  intros x Hx Hin; cbn -[path_join] in Hx;
  repeat (destruct Hx as [<- | Hx]; [word_ok Hin|]);
  contradiction.

Ltac from_step_5 H5 :=
  unfold Pipeline.run_pipeline; cbv zeta; rewrite H5;
  change (5 <=? 1) with false; change (5 <=? 2) with false;
  change (5 <=? 3) with false; change (5 <=? 4) with false;
  change (5 <=? 5) with true; change (5 <=? 6) with true;
  cbn [when];
  unfold Pipeline.setup, Pipeline.stage5, Pipeline.stage6, Pipeline.finish,
    Pipeline.call, Pipeline.run, Pipeline.emit, Pipeline.note, modify,
    Pipeline.gets, Pipeline.on_disk, bind, ret, Pipeline.initial;
  cbn -[path_join Shift.shift_reads];
  destruct (Shift.shift_reads _ _ _ _ _ _ _) as [[[]|?] ?];
  cbn -[path_join]; unfold Pipeline.tmp_dir, Pipeline.logs_dir.

Section FromStep.
Import Pipeline RunSpec.
Variables (env : environment) (cfg : config) (args : arguments).

Lemma selected_spec (s : Z) (n : nat) :
  In n (selected s) <-> (1 <= n <= 6)%nat /\ s <= Z.of_nat n.
Proof.
  unfold selected. rewrite List.filter_In, in_seq, Z.leb_le. lia.
Qed.

Lemma selected_sorted (s : Z) : StronglySorted le (selected s).
Proof.
  rewrite selected_cases.
  destruct (s <=? 1), (s <=? 2), (s <=? 3), (s <=? 4), (s <=? 5), (s <=? 6);
    cbn [app]; repeat constructor; lia.
Qed.

Lemma run5_words (w : store) (n : nat) :
  step args = 5 ->
  Forall (fun e => forall x, In x (words e.2) -> In x (stage14_outputs args n) ->
            x = chrmrm_bam args \/ x = blacklist_bed cfg \/
            x = genome_sizes cfg \/ x = output_dir args)
    (trace (run_pipeline env cfg args (initial args w)).2).
Proof.
  intros H5. from_step_5 H5.
  - repeat (apply List.Forall_cons; [cbn [snd]; words_ok|]). apply List.Forall_nil.
  - repeat (apply List.Forall_cons; [cbn [snd]; words_ok|]). apply List.Forall_nil.
Qed.

Lemma run5_prefix (w : store) :
  step args = 5 ->
  exists rest,
    trace (run_pipeline env cfg args (initial args w)).2 =
      [ (0%nat, Call ["mkdir"; "-p"; output_dir args; tmp_dir args; logs_dir args]);
        (5%nat, Run (bedtools_intersect cfg)
                  [ Param ["-v"];
                    Param ["-abam"; chrmrm_bam args];
                    Param ["-b"; blacklist_bed cfg];
                    Param ["-f"; "0.5"];
                    Redir STDOUT (in_out args ".processed.bam") ]);
        (5%nat, Run (picard_insert_metrics cfg)
                  [ Param ["INPUT=" +:+ in_out args ".processed.bam"];
                    Param ["OUTPUT=" +:+
                           path_join (logs_dir args)
                             (lib_prefix args +:+ ".insertsize.metrics")];
                    Param ["HISTOGRAM_FILE=" +:+
                           path_join (logs_dir args)
                             (lib_prefix args +:+ ".insertsize.pdf")] ]);
        (5%nat, Run (samtools_index cfg) [ Param [in_out args ".processed.bam"] ]);
        (5%nat, Run (bedtools_bamtobed cfg)
                  [ Param ["-i"; in_out args ".processed.bam"];
                    Redir STDOUT (in_out args ".unshifted.bed") ]);
        (5%nat, ShiftReads (in_out args ".unshifted.bed")
                  (in_out args ".processed.bed")
                  (genome_sizes cfg)
                  (path_join (logs_dir args) "shift_reads.logs")) ] ++ rest.
Proof.
  intros H5. from_step_5 H5; eexists; reflexivity.
Qed.

End FromStep.


(** * Further properties of the code *)

(** ** The shifter as a map over the lines *)

Section Content.
Import Account.
Variables (p q text : string) (fs : files).

Lemma content_append_same :
  content (file_append p text fs) p = content fs p +:+ text.
Proof. unfold content. now rewrite file_append_same. Qed.

Lemma content_append_other :
  p <> q -> content (file_append p text fs) q = content fs q.
Proof. intros H. unfold content. now rewrite file_append_other. Qed.
End Content.

Section Accounting.
Import Shift ShiftSpec ShiftFacts Account.
Variables (out log : string) (minus plus : Z) (gs : gmap string Z).
Hypothesis out_log : out <> log.

Local Abbreviation shift1 := (shift_line out log minus plus gs).

Lemma shift_line_classify (line : string) (fs : files) :
  shift1 line fs =
    match classify minus plus gs line with
    | Raise e => (Raise e, fs)
    | Ok (Emitted text) => (Ok tt, file_append out text fs)
    | Ok (Logged msg) => (Ok tt, logged log msg line fs)
    end.
Proof.
  unfold classify. destruct (parse_line line) as [r|e] eqn:Hp.
  - destruct (new_coords minus plus (strand r) (start r) (end_ r))
      as [[ns ne]|] eqn:Hc.
    + rewrite (shift_line_shifted _ _ _ _ _ _ _ _ _ _ Hp Hc).
      destruct (within_genome_boundry (chrom r) ns gs) as [[|]|e]; try reflexivity.
      destruct (within_genome_boundry (chrom r) ne gs) as [[|]|e]; reflexivity.
    + now rewrite (shift_line_malformed _ _ _ _ _ _ _ _ Hp Hc).
  - now rewrite (shift_line_unparsed _ _ _ _ _ _ _ _ Hp).
Qed.

Lemma content_logged_log msg line (fs : files) :
  content (logged log msg line fs) log =
    content fs log +:+ ((msg +:+ NL) +:+ (strip line +:+ NL)).
Proof.
  unfold logged. rewrite !content_append_same. now rewrite append_assoc.
Qed.

Lemma content_logged_other msg line (fs : files) p :
  log <> p -> content (logged log msg line fs) p = content fs p.
Proof.
  intros H. unfold logged. now rewrite !content_append_other.
Qed.

(** The loop of [shift_reads] writes, in the order of the lines, each
    record it emits to the output file and each message with its line to
    the log, and stops at the first line that raises. *)
Lemma shift_loop_account (lines : list string) (fs : files) :
  let '(os, err) := classify_all minus plus gs lines in
  let '(res, fs') := for_each lines shift1 fs in
  res = match err with None => Ok tt | Some e => Raise e end /\
  content fs' out = content fs out +:+ concat_text (map output_text os) /\
  content fs' log = content fs log +:+ concat_text (map log_text os) /\
  map fst os = take (length os) lines /\
  (err = None -> length os = length lines).
Proof.
  revert fs. induction lines as [|line rest IH]; intros fs.
  - cbn. rewrite !append_nil_r. repeat split.
  - cbn [classify_all for_each]. unfold bind. rewrite shift_line_classify.
    destruct (classify minus plus gs line) as [[text|msg]|e].
    + specialize (IH (file_append out text fs)).
      destruct (classify_all minus plus gs rest) as [os err].
      destruct (for_each rest shift1 (file_append out text fs)) as [res fs'].
      destruct IH as (Hr & Ho & Hl & Hf & Hn).
      rewrite Ho, Hl, content_append_same, content_append_other by assumption.
      cbn. unfold output_text at 1, log_text at 1. cbn.
      rewrite append_assoc. rewrite Hf.
      repeat split; auto.
    + specialize (IH (logged log msg line fs)).
      destruct (classify_all minus plus gs rest) as [os err].
      destruct (for_each rest shift1 (logged log msg line fs)) as [res fs'].
      destruct IH as (Hr & Ho & Hl & Hf & Hn).
      rewrite Ho, Hl, content_logged_log, content_logged_other by congruence.
      cbn. unfold output_text at 1, log_text at 1. cbn.
      rewrite !append_assoc. rewrite Hf.
      repeat split; auto.
    + cbn. rewrite !append_nil_r. repeat split. discriminate.
Qed.
Lemma file_append_keeps (q text p : string) (fs : files) :
  is_Some (fs !! p) -> is_Some (file_append q text fs !! p).
Proof.
  intros H. unfold file_append.
  destruct (decide (q = p)) as [->|Hne];
    [rewrite lookup_insert_eq; eauto | now rewrite lookup_insert_ne].
Qed.

Lemma shift_loop_keeps (lines : list string) (p : string) :
  forall fs, is_Some (fs !! p) -> is_Some ((for_each lines shift1 fs).2 !! p).
Proof.
  induction lines as [|line rest IH]; intros fs H; [exact H|].
  cbn [for_each]. unfold bind. rewrite shift_line_classify.
  destruct (classify minus plus gs line) as [[text|msg]|e]; [| |exact H].
  - apply IH. now apply file_append_keeps.
  - apply IH. unfold logged. now do 2 apply file_append_keeps.
Qed.
End Accounting.

(** ** Loading the genome size table *)

Section Genome.
Import Shift GenomeSpec.

Lemma genome_sizes_line_entry (line : string) (gs : gmap string Z) :
  genome_sizes_line line gs =
    match entry line with
    | Some (chrom, n) => Ok (<[chrom := n]> gs)
    | None => Raise ValueError
    end.
Proof.
  unfold genome_sizes_line, entry.
  destruct (split tab (strip line)) as [|c [|f [|x l]]]; try reflexivity.
  unfold int. destruct (int_literal f); reflexivity.
Qed.

Lemma load_genome_sizes_snoc (lines : list string) (line : string) (gs : gmap string Z) :
  load_genome_sizes (lines ++ [line]) gs =
    match load_genome_sizes lines gs with
    | Ok gs' => genome_sizes_line line gs'
    | Raise e => Raise e
    end.
Proof.
  revert gs. induction lines as [|l lines IH]; intros gs; cbn.
  - now destruct (genome_sizes_line line gs).
  - destruct (genome_sizes_line l gs); [apply IH | reflexivity].
Qed.

(** The table loads exactly when every line is a chromosome and an
    integer; otherwise the exception is ValueError, whatever the line. *)
Lemma load_genome_sizes_result (lines : list string) (gs : gmap string Z) :
  (Forall (fun l => is_Some (entry l)) lines ->
     exists gs', load_genome_sizes lines gs = Ok gs') /\
  (Exists (fun l => entry l = None) lines ->
     load_genome_sizes lines gs = Raise ValueError).
Proof.
  revert gs. induction lines as [|l lines IH]; intros gs.
  - split; [eauto | intros H; inversion H].
  - cbn. rewrite genome_sizes_line_entry. split.
    + intros H. inversion H as [|? ? [[c n] Hl] Hr]; subst.
      rewrite Hl. now apply IH.
    + intros H. destruct (entry l) as [[c n]|] eqn:El; [|reflexivity].
      inversion H as [? ? Hl|? ? Hr]; subst; [congruence|]. now apply IH.
Qed.

(** X5. When the genome size file loads, the table binds a chromosome to
    a length exactly when some line of the file gives that chromosome and
    that length and no later line gives the chromosome again: of two lines
    for one chromosome the later one is the one kept. *)
Theorem genome_table_last_wins (lines : list string) (gs : gmap string Z) :
  load_genome_sizes lines ∅ = Ok gs ->
  forall chrom n,
    gs !! chrom = Some n <->
    exists before line after,
      lines = before ++ line :: after /\
      entry line = Some (chrom, n) /\
      Forall (fun l => forall m, entry l <> Some (chrom, m)) after.
Proof.
  revert gs. induction lines as [|line lines IH] using rev_ind; intros gs.
  - intros [= <-] chrom n. rewrite lookup_empty. split; [discriminate|].
    intros (b & l & a & E & _). now destruct b.
  - rewrite load_genome_sizes_snoc.
    destruct (load_genome_sizes lines ∅) as [gs'|e] eqn:El; [|discriminate].
    rewrite genome_sizes_line_entry.
    destruct (entry line) as [[c m]|] eqn:Ee; [|discriminate].
    intros [= <-] chrom n. specialize (IH gs' eq_refl chrom n).
    destruct (decide (c = chrom)) as [->|Hne].
    + rewrite lookup_insert_eq. split.
      * intros [= ->]. exists lines, line, []. repeat split; auto.
      * intros (b & l & a & E & Hl & Ha).
        destruct a as [|x a _] using rev_ind.
        -- apply app_inj_tail in E as [_ <-]. congruence.
        -- rewrite app_comm_cons, app_assoc in E.
           apply app_inj_tail in E as [_ <-].
           apply Forall_app in Ha as [_ Hx]. inversion Hx as [|? ? Hx' _]; subst.
           exfalso. now apply (Hx' m).
    + rewrite lookup_insert_ne by assumption. rewrite IH. split.
      * intros (b & l & a & -> & Hl & Ha).
        exists b, l, (a ++ [line]). rewrite <- app_assoc. repeat split; auto.
        apply Forall_app. split; [assumption|]. constructor; [|constructor].
        intros k. rewrite Ee. congruence.
      * intros (b & l & a & E & Hl & Ha).
        destruct a as [|x a _] using rev_ind.
        -- apply app_inj_tail in E as [_ <-]. congruence.
        -- rewrite app_comm_cons, app_assoc in E.
           apply app_inj_tail in E as [-> <-].
           apply Forall_app in Ha as [Ha _]. eauto 10.
Qed.
End Genome.

(** ** Effects of [shift_reads] on the files *)

Section Effects.
Import Shift ShiftSpec Account GenomeSpec.
Variables (input out genome log : string) (minus plus : Z).
Hypothesis out_log : out <> log.

Local Abbreviation run := (shift_reads input out genome log minus plus).

(** X2. [shift_reads], given an output file and a log that are two files,
    touches no file but these: every other path holds after the call what
    it held before, whether the call returns or raises. *)
Theorem shift_reads_frame (fs : files) (p : string) :
  p <> out -> p <> log -> (run fs).2 !! p = fs !! p.
Proof.
  intros Hpo Hpl. rewrite shift_reads_unfold.
  destruct (fs !! genome) as [gt|]; [|reflexivity].
  destruct (load_genome_sizes (readlines gt) ∅) as [gs|e]; [|reflexivity].
  destruct (<[out := EmptyString]> fs !! input) as [it|]; cbn.
  - rewrite shift_loop_frame by assumption. now apply lookup_insert_ne.
  - now apply lookup_insert_ne.
Qed.

(** X3. When the log is a file other than the output file, [shift_reads]
    only appends to it: what the log held before the call is a prefix of
    what it holds after, whether the call returns or raises.  (The log is
    opened in append mode at each message; the output file is opened in
    write mode, which is why the two must differ.) *)
Theorem shift_reads_log_grows (fs : files) :
  exists added, content (run fs).2 log = content fs log +:+ added.
Proof.
  rewrite shift_reads_unfold.
  destruct (fs !! genome) as [gt|];
    [|exists EmptyString; now rewrite append_nil_r].
  destruct (load_genome_sizes (readlines gt) ∅) as [gs|e];
    [|exists EmptyString; now rewrite append_nil_r].
  assert (Ht : content (<[out := EmptyString]> fs) log = content fs log).
  { unfold content. now rewrite lookup_insert_ne. }
  destruct (<[out := EmptyString]> fs !! input) as [it|]; cbn.
  - pose proof (shift_loop_account out log minus plus gs out_log (readlines it)
                  (<[out := EmptyString]> fs)) as H.
    destruct (classify_all minus plus gs (readlines it)) as [os err].
    destruct (for_each _ _ _) as [res fs'].
    destruct H as (_ & _ & Hl & _). cbn. rewrite Hl, Ht. eauto.
  - exists EmptyString. now rewrite append_nil_r.
Qed.

(** X4. The genome size file is read before anything is written.  When it
    cannot be opened [shift_reads] raises IOError, and when one of its
    lines is not a chromosome, a tab and an integer it raises ValueError;
    in both cases no file is changed, the output file is not even created.
    When the table loads and the input file cannot be opened, IOError is
    raised after the output file has been created empty. *)
Theorem shift_reads_bad_genome (fs : files) :
  (fs !! genome = None -> run fs = (Raise (IOError genome), fs)) /\
  (forall text,
     fs !! genome = Some text ->
     Exists (fun l => entry l = None) (readlines text) ->
     run fs = (Raise ValueError, fs)) /\
  (forall text,
     fs !! genome = Some text ->
     Forall (fun l => is_Some (entry l)) (readlines text) ->
     <[out := EmptyString]> fs !! input = None ->
     run fs = (Raise (IOError input), <[out := EmptyString]> fs)).
Proof.
  split; [|split].
  - intros H. now rewrite shift_reads_unfold, H.
  - intros text H Hbad. rewrite shift_reads_unfold, H.
    now rewrite (proj2 (load_genome_sizes_result (readlines text) ∅) Hbad).
  - intros text H Hok Hin. rewrite shift_reads_unfold, H.
    destruct (proj1 (load_genome_sizes_result (readlines text) ∅) Hok) as (gs & ->).
    now rewrite Hin.
Qed.

(** X1. With a genome size table that loads and an input file that opens,
    and a log that is neither the output nor the input file, [shift_reads]
    handles the lines of the input in order up to the first one that
    raises: the output file ends up holding exactly the shifted records of
    the lines emitted, in input order, whatever it held before; the log
    gains exactly the messages, each followed by its stripped line, of the
    lines rejected, in input order; and the call returns when no line
    raises, and raises the exception of the first line that does. *)
Theorem shift_reads_account (fs : files) (genome_text input_text : string)
    (gs : gmap string Z) :
  log <> input ->
  fs !! genome = Some genome_text ->
  load_genome_sizes (readlines genome_text) ∅ = Ok gs ->
  <[out := EmptyString]> fs !! input = Some input_text ->
  let '(os, err) := classify_all minus plus gs (readlines input_text) in
  (run fs).1 = match err with None => Ok tt | Some e => Raise e end /\
  (run fs).2 !! out = Some (concat_text (map output_text os)) /\
  content (run fs).2 log = content fs log +:+ concat_text (map log_text os) /\
  map fst os = take (length os) (readlines input_text) /\
  (err = None -> length os = length (readlines input_text)).
Proof.
  intros _ Hg Hl Hi. rewrite shift_reads_unfold, Hg, Hl, Hi.
  pose proof (shift_loop_account out log minus plus gs out_log (readlines input_text)
                (<[out := EmptyString]> fs)) as H.
  destruct (classify_all minus plus gs (readlines input_text)) as [os err].
  destruct (for_each _ _ _) as [res fs'] eqn:E.
  destruct H as (Hr & Ho & Hlog & Hf & Hn). cbn.
  split; [exact Hr|]. split; [|split; [|split; assumption]].
  - unfold content in Ho. rewrite lookup_insert_eq in Ho. cbn in Ho.
    destruct (fs' !! out) as [c|] eqn:Ec; cbn in Ho; [now rewrite Ho|].
    exfalso.
    assert (Hs : is_Some (fs' !! out)); [|rewrite Ec in Hs; now destruct Hs].
    change fs' with (res, fs').2. rewrite <- E.
    apply shift_loop_keeps.
    rewrite lookup_insert_eq. eauto.
  - rewrite Hlog. unfold content. now rewrite lookup_insert_ne.
Qed.
End Effects.

(** ** The staging-delete list and the end of a run *)

Section Appends.
Import Pipeline Growth.
Context {X : Type} (proj : state -> list X).

Lemma appends_same {A} (m : M state A) :
  (forall st, proj (m st).2 = proj st) -> appends proj m.
Proof. intros H st. exists []. now rewrite H, app_nil_r. Qed.

Lemma appends_bind {A B} (m : M state A) (f : A -> M state B) :
  appends proj m -> (forall a, appends proj (f a)) -> appends proj (bind m f).
Proof.
  intros Hm Hf st. destruct (Hm st) as (l1 & E1).
  unfold bind. destruct (m st) as [[a|e] st1]; cbn in *.
  - destruct (Hf a st1) as (l2 & E2). exists (l1 ++ l2).
    now rewrite E2, E1, app_assoc.
  - now exists l1.
Qed.

Lemma appends_for_each {A} (l : list A) (body : A -> M state unit) :
  (forall x, appends proj (body x)) -> appends proj (for_each l body).
Proof.
  intros H. induction l as [|x l IH]; cbn.
  - now apply appends_same.
  - apply appends_bind; [apply H | intros _; exact IH].
Qed.

Lemma appends_when (b : bool) (m : M state unit) :
  appends proj m -> appends proj (when b m).
Proof. intros H. destruct b; [exact H | now apply appends_same]. Qed.
End Appends.

Section Staging.
Import Pipeline Growth RunSpec.
Variables (env : environment) (cfg : config) (args : arguments).

Lemma appends_push (x : list string) :
  appends staging_delete (modify (set_staging_delete (fun l => l ++ x))).
Proof. intros st. now exists x. Qed.

Lemma appends_on_disk {A} (m : M files A) : appends staging_delete (on_disk m).
Proof.
  apply appends_same. intros st. unfold on_disk.
  now destruct (m (disk (world st))).
Qed.

Ltac staged_step :=
  first
    [ apply appends_bind; [|intros ?]
    | apply appends_for_each; intros ?
    | apply appends_push
    | apply appends_on_disk
    | apply appends_same; intros ?; reflexivity ].

Lemma staging_stage1 : appends staging_delete (stage1 env cfg args).
Proof.
  unfold stage1. repeat staged_step. unfold stage1_pair.
  destruct (split ":" _) as [|r1 [|r2 [|]]]; repeat staged_step.
Qed.

Lemma staging_stage2 : appends staging_delete (stage2 env cfg args).
Proof. unfold stage2, stage2_read. cbv zeta. repeat staged_step. Qed.

Lemma staging_stage3 : appends staging_delete (stage3 env cfg args).
Proof.
  unfold stage3. repeat staged_step. unfold stage3_pair.
  destruct (split ":" _) as [|r1 [|r2 [|]]]; repeat staged_step.
Qed.

Lemma staging_stage4 : appends staging_delete (stage4 env cfg args).
Proof.
  unfold stage4, stage4_flagstat. cbv zeta. repeat staged_step.
  match goal with |- appends _ (match ?o with _ => _ end) => destruct o end;
    repeat staged_step.
Qed.

Lemma staging_stage5 : appends staging_delete (stage5 env cfg args).
Proof. unfold stage5. cbv zeta. repeat staged_step. Qed.

Lemma staging_stage6 : appends staging_delete (stage6 env cfg args).
Proof. unfold stage6. cbv zeta. repeat staged_step. Qed.

Lemma staging_stage (n : nat) : appends staging_delete (stage env cfg args n).
Proof.
  destruct n as [|[|[|[|[|[|[|n]]]]]]]; cbn [stage];
    auto using staging_stage1, staging_stage2, staging_stage3, staging_stage4,
      staging_stage5, staging_stage6;
    now apply appends_same.
Qed.

Lemma stage_tags (n : nat) :
  (1 <= n <= 6)%nat -> tagged n (stage env cfg args n).
Proof.
  intros Hn.
  destruct n as [|[|[|[|[|[|[|n]]]]]]]; try (exfalso; lia); cbn [stage];
    auto using tagged_stage1, tagged_stage2, tagged_stage3, tagged_stage4,
      tagged_stage5, tagged_stage6.
Qed.

Lemma stages_tags (l : list nat) :
  Forall (fun n => (1 <= n <= 6)%nat) l ->
  forall st, exists t,
    trace (for_each l (stage env cfg args) st).2 = trace st ++ t /\
    Forall (fun n => (n <= 6)%nat) (tags t).
Proof.
  induction 1 as [|n l Hn _ IH]; intros st.
  - exists []. rewrite app_nil_r. split; [reflexivity | constructor].
  - cbn [for_each]. unfold bind.
    destruct (stage_tags n Hn st) as (t1 & E1 & F1).
    assert (F1' : Forall (fun k => (k <= 6)%nat) (tags t1)).
    { unfold tags. rewrite Forall_fmap. eapply Forall_impl; [exact F1|].
      intros [k a] He. unfold compose. cbn [fst] in *. lia. }
    destruct (stage env cfg args n st) as [[[]|e] st1]; cbn in *.
    + destruct (IH st1) as (t2 & E2 & F2). exists (t1 ++ t2).
      rewrite E2, E1, app_assoc. split; [reflexivity|].
      unfold tags in *. rewrite fmap_app. now apply Forall_app.
    + now exists t1.
Qed.

Lemma finish_trace (st : state) :
  exists st',
    finish env args st = (Ok tt, st') /\
    staging_delete st' = staging_delete st /\
    trace st' =
      trace st ++
      (7%nat, OpenFile (path_join (logs_dir args) "qc_metrics.txt") "w")
      :: map rm_rf (staging_delete st).
Proof.
  unfold finish. cbv zeta.
  unfold bind at 1. unfold note at 1, modify at 1. cbv beta iota.
  unfold bind at 1. unfold gets at 1. cbv beta iota.
  unfold bind at 1. unfold modify at 1. cbv beta iota.
  unfold bind at 1. unfold gets at 1. cbv beta iota.
  match goal with |- context [for_each ?l _ ?s] =>
    set (s0 := s); change l with (staging_delete s0)
  end.
  assert (H : forall dels s, exists s',
            for_each dels (fun d => call env 7 ["rm"; "-rf"; d]) s = (Ok tt, s') /\
            staging_delete s' = staging_delete s /\
            trace s' = trace s ++ map rm_rf dels).
  { induction dels as [|d dels IH]; intros s.
    - exists s. rewrite app_nil_r. now repeat split.
    - cbn [for_each]. unfold bind at 1.
      unfold call at 1, emit at 1, bind at 1, note at 1, modify. cbv beta iota.
      match goal with |- context [for_each dels _ ?s1] =>
        destruct (IH s1) as (s' & E & Hs & Ht)
      end.
      exists s'. rewrite E. split; [reflexivity|]. split; [exact Hs|].
      rewrite Ht. cbn. now rewrite <- app_assoc. }
  destruct (H (staging_delete s0) s0) as (s' & E & Hs & Ht).
  exists s'. rewrite E. split; [reflexivity|]. split; [exact Hs|].
  rewrite Ht. subst s0. cbn. now rewrite <- app_assoc.
Qed.
End Staging.

Section RunEnd.
Import Pipeline Growth RunSpec.
Variables (env : environment) (cfg : config) (args : arguments).

Lemma setup_trace (st : state) :
  exists st',
    setup env args st = (Ok tt, st') /\
    staging_delete st' = staging_delete st /\
    trace st' =
      trace st ++
      [(0%nat, Call ["mkdir"; "-p"; output_dir args; tmp_dir args; logs_dir args])].
Proof. eexists. repeat split. Qed.

Lemma finish_appends : appends staging_delete (finish env args).
Proof.
  intros st. destruct (finish_trace env args st) as (st' & E & Hs & _).
  exists []. now rewrite E, app_nil_r.
Qed.

(** X7. Nothing is ever taken off the staging-delete list: every stage,
    and the run as a whole, only appends to it, so the list at the end of
    a run still begins with the temporary directory put there at the
    start. *)
Theorem staging_only_grows :
  (forall n, appends staging_delete (stage env cfg args n)) /\
  appends staging_delete (run_pipeline env cfg args) /\
  (forall w, exists more,
     staging_delete (run_pipeline env cfg args (initial args w)).2
       = tmp_dir args :: more).
Proof.
  assert (Hrun : appends staging_delete (run_pipeline env cfg args)).
  { unfold run_pipeline. cbv zeta.
    apply appends_bind; [now apply appends_same | intros _].
    apply appends_bind; [apply appends_when, staging_stage1 | intros _].
    apply appends_bind; [apply appends_when, staging_stage2 | intros _].
    apply appends_bind; [apply appends_when, staging_stage3 | intros _].
    apply appends_bind; [apply appends_when, staging_stage4 | intros _].
    apply appends_bind; [apply appends_when, staging_stage5 | intros _].
    apply appends_bind; [apply appends_when, staging_stage6 | intros _].
    apply finish_appends. }
  split; [apply staging_stage | split; [exact Hrun|]].
  intros w. destruct (Hrun (initial args w)) as (l & E).
  exists l. exact E.
Qed.

(** X8. A run that returns ends by opening [qc_metrics.txt] in the log
    directory for writing and then calling [rm -rf] once for each path of
    the staging-delete list, in the order of the list, and does nothing
    after; everything before belongs to the setup or to stages 1 to 6.  A
    run that raises does neither: the report is not written and no staged
    file is deleted. *)
Theorem run_ends (w : store) :
  let r := run_pipeline env cfg args (initial args w) in
  match r.1 with
  | Raise e => Forall (fun n => (n <= 6)%nat) (tags (trace r.2))
  | Ok _ =>
      exists before,
        trace r.2 =
          before ++
          (7%nat, OpenFile (path_join (logs_dir args) "qc_metrics.txt") "w")
          :: map rm_rf (staging_delete r.2) /\
        Forall (fun n => (n <= 6)%nat) (tags before)
  end.
Proof.
  cbv zeta. rewrite run_pipeline_selected.
  destruct (setup_trace (initial args w)) as (st0 & E0 & _ & T0).
  rewrite (bind_ok _ _ _ _ _ E0).
  assert (Hsel : Forall (fun n => (1 <= n <= 6)%nat) (selected (step args))).
  { apply Forall_forall. intros n Hn. apply list_elem_of_In in Hn.
    now apply selected_spec in Hn. }
  destruct (stages_tags env cfg args _ Hsel st0) as (t & E1 & F1).
  unfold bind.
  destruct (for_each (selected (step args)) (stage env cfg args) st0)
    as [[[]|e] st1]; cbn [fst snd] in *.
  - destruct (finish_trace env args st1) as (st2 & E2 & Hs & T2).
    rewrite E2. cbn [fst snd]. rewrite Hs.
    exists ((0%nat, Call ["mkdir"; "-p"; output_dir args; tmp_dir args; logs_dir args]) :: t).
    rewrite T2, E1, T0. split; [reflexivity|].
    cbn. constructor; [lia | exact F1].
  - rewrite E1, T0. cbn. constructor; [lia | exact F1].
Qed.
End RunEnd.

Section Resume.
Import Pipeline Growth RunSpec.
Variables (env : environment) (cfg : config) (args : arguments).

(** X9. A run started at step 4 has an empty list of per-pair alignment
    files, the list being filled by stage 3 only: no flagstat is run, no
    mapped-read count is recorded, and the first command after the setup is
    novosort with an empty parameter where its input files go. *)
Theorem resume_at_4_merges_nothing (w : store) :
  step args = 4 ->
  (exists rest,
     trace (run_pipeline env cfg args (initial args w)).2 =
       [ (0%nat, Call ["mkdir"; "-p"; output_dir args; tmp_dir args; logs_dir args]);
         (4%nat, Run (novosort cfg)
                   [ Param ["--threads"; novosort_threads cfg];
                     Param ["--tmpcompression"; "6"];
                     Param ["--tmpdir"; tmp_dir args];
                     Param [];
                     Redir STDOUT (in_out args ".sortmerged.bam");
                     Redir STDERR (path_join (logs_dir args) "novosort.log") ]) ]
       ++ rest) /\
  num_reads_mapped (qc_data (run_pipeline env cfg args (initial args w)).2) = [].
Proof.
  intros H4. unfold run_pipeline. cbv zeta. rewrite H4.
  change (4 <=? 1) with false. change (4 <=? 2) with false.
  change (4 <=? 3) with false. change (4 <=? 4) with true.
  change (4 <=? 5) with true. change (4 <=? 6) with true.
  cbn [when].
  unfold setup, stage4, stage5, stage6, finish, call, run, emit, note, modify,
    gets, on_disk, bind, ret, lift, initial.
  cbn -[path_join Shift.shift_reads].
  match goal with
  | |- context [match ?o with Some _ => _ | None => _ end] => destruct o as [f|]
  end.
  - cbn -[path_join Shift.shift_reads].
    destruct (Shift.shift_reads _ _ _ _ _ _ _) as [[[]|?] ?];
      cbn -[path_join]; (split; [eexists; reflexivity | reflexivity]).
  - cbn -[path_join]. split; [eexists; reflexivity | reflexivity].
Qed.
End Resume.

Section Trim.
Import Pipeline Growth RunSpec.
Variables (env : environment) (cfg : config) (args : arguments).

Lemma stage1_pair_ok (i : nat) (read_pair : string) (st st' : state) :
  stage1_pair env cfg args i read_pair st = (Ok tt, st') ->
  length (split ":" read_pair) = 2%nat /\
  read_pairs st' =
    <[i := join ":" [trimmed args i "1"; trimmed args i "2"]]> (read_pairs st) /\
  staging_delete st' =
    staging_delete st ++ [trimmed args i "1"; trimmed args i "2"] /\
  length (total_raw_reads_counts (qc_data st')) =
    S (length (total_raw_reads_counts (qc_data st))) /\
  length (trimmed_reads_counts (qc_data st')) =
    S (length (trimmed_reads_counts (qc_data st))).
Proof.
  unfold stage1_pair.
  destruct (split ":" read_pair) as [|r1 [|r2 [|]]]; try discriminate.
  unfold bind, count_gzipped_lines, call, run, emit, note, modify, gets, lift.
  unfold bind. cbn -[path_join str Z.div int].
  repeat match goal with
  | |- context [match int ?x with _ => _ end] => destruct (int x); [|discriminate]
  end.
  intros [= <-]. cbn -[path_join str Z.div].
  rewrite !length_app. cbn. repeat split; lia.
Qed.

Local Abbreviation trimmed_pair :=
  (fun i => join ":" [trimmed args i "1"; trimmed args i "2"]).

Lemma stage1_loop (l : list string) :
  forall (k : nat) (st st' : state),
    length (read_pairs st) = (k + length l)%nat ->
    for_each (zip (seq k (length l)) l)
      (fun p => stage1_pair env cfg args p.1 p.2) st = (Ok tt, st') ->
    Forall (fun rp => length (split ":" rp) = 2%nat) l /\
    read_pairs st' =
      take k (read_pairs st) ++ map trimmed_pair (seq k (length l)) /\
    staging_delete st' =
      staging_delete st ++
      flat_map (fun i => [trimmed args i "1"; trimmed args i "2"]) (seq k (length l)) /\
    length (total_raw_reads_counts (qc_data st')) =
      (length (total_raw_reads_counts (qc_data st)) + length l)%nat /\
    length (trimmed_reads_counts (qc_data st')) =
      (length (trimmed_reads_counts (qc_data st)) + length l)%nat.
Proof.
  induction l as [|rp l IH]; intros k st st' Hlen H.
  - injection H as <-. cbn in *. rewrite !app_nil_r, take_ge by lia.
    repeat split; auto.
  - cbn [length seq zip zip_with for_each] in H. unfold bind in H.
    destruct (stage1_pair env cfg args (k, rp).1 (k, rp).2 st) as [[[]|e] st1] eqn:E1;
      [|discriminate].
    cbn [fst snd] in E1.
    apply stage1_pair_ok in E1 as (Hsp & Hrp & Hsd & Hq1 & Hq2).
    cbn [length] in Hlen.
    assert (Hlen1 : length (read_pairs st1) = (S k + length l)%nat).
    { rewrite Hrp, length_insert. lia. }
    destruct (IH (S k) st1 st' Hlen1 H) as (Hall & Hrp' & Hsd' & Hq1' & Hq2').
    split; [constructor; assumption|].
    split; [|split; [|split]].
    + rewrite Hrp', Hrp. cbn [length seq map].
      rewrite (take_S_r _ _ (trimmed_pair k)).
      * rewrite take_insert_ge by lia. now rewrite <- app_assoc.
      * apply list_lookup_insert_eq. lia.
    + rewrite Hsd', Hsd. cbn [length seq flat_map]. now rewrite <- app_assoc.
    + rewrite Hq1', Hq1. cbn [length]. lia.
    + rewrite Hq2', Hq2. cbn [length]. lia.
Qed.

(** X10. When stage 1 returns, every read pair had exactly two
    colon-separated names; each entry of the read-pair list has been
    replaced, in place, by the two trimmed file names of its index joined
    by a colon; those names have been appended to the staging-delete list,
    pair by pair; and each of the two count lists of the quality report has
    one more entry per pair. *)
Theorem stage1_rewrites_read_pairs (st st' : state) :
  stage1 env cfg args st = (Ok tt, st') ->
  Forall (fun rp => length (split ":" rp) = 2%nat) (read_pairs st) /\
  read_pairs st' = map trimmed_pair (seq 0 (length (read_pairs st))) /\
  staging_delete st' =
    staging_delete st ++
    flat_map (fun i => [trimmed args i "1"; trimmed args i "2"])
      (seq 0 (length (read_pairs st))) /\
  length (total_raw_reads_counts (qc_data st')) =
    (length (total_raw_reads_counts (qc_data st)) + length (read_pairs st))%nat /\
  length (trimmed_reads_counts (qc_data st')) =
    (length (trimmed_reads_counts (qc_data st)) + length (read_pairs st))%nat.
Proof.
  unfold stage1. rewrite (bind_ok (gets read_pairs) _ st st _ eq_refl).
  unfold enumerate. intros H.
  now apply (stage1_loop (read_pairs st) 0 st st') in H.
Qed.
End Trim.

(** ** Splitting and joining *)

Section SplitJoin.
Import Text.
Variable sep : ascii.

Lemma split_nonempty (s : string) : split sep s <> [].
Proof.
  destruct s as [|c s]; cbn; [discriminate|].
  destruct (Ascii.eqb c sep); [discriminate|]. now destruct (split sep s).
Qed.

Lemma split_cons_other (c : ascii) (s : string) :
  Ascii.eqb c sep = false ->
  exists w ws, split sep s = w :: ws /\ split sep (String c s) = String c w :: ws.
Proof.
  intros H. cbn. rewrite H.
  destruct (split sep s) as [|w ws] eqn:E; [now apply split_nonempty in E|].
  now exists w, ws.
Qed.

Lemma length_split (s : string) :
  length (split sep s) = S (count_char sep s).
Proof.
  induction s as [|c s IH]; [reflexivity|].
  cbn [count_char]. destruct (Ascii.eqb c sep) eqn:E.
  - cbn. rewrite E. cbn. now rewrite IH.
  - destruct (split_cons_other c s E) as (w & ws & E1 & ->).
    rewrite E1 in IH. exact IH.
Qed.

Lemma split_fields (s : string) :
  Forall (fun x => count_char sep x = 0%nat) (split sep s).
Proof.
  induction s as [|c s IH]; [repeat constructor|].
  destruct (Ascii.eqb c sep) eqn:E.
  - cbn. rewrite E. now constructor.
  - destruct (split_cons_other c s E) as (w & ws & E1 & ->).
    rewrite E1 in IH. inversion IH; subst. constructor; [|assumption].
    cbn. now rewrite E.
Qed.

Lemma split_app (a b : string) :
  count_char sep a = 0%nat ->
  split sep (a +:+ String sep b) = a :: split sep b.
Proof.
  induction a as [|c a IH]; intros H.
  - change (EmptyString +:+ String sep b) with (String sep b).
    cbn [split]. now rewrite Ascii.eqb_refl.
  - cbn [count_char] in H. destruct (Ascii.eqb c sep) eqn:E; [discriminate|].
    rewrite append_cons. cbn [split]. rewrite E, IH by exact H. reflexivity.
Qed.

Lemma split_whole (a : string) :
  count_char sep a = 0%nat -> split sep a = [a].
Proof.
  induction a as [|c a IH]; intros H; [reflexivity|].
  cbn [count_char] in H. destruct (Ascii.eqb c sep) eqn:E; [discriminate|].
  cbn [split]. rewrite E, IH by exact H. reflexivity.
Qed.

Lemma join_cons (x y : string) (l : list string) :
  join (String sep EmptyString) (x :: y :: l) =
    x +:+ String sep (join (String sep EmptyString) (y :: l)).
Proof. reflexivity. Qed.

Lemma split_join (l : list string) :
  l <> [] ->
  Forall (fun x => count_char sep x = 0%nat) l ->
  split sep (join (String sep EmptyString) l) = l.
Proof.
  intros Hne Hall. induction Hall as [|x l Hx Hl IH]; [contradiction|].
  destruct l as [|y l].
  - cbn [join]. now apply split_whole.
  - rewrite join_cons, split_app by exact Hx. f_equal. apply IH. discriminate.
Qed.

Lemma join_split (s : string) :
  join (String sep EmptyString) (split sep s) = s.
Proof.
  induction s as [|c s IH]; [reflexivity|].
  destruct (Ascii.eqb c sep) eqn:E.
  - cbn [split]. rewrite E. apply Ascii.eqb_eq in E as ->.
    destruct (split sep s) as [|w ws] eqn:Es; [now apply split_nonempty in Es|].
    rewrite join_cons, IH. reflexivity.
  - destruct (split_cons_other c s E) as (w & ws & E1 & ->).
    rewrite E1 in IH. destruct ws as [|v ws].
    + cbn [join] in *. now rewrite IH.
    + rewrite join_cons in *. rewrite append_cons. now rewrite IH.
Qed.

Lemma count_char_app (a b : string) :
  count_char sep (a +:+ b) = (count_char sep a + count_char sep b)%nat.
Proof.
  induction a as [|c a IH]; [reflexivity|].
  rewrite append_cons. cbn. rewrite IH. lia.
Qed.
End SplitJoin.
(** ** Stripping *)

Section Strip.
Import Text.

Lemma rstrip_blank (t : string) :
  all_chars isspace t = true -> rstrip t = EmptyString.
Proof.
  induction t as [|c t IH]; [reflexivity|].
  cbn [all_chars rstrip]. intros H. apply andb_prop in H as [Hc Ht].
  now rewrite (IH Ht), Hc.
Qed.

Lemma rstrip_app_blank (s t : string) :
  all_chars isspace t = true -> rstrip (s +:+ t) = rstrip s.
Proof.
  intros Ht. induction s as [|c s IH]; [now apply rstrip_blank|].
  rewrite append_cons. cbn [rstrip]. now rewrite IH.
Qed.

Lemma rstrip_id (s : string) (c : ascii) :
  last_char s = Some c -> isspace c = false -> rstrip s = s.
Proof.
  induction s as [|x s IH]; [discriminate|].
  destruct s as [|y s].
  - cbn. intros [= ->] ->. reflexivity.
  - intros Hl Hc. change (last_char (String x (String y s))) with (last_char (String y s)) in Hl.
    specialize (IH Hl Hc). cbn [rstrip] in *. rewrite IH. reflexivity.
Qed.

Lemma lstrip_id (s : string) (c : ascii) :
  first_char s = Some c -> isspace c = false -> lstrip s = s.
Proof. destruct s; cbn; [discriminate|]. now intros [= ->] ->. Qed.

Lemma strip_id (s : string) : trimmed_text s -> strip s = s.
Proof.
  intros [(c & Hc & Hs) (d & Hd & Hs')]. unfold strip.
  rewrite (lstrip_id s c Hc Hs). now apply (rstrip_id s d).
Qed.

Lemma strip_line (s : string) : trimmed_text s -> strip (s +:+ NL) = s.
Proof.
  intros [(c & Hc & Hs) (d & Hd & Hs')]. unfold strip.
  rewrite (lstrip_id (s +:+ NL) c); [| |exact Hs].
  - rewrite rstrip_app_blank by reflexivity. now apply (rstrip_id s d).
  - destruct s; [discriminate | exact Hc].
Qed.

Lemma last_char_rstrip (s : string) :
  rstrip s = EmptyString \/
  exists c, last_char (rstrip s) = Some c /\ isspace c = false.
Proof.
  induction s as [|x s IH]; [now left|].
  cbn [rstrip]. destruct IH as [-> | (c & Hc & Hs)].
  - destruct (isspace x) eqn:E; [now left|]. right. exists x. now split.
  - right. exists c. split; [|exact Hs].
    destruct (rstrip s) as [|y r]; [discriminate|]. exact Hc.
Qed.

Lemma first_char_lstrip (s : string) :
  lstrip s = EmptyString \/
  exists c, first_char (lstrip s) = Some c /\ isspace c = false.
Proof.
  induction s as [|x s IH]; [now left|].
  cbn [lstrip]. destruct (isspace x) eqn:E; [exact IH|].
  right. exists x. now split.
Qed.

Lemma first_char_rstrip (s : string) (c : ascii) :
  first_char s = Some c -> isspace c = false -> first_char (rstrip s) = Some c.
Proof.
  destruct s as [|x s]; [discriminate|]. intros [= ->] Hc.
  cbn [rstrip]. destruct (rstrip s); [now rewrite Hc | reflexivity].
Qed.

(** What [strip] returns is empty or has no whitespace at either end. *)
Lemma strip_trimmed (s : string) :
  strip s = EmptyString \/ trimmed_text (strip s).
Proof.
  unfold strip. destruct (first_char_lstrip s) as [-> | (c & Hc & Hs)]; [now left|].
  destruct (last_char_rstrip (lstrip s)) as [-> | Hl]; [now left|].
  right. split; [|exact Hl]. exists c. split; [|exact Hs].
  now apply first_char_rstrip.
Qed.
End Strip.

(** ** Numerals *)

Section Numerals.
Import Text Numeral.

Lemma digits_val_uint (u : Decimal.uint) (acc : Z) :
  digits_val acc (NilEmpty.string_of_uint u) = Some (uint_val acc u).
Proof.
  revert acc. induction u; intros acc; cbn [NilEmpty.string_of_uint uint_val];
    [reflexivity | ..]; cbn [digits_val]; apply IHu.
Qed.

Lemma uint_val_acc (u : Decimal.uint) (acc : positive) :
  uint_val (Zpos acc) u = Zpos (Pos.of_uint_acc u acc).
Proof.
  revert acc. induction u; intros acc; cbn [uint_val Pos.of_uint_acc];
    [reflexivity | ..];
    match goal with
    | |- uint_val ?z _ = Zpos (Pos.of_uint_acc _ ?p) =>
        replace z with (Zpos p) by lia; apply IHu
    end.
Qed.

Lemma uint_val_of_uint (u : Decimal.uint) :
  uint_val 0 u = Z.of_N (Pos.of_uint u).
Proof.
  induction u; cbn [uint_val Pos.of_uint]; [reflexivity | exact IHu | ..];
    match goal with
    | |- uint_val ?z _ = _ =>
        let z' := eval compute in z in change z with z'
    end; rewrite uint_val_acc; reflexivity.
Qed.

Lemma uint_val_to_uint (p : positive) : uint_val 0 (Pos.to_uint p) = Zpos p.
Proof. now rewrite uint_val_of_uint, Unsigned.of_to. Qed.

Lemma uint_chars (u : Decimal.uint) :
  all_chars Re.is_digit (NilEmpty.string_of_uint u) = true.
Proof. induction u; cbn; auto. Qed.

Lemma string_of_uint_nonnil (u : Decimal.uint) :
  u <> Decimal.Nil -> NilZero.string_of_uint u = NilEmpty.string_of_uint u.
Proof. now destruct u. Qed.

Lemma all_chars_impl (f g : ascii -> bool) (s : string) :
  (forall c, f c = true -> g c = true) ->
  all_chars f s = true -> all_chars g s = true.
Proof.
  intros H. induction s as [|c s IH]; [reflexivity|].
  cbn. intros Hs. apply andb_prop in Hs as [Hc Hs].
  now rewrite (H c Hc), (IH Hs).
Qed.

Lemma rstrip_no_space (s : string) :
  all_chars (fun c => negb (isspace c)) s = true -> rstrip s = s.
Proof.
  induction s as [|c s IH]; [reflexivity|].
  cbn [all_chars]. intros H. apply andb_prop in H as [Hc Hs].
  cbn [rstrip]. rewrite (IH Hs).
  destruct s; [|reflexivity]. now destruct (isspace c).
Qed.

Lemma strip_no_space (s : string) :
  all_chars (fun c => negb (isspace c)) s = true -> strip s = s.
Proof.
  intros H. unfold strip.
  assert (Hl : lstrip s = s).
  { destruct s as [|c s]; [reflexivity|]. cbn [all_chars lstrip] in *.
    apply andb_prop in H as [Hc _]. now destruct (isspace c). }
  rewrite Hl. now apply rstrip_no_space.
Qed.

Lemma count_char_none (f : ascii -> bool) (c : ascii) (s : string) :
  f c = false -> all_chars f s = true -> count_char c s = 0%nat.
Proof.
  intros Hc. induction s as [|x s IH]; [reflexivity|].
  cbn. intros H. apply andb_prop in H as [Hx Hs]. rewrite (IH Hs).
  destruct (Ascii.eqb_spec x c) as [->|_]; [congruence | reflexivity].
Qed.

Lemma digit_is_numeral (s : string) :
  all_chars Re.is_digit s = true -> all_chars numeral_char s = true.
Proof.
  apply all_chars_impl. intros c H. unfold numeral_char. now rewrite H.
Qed.

Lemma numeral_no_space (c : ascii) : numeral_char c = true -> negb (isspace c) = true.
Proof.
  destruct c as [[] [] [] [] [] [] [] []]; vm_compute; congruence.
Qed.

(** [str] writes digits, after a minus sign for a negative number. *)
Lemma str_chars (z : Z) :
  str z <> EmptyString /\ all_chars numeral_char (str z) = true.
Proof.
  unfold str. destruct z as [|p|p]; cbn [Z.to_int NilZero.string_of_int].
  - split; [discriminate | reflexivity].
  - rewrite string_of_uint_nonnil by apply Unsigned.to_uint_nonnil.
    split; [|apply digit_is_numeral, uint_chars].
    pose proof (Unsigned.to_uint_nonnil p). now destruct (Pos.to_uint p).
  - rewrite string_of_uint_nonnil by apply Unsigned.to_uint_nonnil.
    split; [discriminate|]. cbn [all_chars].
    now rewrite (digit_is_numeral _ (uint_chars _)).
Qed.

(** Reading back what [str] wrote gives the number. *)
Lemma int_str (z : Z) : int (str z) = Ok z.
Proof.
  unfold int, int_literal.
  rewrite strip_no_space
    by (eapply all_chars_impl; [apply numeral_no_space | apply str_chars]).
  unfold str. destruct z as [|p|p]; cbn [Z.to_int NilZero.string_of_int].
  - reflexivity.
  - rewrite string_of_uint_nonnil by apply Unsigned.to_uint_nonnil.
    pose proof (uint_val_to_uint p) as Hv.
    pose proof (digits_val_uint (Pos.to_uint p) 0) as Hd.
    pose proof (Unsigned.to_uint_nonnil p) as Hn.
    destruct (Pos.to_uint p) as [|u|u|u|u|u|u|u|u|u|u]; [contradiction|..];
      cbn [NilEmpty.string_of_uint] in *; unfold nat_literal;
      rewrite Hd, Hv; reflexivity.
  - rewrite string_of_uint_nonnil by apply Unsigned.to_uint_nonnil.
    pose proof (uint_val_to_uint p) as Hv.
    pose proof (digits_val_uint (Pos.to_uint p) 0) as Hd.
    pose proof (Unsigned.to_uint_nonnil p) as Hn.
    destruct (Pos.to_uint p) as [|u|u|u|u|u|u|u|u|u|u]; [contradiction|..];
      cbn [NilEmpty.string_of_uint] in *; unfold nat_literal;
      rewrite Hd, Hv; reflexivity.
Qed.
End Numerals.

(** ** Reading back a written record *)

Section Reparse.
Import Shift Text Numeral.

Lemma first_char_app (a b : string) :
  a <> EmptyString -> first_char (a +:+ b) = first_char a.
Proof. now destruct a. Qed.

Lemma last_char_app (a b : string) :
  b <> EmptyString -> last_char (a +:+ b) = last_char b.
Proof.
  intros Hb. induction a as [|c a IH]; [reflexivity|].
  rewrite append_cons. cbn [last_char]. rewrite IH.
  destruct (a +:+ b) eqn:E; [|reflexivity].
  destruct a; [change (EmptyString +:+ b) with b in E; congruence|].
  rewrite append_cons in E. discriminate.
Qed.

Lemma join_snoc (pre : list string) (x : string) :
  pre <> [] ->
  join TAB (pre ++ [x]) = join TAB pre +:+ TAB +:+ x.
Proof.
  induction pre as [|y pre IH]; [contradiction|]. intros _.
  destruct pre as [|z pre]; [reflexivity|].
  change ((y :: z :: pre) ++ [x]) with (y :: (z :: pre) ++ [x]).
  change (join TAB (y :: (z :: pre) ++ [x]))
    with (y +:+ TAB +:+ join TAB ((z :: pre) ++ [x])).
  rewrite IH by discriminate.
  change (join TAB (y :: z :: pre)) with (y +:+ TAB +:+ join TAB (z :: pre)).
  now rewrite !append_assoc.
Qed.

(** Whether a joined line has whitespace at its ends depends on its first
    and last field only. *)
Lemma trimmed_join (x0 xl : string) (mid : list string) :
  trimmed_text (join TAB (x0 :: mid ++ [xl])) <->
  (exists c, first_char x0 = Some c /\ isspace c = false) /\
  (exists d, last_char xl = Some d /\ isspace d = false).
Proof.
  assert (E1 : exists rest, join TAB (x0 :: mid ++ [xl]) = x0 +:+ TAB +:+ rest).
  { destruct (mid ++ [xl]) as [|y l] eqn:E; [now destruct mid|].
    eexists. reflexivity. }
  assert (E2 : join TAB (x0 :: mid ++ [xl]) = join TAB (x0 :: mid) +:+ TAB +:+ xl).
  { rewrite app_comm_cons. now apply join_snoc. }
  destruct E1 as (rest & E1). unfold trimmed_text.
  assert (F : forall c, first_char (join TAB (x0 :: mid ++ [xl])) = Some c /\ isspace c = false
                <-> first_char x0 = Some c /\ isspace c = false).
  { intros c. rewrite E1. destruct x0 as [|a x0].
    - cbn. split; [intros [[= <-] H]; discriminate H | intros [[=] _]].
    - reflexivity. }
  assert (L : forall d, last_char (join TAB (x0 :: mid ++ [xl])) = Some d /\ isspace d = false
                <-> last_char xl = Some d /\ isspace d = false).
  { intros d. rewrite E2, <- append_assoc. destruct xl as [|a xl].
    - rewrite append_nil_r, last_char_app by discriminate. cbn.
      split; [intros [[= <-] H]; discriminate H | intros [[=] _]].
    - now rewrite last_char_app by discriminate. }
  split.
  - intros [(c & Hc) (d & Hd)]. split; [exists c; now apply F | exists d; now apply L].
  - intros [(c & Hc) (d & Hd)]. split; [exists c; now apply F | exists d; now apply L].
Qed.

Lemma str_no_tab (z : Z) : count_char tab (str z) = 0%nat.
Proof.
  apply (count_char_none numeral_char); [reflexivity | apply str_chars].
Qed.

(** X6. A record written by the shifter reads back: the line written for
    a parsed record and new coordinates parses again, to the same
    chromosome and strand, the new start and end, and the fields after the
    third unchanged.  So the output of one run is an input the next run
    accepts. *)
Theorem output_line_reparses (line : string) (r : fields) (new_start new_end : Z) :
  parse_line line = Ok r ->
  parse_line (output_line r new_start new_end) =
    Ok {| record := [chrom r; str new_start; str new_end] ++ drop 3 (record r);
          chrom := chrom r;
          start := new_start;
          end_ := new_end;
          strand := strand r |}.
Proof.
  intros Hp. apply parse_line_ok in Hp as (Hr & Hlen & H0 & _ & _ & H5).
  assert (Hfields : Forall (fun x => count_char tab x = 0%nat) (record r))
    by (rewrite Hr; apply split_fields).
  assert (Hjoin : join TAB (record r) = strip line)
    by (rewrite Hr; apply join_split).
  destruct (record r) as [|c0 [|f1 [|f2 tail]]] eqn:Erec;
    try (cbn in Hlen; lia).
  cbn in H0. injection H0 as ->.
  change (drop 3 (chrom r :: f1 :: f2 :: tail)) with tail.
  change ((chrom r :: f1 :: f2 :: tail) !! 5%nat) with (tail !! 2%nat) in H5.
  destruct tail as [|xl pre _] using rev_ind; [discriminate|].
  assert (Htrim : trimmed_text (strip line)).
  { destruct (strip_trimmed line) as [E|H]; [|exact H].
    rewrite E in Hjoin. exfalso.
    change (chrom r :: f1 :: f2 :: pre ++ [xl])
      with (chrom r :: [f1; f2] ++ pre ++ [xl]) in Hjoin.
    rewrite app_assoc in Hjoin.
    apply (f_equal (count_char tab)) in Hjoin.
    rewrite app_comm_cons, join_snoc in Hjoin by discriminate.
    rewrite !count_char_app in Hjoin.
    change (count_char tab TAB) with 1%nat in Hjoin.
    change (count_char tab EmptyString) with 0%nat in Hjoin. lia. }
  rewrite <- Hjoin in Htrim.
  change (chrom r :: f1 :: f2 :: pre ++ [xl])
    with (chrom r :: ([f1; f2] ++ pre) ++ [xl]) in Htrim.
  rewrite <- app_assoc in Htrim. rewrite app_assoc in Htrim.
  apply trimmed_join in Htrim.
  assert (Hnew : trimmed_text
            (join TAB (chrom r :: ([str new_start; str new_end] ++ pre) ++ [xl])))
    by now apply trimmed_join.
  unfold output_line, slice_from. rewrite Erec.
  change (drop 3 (chrom r :: f1 :: f2 :: pre ++ [xl])) with (pre ++ [xl]).
  change ([chrom r; str new_start; str new_end] ++ pre ++ [xl])
    with (chrom r :: [str new_start; str new_end] ++ pre ++ [xl]).
  rewrite (app_assoc [str new_start; str new_end] pre [xl]).
  unfold parse_line. rewrite (strip_line _ Hnew).
  rewrite split_join; [|discriminate|].
  2:{ inversion Hfields as [|? ? Hc0 Hrest]; subst.
      inversion Hrest as [|? ? _ Hrest2]; subst.
      inversion Hrest2 as [|? ? _ Htail]; subst.
      constructor; [exact Hc0|]. rewrite <- app_assoc.
      constructor; [apply str_no_tab|]. constructor; [apply str_no_tab|].
      exact Htail. }
  rewrite <- (app_assoc [str new_start; str new_end] pre [xl]).
  cbn [index lookup list_lookup app].
  rewrite !int_str.
  unfold index.
  change ((chrom r :: str new_start :: str new_end :: pre ++ [xl]) !! 5%nat)
    with ((pre ++ [xl]) !! 2%nat).
  rewrite H5. reflexivity.
Qed.
End Reparse.

(** ** The mapped-read count scraped from flagstat *)

Section Flagstat.
Import Pipeline Text.

Lemma span_digits_spec (s : string) :
  s = (span_digits s).1 +:+ (span_digits s).2 /\
  all_chars is_digit (span_digits s).1 = true.
Proof.
  induction s as [|c s [IH1 IH2]]; [now split|].
  cbn [span_digits]. destruct (is_digit c) eqn:E; [|now split].
  destruct (span_digits s) as [ds rest]. cbn [fst snd] in *.
  rewrite append_cons, <- IH1. cbn [all_chars]. now rewrite E, IH2.
Qed.

Lemma strip_prefix_spec (p s r : string) :
  strip_prefix p s = Some r -> s = p +:+ r.
Proof.
  revert s. induction p as [|a p IH]; intros s; cbn [strip_prefix].
  - now intros [= ->].
  - destruct s as [|b s]; [discriminate|].
    destruct (Ascii.eqb_spec a b) as [->|_]; [|discriminate].
    intros H. rewrite append_cons. f_equal. now apply IH.
Qed.

Lemma mapped_at_spec (s g : string) :
  mapped_at s = Some g ->
  g <> EmptyString /\ all_chars is_digit g = true /\
  exists h rest,
    h <> EmptyString /\ all_chars is_digit h = true /\
    s = g +:+ " + " +:+ h +:+ " mapped" +:+ rest.
Proof.
  unfold mapped_at.
  destruct (span_digits_spec s) as [E1 D1].
  destruct (span_digits s) as [[|c g1] rest]; [discriminate|].
  cbn [fst snd] in *.
  destruct (strip_prefix " + " rest) as [rest1|] eqn:P1; [|discriminate].
  apply strip_prefix_spec in P1.
  destruct (span_digits_spec rest1) as [E2 D2].
  destruct (span_digits rest1) as [[|d h1] rest2]; [discriminate|].
  cbn [fst snd] in *.
  destruct (strip_prefix " mapped" rest2) as [rest3|] eqn:P2; [|discriminate].
  apply strip_prefix_spec in P2.
  intros [= <-]. split; [discriminate|]. split; [exact D1|].
  exists (String d h1), rest3. split; [discriminate|]. split; [exact D2|].
  rewrite E1 at 1. rewrite P1, E2 at 1. now rewrite P2.
Qed.

Lemma search_mapped_spec (s g : string) :
  search_mapped s = Some g ->
  g <> EmptyString /\ all_chars is_digit g = true /\
  exists before h rest,
    h <> EmptyString /\ all_chars is_digit h = true /\
    s = before +:+ g +:+ " + " +:+ h +:+ " mapped" +:+ rest.
Proof.
  induction s as [|c s IH].
  - cbn. discriminate.
  - cbn [search_mapped]. destruct (mapped_at (String c s)) as [g'|] eqn:E.
    + intros [= <-]. apply mapped_at_spec in E as (Hg & Dg & h & rest & Hh & Dh & Es).
      split; [exact Hg|]. split; [exact Dg|].
      exists EmptyString, h, rest. now repeat split.
    + intros H. destruct (IH H) as (Hg & Dg & before & h & rest & Hh & Dh & Es).
      split; [exact Hg|]. split; [exact Dg|].
      exists (String c before), h, rest. rewrite append_cons, <- Es. now repeat split.
Qed.

Lemma digits_val_nonneg (s : string) :
  all_chars is_digit s = true ->
  forall acc, 0 <= acc -> exists n, digits_val acc s = Some n /\ 0 <= n.
Proof.
  induction s as [|c s IH]; intros H acc Hacc; [now exists acc|].
  cbn [all_chars] in H. apply andb_prop in H as [Hc Hs].
  cbn [digits_val]. unfold is_digit in Hc.
  destruct (digit_val c) as [d|] eqn:Ed; [|discriminate].
  apply IH; [exact Hs|].
  unfold digit_val in Ed.
  destruct (_ && _)%bool; [|discriminate]. injection Ed as <-. lia.
Qed.

Lemma digit_no_space (c : ascii) : is_digit c = true -> negb (isspace c) = true.
Proof.
  destruct c as [[] [] [] [] [] [] [] []]; vm_compute; congruence.
Qed.

Lemma digit_no_sign (c : ascii) :
  is_digit c = true -> c <> "+"%char /\ c <> "-"%char.
Proof.
  destruct c as [[] [] [] [] [] [] [] []]; vm_compute; intros H; split; congruence.
Qed.
End Flagstat.

Section FlagstatValue.
Import Pipeline Text FlagstatSpec Numeral.

Lemma int_digits (g : string) :
  g <> EmptyString -> all_chars is_digit g = true ->
  exists n, int_literal g = Some n /\ 0 <= n.
Proof.
  intros Hne Hd. unfold int_literal.
  rewrite strip_no_space
    by (eapply all_chars_impl; [apply digit_no_space | exact Hd]).
  destruct g as [|c g]; [contradiction|].
  assert (Hc : is_digit c = true) by (cbn in Hd; now apply andb_prop in Hd).
  destruct (digit_no_sign c Hc) as [Hp Hm].
  destruct (digits_val_nonneg (String c g) Hd 0) as (n & Hn & Hpos); [lia|].
  exists n. split; [|exact Hpos].
  destruct (Ascii.ascii_dec c "+"%char) as [->|_]; [contradiction|].
  destruct (Ascii.ascii_dec c "-"%char) as [->|_]; [contradiction|].
  destruct c as [[] [] [] [] [] [] [] []]; try exact Hn; contradiction.
Qed.

Lemma span_digits_app (g rest : string) :
  all_chars is_digit g = true -> match_digits rest = false ->
  span_digits (g +:+ rest) = (g, rest).
Proof.
  intros Hg Hr. induction g as [|c g IH].
  - change (EmptyString +:+ rest) with rest.
    destruct rest as [|x r]; [reflexivity|]. cbn in *. now rewrite Hr.
  - cbn [all_chars] in Hg. apply andb_prop in Hg as [Hc Hg].
    rewrite append_cons. cbn [span_digits]. now rewrite Hc, (IH Hg).
Qed.

Lemma strip_prefix_app (p r : string) : strip_prefix p (p +:+ r) = Some r.
Proof.
  induction p as [|a p IH]; [now destruct r|].
  rewrite append_cons. cbn [strip_prefix]. now rewrite Ascii.eqb_refl.
Qed.

Lemma mapped_at_complete (g h rest : string) :
  g <> EmptyString -> all_chars is_digit g = true ->
  h <> EmptyString -> all_chars is_digit h = true ->
  mapped_at (g +:+ " + " +:+ h +:+ " mapped" +:+ rest) = Some g.
Proof.
  intros Hg Dg Hh Dh. unfold mapped_at.
  rewrite (span_digits_app g _ Dg) by reflexivity.
  destruct g as [|c g]; [contradiction|].
  rewrite strip_prefix_app.
  rewrite (span_digits_app h _ Dh) by reflexivity.
  destruct h as [|d h]; [contradiction|].
  now rewrite strip_prefix_app.
Qed.

Lemma search_mapped_unfold (s : string) :
  search_mapped s =
    match mapped_at s with
    | Some g => Some g
    | None =>
        match s with
        | EmptyString => None
        | String _ s' => search_mapped s'
        end
    end.
Proof. now destruct s. Qed.

(** The search returns the first group of the leftmost text of the
    pattern. *)
Lemma search_mapped_leftmost (before : string) :
  forall s g h rest,
    mapped_text s before g h rest ->
    (forall before' g' h' rest',
       mapped_text s before' g' h' rest' -> (String.length before <= String.length before')%nat) ->
    search_mapped s = Some g.
Proof.
  induction before as [|c b IH]; intros s g h rest (Es & Hg & Dg & Hh & Dh) Hmin.
  - change (EmptyString +:+ g +:+ " + " +:+ h +:+ " mapped" +:+ rest)
      with (g +:+ " + " +:+ h +:+ " mapped" +:+ rest) in Es.
    rewrite search_mapped_unfold, Es, mapped_at_complete by assumption.
    reflexivity.
  - rewrite append_cons in Es. rewrite search_mapped_unfold.
    destruct (mapped_at s) as [g0|] eqn:E0.
    + apply mapped_at_spec in E0 as (Hg0 & Dg0 & h0 & r0 & Hh0 & Dh0 & Es0).
      assert (Hm : mapped_text s EmptyString g0 h0 r0) by (now repeat split).
      apply Hmin in Hm. cbn in Hm. lia.
    + rewrite Es. apply (IH _ g h rest); [now repeat split|].
      intros b' g' h' r' (E' & H').
      assert (Hm : mapped_text s (String c b') g' h' r').
      { split; [|exact H']. rewrite Es, E'. now rewrite append_cons. }
      apply Hmin in Hm. cbn in Hm. lia.
Qed.

Lemma search_mapped_none (s : string) :
  (forall before g h rest, ~ mapped_text s before g h rest) ->
  search_mapped s = None.
Proof.
  intros Hno. destruct (search_mapped s) as [g|] eqn:E; [|reflexivity].
  apply search_mapped_spec in E as (Hg & Dg & before & h & rest & Hh & Dh & Es).
  exfalso. apply (Hno before g h rest). now repeat split.
Qed.

Lemma first_char_numeral (z : Z) :
  exists c, first_char (str z) = Some c /\ numeral_char c = true.
Proof.
  destruct (str_chars z) as [Hne Hall].
  destruct (str z) as [|c t]; [contradiction|].
  exists c. split; [reflexivity|]. cbn in Hall. now apply andb_prop in Hall.
Qed.

(** X14. A flagstat report that has been opened never gives the
    could-not-open message, which is what a report that cannot be opened
    gives.  When no text of the form digits, " + ", digits, " mapped"
    occurs in the report the value recorded is "0"; otherwise it is half
    (rounded down) of the number written by the first group of digits of
    the leftmost such text, and the conversion of that group cannot
    fail. *)
Theorem flagstat_mapped_opened (contents path : string) :
  ((forall before g h rest, ~ mapped_text contents before g h rest) ->
     flagstat_mapped (Some contents) path = "0") /\
  (forall before g h rest,
     mapped_text contents before g h rest ->
     (forall before' g' h' rest',
        mapped_text contents before' g' h' rest' ->
        (String.length before <= String.length before')%nat) ->
     exists n,
       int_literal g = Some n /\ 0 <= n /\
       flagstat_mapped (Some contents) path = str (n / 2)) /\
  flagstat_mapped (Some contents) path <> could_not_open path /\
  flagstat_mapped None path = could_not_open path.
Proof.
  split; [|split; [|split]].
  - intros Hno. unfold flagstat_mapped. now rewrite (search_mapped_none _ Hno).
  - intros before g h rest Hm Hmin.
    pose proof (search_mapped_leftmost before contents g h rest Hm Hmin) as E.
    destruct Hm as (_ & Hg & Dg & _).
    destruct (int_digits g Hg Dg) as (n & Hn & Hpos).
    exists n. unfold flagstat_mapped, int. now rewrite E, Hn.
  - unfold flagstat_mapped, could_not_open.
    destruct (search_mapped contents) as [g|] eqn:E; [|discriminate].
    apply search_mapped_spec in E as (Hg & Dg & _).
    destruct (int_digits g Hg Dg) as (n & Hn & _).
    unfold int. rewrite Hn.
    destruct (first_char_numeral (n / 2)) as (c & Hc & Hnum).
    intros Heq. rewrite Heq in Hc. cbn in Hc. injection Hc as <-.
    discriminate Hnum.
  - reflexivity.
Qed.
End FlagstatValue.

(** ** Read pairs and their colons *)

Section Colons.
Import Pipeline Text Growth RunSpec.
Variables (env : environment) (cfg : config) (args : arguments).

Lemma stage3_pair_ok (i : nat) (read_pair : string) (st : state) :
  count_char ":" read_pair = 1%nat ->
  exists st',
    stage3_pair env cfg args i read_pair st = (Ok tt, st') /\
    bwa_bam_outs st' = bwa_bam_outs st ++ [bwa_bam args i] /\
    read_pairs st' = read_pairs st /\
    staging_delete st' = staging_delete st.
Proof.
  intros H. pose proof (length_split ":" read_pair) as Hl. rewrite H in Hl.
  unfold stage3_pair.
  destruct (split ":" read_pair) as [|r1 [|r2 [|]]]; try discriminate Hl.
  eexists. split; [reflexivity|]. repeat split.
Qed.

Lemma unpack_fails (i : nat) (read_pair : string) (st : state) :
  count_char ":" read_pair <> 1%nat ->
  stage3_pair env cfg args i read_pair st = (Raise ValueError, st) /\
  stage1_pair env cfg args i read_pair st = (Raise ValueError, st).
Proof.
  intros H. pose proof (length_split ":" read_pair) as Hl.
  unfold stage3_pair, stage1_pair.
  destruct (split ":" read_pair) as [|r1 [|r2 [|]]]; try (now split).
  cbn in Hl. lia.
Qed.

(** X12. Stages 1 and 3 unpack a read pair into two names: on an entry
    that does not hold exactly one colon they raise ValueError before
    running anything, and stage 3 raises ValueError on no other entry.  An
    entry stage 1 writes, two names joined by a colon, holds one colon more
    than its names do; so stage 3 raises ValueError on the entry stage 1
    wrote for a pair exactly when one of the two trimmed file names of that
    pair holds a colon. *)
Theorem read_pair_needs_one_colon (i : nat) (read_pair : string) (st : state) :
  ((stage3_pair env cfg args i read_pair st).1 = Raise ValueError <->
     count_char ":" read_pair <> 1%nat) /\
  (count_char ":" read_pair <> 1%nat ->
     stage3_pair env cfg args i read_pair st = (Raise ValueError, st) /\
     stage1_pair env cfg args i read_pair st = (Raise ValueError, st)) /\
  (forall read1 read2,
     count_char ":" (join ":" [read1; read2]) =
       (count_char ":" read1 + 1 + count_char ":" read2)%nat) /\
  ((stage3_pair env cfg args i
      (join ":" [trimmed args i "1"; trimmed args i "2"]) st).1 = Raise ValueError <->
   (count_char ":" (trimmed args i "1") + count_char ":" (trimmed args i "2") <> 0)%nat).
Proof.
  pose proof (unpack_fails i read_pair st) as Hbad.
  assert (Hiff : forall rp,
            (stage3_pair env cfg args i rp st).1 = Raise ValueError <->
            count_char ":" rp <> 1%nat).
  { intros rp. split.
    - intros H Hc. destruct (stage3_pair_ok i rp st Hc) as (st' & E & _).
      rewrite E in H. discriminate H.
    - intros H. destruct (unpack_fails i rp st H) as [-> _]. reflexivity. }
  assert (Hjoin : forall read1 read2,
            count_char ":" (join ":" [read1; read2]) =
              (count_char ":" read1 + 1 + count_char ":" read2)%nat).
  { intros read1 read2. cbn [join]. rewrite !count_char_app.
    change (count_char ":" ":") with 1%nat. lia. }
  split; [apply Hiff|]. split; [exact Hbad|]. split; [exact Hjoin|].
  rewrite Hiff, Hjoin. lia.
Qed.

Local Abbreviation pair_body :=
  (fun p : nat * string => stage3_pair env cfg args p.1 p.2).

Lemma stage3_loop (l : list string) :
  forall (k : nat) (st st' : state),
    for_each (zip (seq k (length l)) l) pair_body st = (Ok tt, st') ->
    Forall (fun rp => count_char ":" rp = 1%nat) l /\
    bwa_bam_outs st' = bwa_bam_outs st ++ map (bwa_bam args) (seq k (length l)) /\
    read_pairs st' = read_pairs st /\
    staging_delete st' = staging_delete st.
Proof.
  induction l as [|rp l IH]; intros k st st' H.
  - injection H as <-. cbn. now rewrite app_nil_r.
  - cbn [length seq zip zip_with for_each] in H. unfold bind in H.
    destruct (Nat.eq_dec (count_char ":" rp) 1%nat) as [Hc|Hc].
    + destruct (stage3_pair_ok k rp st Hc) as (st1 & E1 & Hb & Hr & Hs).
      cbn [fst snd] in H. rewrite E1 in H.
      destruct (IH (S k) st1 st' H) as (Hall & Hb' & Hr' & Hs').
      split; [now constructor|]. rewrite Hb', Hb, Hr', Hr, Hs', Hs.
      cbn [length seq map]. now rewrite <- app_assoc.
    + destruct (unpack_fails k rp st Hc) as [E _].
      cbn [fst snd] in H. rewrite E in H. discriminate H.
Qed.

(** X13. When stage 3 returns, every read pair held exactly one colon,
    and the list of alignment files has gained, in order, one name per read
    pair, made of the output directory, the library name and the index of
    the pair; the read pairs and the staging-delete list are as before, so
    the per-pair alignment files are never staged for deletion. *)
Theorem stage3_collects_containers (st st' : state) :
  stage3 env cfg args st = (Ok tt, st') ->
  Forall (fun rp => count_char ":" rp = 1%nat) (read_pairs st) /\
  bwa_bam_outs st' =
    bwa_bam_outs st ++ map (bwa_bam args) (seq 0 (length (read_pairs st))) /\
  read_pairs st' = read_pairs st /\
  staging_delete st' = staging_delete st.
Proof.
  unfold stage3. rewrite (bind_ok (gets read_pairs) _ st st _ eq_refl).
  unfold enumerate. apply stage3_loop.
Qed.
End Colons.

(** ** Stage 2 *)

Section Align.
Import Pipeline Growth RunSpec.
Variables (env : environment) (cfg : config) (args : arguments).

Local Abbreviation sai := (fun read : string => read +:+ ".sai").

Lemma stage2_reads (dir : string) (reads : list string) :
  forall st, exists st',
    for_each reads (stage2_read env cfg dir) st = (Ok tt, st') /\
    staging_delete st' = staging_delete st ++ map sai reads /\
    read_pairs st' = read_pairs st /\
    bwa_bam_outs st' = bwa_bam_outs st /\
    qc_data st' = qc_data st.
Proof.
  induction reads as [|read reads IH]; intros st.
  - exists st. cbn. now rewrite app_nil_r.
  - cbn [for_each]. unfold bind at 1.
    unfold stage2_read at 1, run, emit, note, modify, bind. cbv beta iota.
    match goal with |- context [for_each reads _ ?s1] =>
      destruct (IH s1) as (st' & E & Hs & Hr & Hb & Hq)
    end.
    exists st'. rewrite E, Hs, Hr, Hb, Hq. cbn. now rewrite <- app_assoc.
Qed.

Lemma stage2_pairs (dir : string) (l : list (nat * string)) :
  forall st, exists st',
    for_each l (fun p => for_each (split ":" p.2) (stage2_read env cfg dir)) st
      = (Ok tt, st') /\
    staging_delete st' =
      staging_delete st ++ map sai (flat_map (fun p => split ":" p.2) l) /\
    read_pairs st' = read_pairs st /\
    bwa_bam_outs st' = bwa_bam_outs st /\
    qc_data st' = qc_data st.
Proof.
  induction l as [|p l IH]; intros st.
  - exists st. cbn. now rewrite app_nil_r.
  - cbn [for_each flat_map]. unfold bind at 1.
    destruct (stage2_reads dir (split ":" p.2) st) as (st1 & E1 & Hs1 & Hr1 & Hb1 & Hq1).
    rewrite E1. destruct (IH st1) as (st' & E & Hs & Hr & Hb & Hq).
    exists st'. rewrite E, Hs, Hr, Hb, Hq, Hs1, Hr1, Hb1, Hq1.
    now rewrite map_app, <- app_assoc.
Qed.

(** X11. Stage 2 never raises.  Unlike stages 1 and 3 it takes a read
    pair with any number of colons, and handles each colon-separated name
    on its own: the staging-delete list gains, in order, the name followed
    by [.sai] for every name of every read pair, and the read pairs, the
    list of alignment files and the quality report are left as they
    were. *)
Theorem stage2_stages_every_name (st : state) :
  exists st',
    stage2 env cfg args st = (Ok tt, st') /\
    staging_delete st' =
      staging_delete st ++ map sai (flat_map (split ":") (read_pairs st)) /\
    read_pairs st' = read_pairs st /\
    bwa_bam_outs st' = bwa_bam_outs st /\
    qc_data st' = qc_data st.
Proof.
  unfold stage2. cbv zeta.
  unfold bind at 1. unfold call at 1, emit, note, modify, bind. cbv beta iota.
  unfold gets at 1. cbv beta iota.
  match goal with |- context [for_each ?l _ ?s1] =>
    destruct (stage2_pairs (path_join (output_dir args) "fastqc") l s1)
      as (st' & E & Hs & Hr & Hb & Hq)
  end.
  exists st'. split; [exact E|]. rewrite Hs, Hr, Hb, Hq.
  repeat split. cbn -[path_join enumerate split].
  assert (H : forall (l : list string) k,
            flat_map (fun p : nat * string => split ":" p.2) (zip (seq k (length l)) l)
              = flat_map (split ":") l).
  { induction l as [|rp l IH]; intros k; [reflexivity|].
    cbn [length seq zip zip_with flat_map fst snd]. now rewrite IH. }
  unfold enumerate. now rewrite H.
Qed.
End Align.

(** ** The lists of the quality report *)

Section Keeps.
Import Pipeline Growth.
Context {X : Type} (proj : state -> X).

Lemma keeps_bind {A B} (m : M state A) (f : A -> M state B) :
  keeps proj m -> (forall a, keeps proj (f a)) -> keeps proj (bind m f).
Proof.
  intros Hm Hf st. unfold bind. specialize (Hm st).
  destruct (m st) as [[a|e] st1]; cbn in *; [|exact Hm].
  now rewrite (Hf a st1).
Qed.

Lemma keeps_for_each {A} (l : list A) (body : A -> M state unit) :
  (forall x, keeps proj (body x)) -> keeps proj (for_each l body).
Proof.
  intros H. induction l as [|x l IH]; [now intros st|].
  cbn. apply keeps_bind; [apply H | intros _; exact IH].
Qed.
End Keeps.

Section Report.
Import Pipeline Growth RunSpec.
Variables (env : environment) (cfg : config) (args : arguments).

Lemma keeps_on_disk {X A} (proj : state -> X) (m : M files A) :
  (forall f st, proj (set_world f st) = proj st) -> keeps proj (on_disk m).
Proof.
  intros H st. unfold on_disk. destruct (m (disk (world st))). apply H.
Qed.

Ltac kept_step :=
  first
    [ apply keeps_bind; [|intros ?]
    | apply keeps_for_each; intros ?
    | apply keeps_on_disk; intros ? ?; reflexivity
    | intros ?; reflexivity ].

Lemma stage1_keeps_alignments : keeps bwa_bam_outs (stage1 env cfg args).
Proof.
  unfold stage1. repeat kept_step. unfold stage1_pair.
  destruct (split ":" _) as [|r1 [|r2 [|]]]; repeat kept_step.
Qed.

Lemma stage1_keeps_mapped :
  keeps (fun st => num_reads_mapped (qc_data st)) (stage1 env cfg args).
Proof.
  unfold stage1. repeat kept_step. unfold stage1_pair.
  destruct (split ":" _) as [|r1 [|r2 [|]]]; repeat kept_step.
Qed.

Lemma stage3_keeps_report : keeps qc_data (stage3 env cfg args).
Proof.
  unfold stage3. repeat kept_step. unfold stage3_pair.
  destruct (split ":" _) as [|r1 [|r2 [|]]]; repeat kept_step.
Qed.

Lemma stage2_keeps_pairs : keeps read_pairs (stage2 env cfg args).
Proof. unfold stage2, stage2_read. cbv zeta. repeat kept_step. Qed.

Lemma stage2_keeps_alignments : keeps bwa_bam_outs (stage2 env cfg args).
Proof. unfold stage2, stage2_read. cbv zeta. repeat kept_step. Qed.

Lemma stage2_keeps_report : keeps qc_data (stage2 env cfg args).
Proof. unfold stage2, stage2_read. cbv zeta. repeat kept_step. Qed.

Lemma stage5_keeps_alignments : keeps bwa_bam_outs (stage5 env cfg args).
Proof. unfold stage5. cbv zeta. repeat kept_step. Qed.

Lemma stage6_keeps_alignments : keeps bwa_bam_outs (stage6 env cfg args).
Proof. unfold stage6. cbv zeta. repeat kept_step. Qed.

Lemma finish_keeps_alignments : keeps bwa_bam_outs (finish env args).
Proof. unfold finish. cbv zeta. repeat kept_step. Qed.

Lemma stage5_keeps_report : keeps qc_data (stage5 env cfg args).
Proof. unfold stage5. cbv zeta. repeat kept_step. Qed.

Lemma stage6_keeps_report : keeps qc_data (stage6 env cfg args).
Proof. unfold stage6. cbv zeta. repeat kept_step. Qed.

Lemma finish_keeps_report : keeps qc_data (finish env args).
Proof. unfold finish. cbv zeta. repeat kept_step. Qed.

Lemma flagstat_loop (l : list (nat * string)) :
  forall st, exists st',
    for_each l (fun p => stage4_flagstat env cfg p.2) st = (Ok tt, st') /\
    length (num_reads_mapped (qc_data st')) =
      (length (num_reads_mapped (qc_data st)) + length l)%nat /\
    total_raw_reads_counts (qc_data st') = total_raw_reads_counts (qc_data st) /\
    trimmed_reads_counts (qc_data st') = trimmed_reads_counts (qc_data st) /\
    bwa_bam_outs st' = bwa_bam_outs st.
Proof.
  induction l as [|p l IH]; intros st.
  - exists st. cbn. repeat split. lia.
  - cbn [for_each]. unfold bind at 1.
    unfold stage4_flagstat at 1, run, emit, note, modify, gets, bind. cbv beta iota.
    match goal with |- context [for_each l _ ?s1] =>
      destruct (IH s1) as (st' & E & Hn & Hr & Ht & Hb)
    end.
    exists st'. rewrite E, Hn, Hr, Ht, Hb. cbn. rewrite length_app. cbn.
    repeat split. lia.
Qed.

(** Stage 4 records one count for each alignment file, whether it returns
    or not, and leaves the other lists alone. *)
Lemma stage4_counts (st : state) :
  let st' := (stage4 env cfg args st).2 in
  length (num_reads_mapped (qc_data st')) =
    (length (num_reads_mapped (qc_data st)) + length (bwa_bam_outs st))%nat /\
  total_raw_reads_counts (qc_data st') = total_raw_reads_counts (qc_data st) /\
  trimmed_reads_counts (qc_data st') = trimmed_reads_counts (qc_data st) /\
  bwa_bam_outs st' = bwa_bam_outs st.
Proof.
  cbv zeta. unfold stage4. cbv zeta.
  rewrite (bind_ok (gets bwa_bam_outs) _ st st _ eq_refl).
  destruct (flagstat_loop (enumerate (bwa_bam_outs st)) st)
    as (st1 & E & Hn & Hr & Ht & Hb).
  rewrite (bind_ok _ _ _ _ _ E).
  unfold enumerate in Hn. rewrite length_zip, length_seq, Nat.min_id in Hn.
  rewrite <- Hn, <- Hr, <- Ht, <- Hb.
  match goal with |- context [(?m st1).2] => set (rest := m) end.
  assert (K : forall {X} (proj : state -> X),
            (forall f st, proj (set_world f st) = proj st) ->
            (forall f st, proj (set_trace f st) = proj st) ->
            (forall f st, proj (set_staging_delete f st) = proj st) ->
            (forall f st, proj (set_qc_data (set_percent_duplicate f) st) = proj st) ->
            keeps proj rest).
  { intros X proj H1 H2 H3 H4. unfold rest.
    unfold run, emit, note.
    apply keeps_bind; [intros ?; reflexivity | intros outs].
    apply keeps_bind; [apply keeps_bind; [intros s; apply H2 | intros ? s; apply H1] | intros _].
    apply keeps_bind; [apply keeps_bind; [intros s; apply H2 | intros ? s; apply H1] | intros _].
    apply keeps_bind; [intros s; apply H2 | intros _].
    apply keeps_bind; [intros ?; reflexivity | intros opened].
    destruct opened as [f|]; [|intros ?; reflexivity].
    apply keeps_bind; [intros s; apply H2 | intros _].
    apply keeps_bind; [intros s; apply H1 | intros _].
    apply keeps_bind; [apply keeps_bind; [intros s; apply H2 | intros ? s; apply H1] | intros _].
    apply keeps_bind; [intros s; apply H2 | intros _].
    apply keeps_bind; [intros ?; reflexivity | intros report].
    apply keeps_bind; [intros s; apply H4 | intros _].
    apply keeps_bind; [apply keeps_bind; [intros s; apply H2 | intros ? s; apply H1] | intros _].
    apply keeps_bind; [apply keeps_bind; [intros s; apply H2 | intros ? s; apply H1] | intros _].
    apply keeps_bind; [apply keeps_bind; [intros s; apply H2 | intros ? s; apply H1] | intros _].
    apply keeps_bind; [apply keeps_bind; [intros s; apply H2 | intros ? s; apply H1] | intros _].
    intros s; apply H3. }
  repeat split.
  - apply (f_equal (@length _)).
    apply (K _ (fun s => num_reads_mapped (qc_data s))); reflexivity.
  - apply (K _ (fun s => total_raw_reads_counts (qc_data s))); reflexivity.
  - apply (K _ (fun s => trimmed_reads_counts (qc_data s))); reflexivity.
  - apply (K _ bwa_bam_outs); reflexivity.
Qed.

Lemma when_true (b : bool) (m : M state unit) : b = true -> when b m = m.
Proof. now intros ->. Qed.

Lemma bind_returns {S A B} (m : M S A) (f : A -> M S B) (s s' : S) (b : B) :
  bind m f s = (Ok b, s') ->
  exists a s1, m s = (Ok a, s1) /\ f a s1 = (Ok b, s').
Proof.
  unfold bind. destruct (m s) as [[a|e] s1]; [|discriminate].
  intros H. now exists a, s1.
Qed.

(** X15. In a run started at step 1 or before that returns, every read
    pair given on the command line holds exactly one colon, and the three
    per-pair lists of the quality report (raw read counts, trimmed read
    counts, mapped read counts) have one entry for each read pair, as has
    the list of alignment files, whose names are made of the output
    directory, the library name and the index of the pair. *)
Theorem report_lists_agree (w : store) :
  step args <= 1 ->
  (run_pipeline env cfg args (initial args w)).1 = Ok tt ->
  let st := (run_pipeline env cfg args (initial args w)).2 in
  let n := length (reads_arg args) in
  length (total_raw_reads_counts (qc_data st)) = n /\
  length (trimmed_reads_counts (qc_data st)) = n /\
  length (num_reads_mapped (qc_data st)) = n /\
  bwa_bam_outs st = map (bwa_bam args) (seq 0 n) /\
  Forall (fun rp => Text.count_char ":" rp = 1%nat) (reads_arg args).
Proof.
  intros Hstep Hr.
  destruct (run_pipeline env cfg args (initial args w)) as [r st] eqn:H.
  cbn [fst snd] in *. subst r.
  cbv zeta. unfold run_pipeline in H. cbv zeta in H.
  rewrite !when_true in H by (apply Z.leb_le; lia).
  apply bind_returns in H as ([] & st0 & E0 & H).
  apply bind_returns in H as ([] & st1 & E1 & H).
  apply bind_returns in H as ([] & st2 & E2 & H).
  apply bind_returns in H as ([] & st3 & E3 & H).
  apply bind_returns in H as ([] & st4 & E4 & H).
  apply bind_returns in H as ([] & st5 & E5 & H).
  apply bind_returns in H as ([] & st6 & E6 & H).
  assert (H0 : read_pairs st0 = reads_arg args /\ bwa_bam_outs st0 = [] /\
               qc_data st0 = qc_init).
  { unfold setup, call, emit, note, modify, bind in E0. injection E0 as <-.
    now split. }
  destruct H0 as (Hrp0 & Hb0 & Hq0).
  pose proof (stage1_keeps_alignments st0) as Kb1.
  pose proof (stage1_keeps_mapped st0) as Km1. cbv beta in Km1.
  rewrite E1 in Kb1, Km1. cbn [snd] in Kb1, Km1.
  apply bind_returns in E1 as (rps1 & st0' & G1 & E1). injection G1 as <- <-.
  apply (stage1_loop env cfg args (read_pairs st0) 0 st0 st1 eq_refl)
    in E1 as (Hall1 & Hrp1 & _ & Hraw1 & Htr1).
  pose proof (stage2_keeps_pairs st1) as Kp2.
  pose proof (stage2_keeps_alignments st1) as Kb2.
  pose proof (stage2_keeps_report st1) as Kq2.
  rewrite E2 in Kp2, Kb2, Kq2. cbn [snd] in Kp2, Kb2, Kq2.
  pose proof (stage3_keeps_report st2) as Kq3.
  rewrite E3 in Kq3. cbn [snd] in Kq3.
  apply bind_returns in E3 as (rps3 & st2' & G3 & E3). injection G3 as <- <-.
  apply (stage3_loop env cfg args (read_pairs st2) 0 st2 st3) in E3 as (_ & Hb3 & _ & _).
  pose proof (stage4_counts st3) as K4. cbv zeta in K4. rewrite E4 in K4.
  cbn [snd] in K4. destruct K4 as (Hn4 & Hr4 & Ht4 & Hb4).
  pose proof (stage5_keeps_report st4) as Kq5.
  pose proof (stage5_keeps_alignments st4) as Kb5.
  rewrite E5 in Kq5, Kb5. cbn [snd] in Kq5, Kb5.
  pose proof (stage6_keeps_report st5) as Kq6.
  pose proof (stage6_keeps_alignments st5) as Kb6.
  rewrite E6 in Kq6, Kb6. cbn [snd] in Kq6, Kb6.
  pose proof (finish_keeps_report st6) as Kq7.
  pose proof (finish_keeps_alignments st6) as Kb7.
  rewrite H in Kq7, Kb7. cbn [snd] in Kq7, Kb7.
  rewrite Kq7, Kb7.
  rewrite Kq6, Kq5, Kb6, Kb5, Hn4, Hr4, Ht4, Hb4, Kq3, Hb3, Kq2, Kp2, Kb2.
  rewrite Hraw1, Htr1, Km1, Kb1, Hrp1, Hq0, Hb0, Hrp0.
  rewrite take_0. cbn [app].
  rewrite !length_map, !length_seq.
  cbn [qc_init total_raw_reads_counts trimmed_reads_counts num_reads_mapped
       length Nat.add].
  do 4 (split; [reflexivity|]).
  rewrite <- Hrp0. eapply List.Forall_impl; [|exact Hall1].
  intros rp Hs. cbv beta in Hs. rewrite length_split in Hs. lia.
Qed.
End Report.

(** ** The properties on the sample inputs *)

Lemma returned {S : Type} (p : result unit * S) : p.1 = Ok tt -> p = (Ok tt, p.2).
Proof. destruct p as [r s]. cbn. now intros ->. Qed.

Lemma shift_reads_account_witness :
  let '(os, err) :=
    Account.classify_all MINUS_STRAND_SHIFT PLUS_STRAND_SHIFT Sample.chr1_100
      (readlines (Sample.line_minus +:+ Sample.line_dot +:+ Sample.line_plus_edge)) in
  let r := Sample.shift_sample
             (Sample.disk_with
                (Sample.line_minus +:+ Sample.line_dot +:+ Sample.line_plus_edge)) in
  r.1 = match err with None => Ok tt | Some e => Raise e end /\
  r.2 !! "out.bed" = Some (Account.concat_text (map Account.output_text os)) /\
  Account.content r.2 "shift.log" =
    Account.content
      (Sample.disk_with
         (Sample.line_minus +:+ Sample.line_dot +:+ Sample.line_plus_edge))
      "shift.log" +:+ Account.concat_text (map Account.log_text os) /\
  map fst os =
    take (length os)
      (readlines (Sample.line_minus +:+ Sample.line_dot +:+ Sample.line_plus_edge)) /\
  (err = None ->
   length os =
     length (readlines (Sample.line_minus +:+ Sample.line_dot +:+ Sample.line_plus_edge))).
Proof.
  apply (shift_reads_account "in.bed" "out.bed" "genome.sizes" "shift.log"
           MINUS_STRAND_SHIFT PLUS_STRAND_SHIFT ltac:(discriminate)
           (Sample.disk_with
              (Sample.line_minus +:+ Sample.line_dot +:+ Sample.line_plus_edge))
           Sample.genome_chr1
           (Sample.line_minus +:+ Sample.line_dot +:+ Sample.line_plus_edge)
           Sample.chr1_100).
  - discriminate.
  - reflexivity.
  - vm_compute. reflexivity.
  - reflexivity.
Defined.

Lemma shift_reads_frame_witness :
  (Sample.shift_sample (Sample.disk_with Sample.line_minus)).2 !! "in.bed"
  = Sample.disk_with Sample.line_minus !! "in.bed".
Proof.
  apply (shift_reads_frame "in.bed" "out.bed" "genome.sizes" "shift.log"
           MINUS_STRAND_SHIFT PLUS_STRAND_SHIFT); discriminate.
Defined.

Lemma shift_reads_log_grows_witness :
  exists added,
    Account.content
      (Sample.shift_sample
         (<["shift.log" := "earlier" +:+ NL]> (Sample.disk_with Sample.line_dot))).2
      "shift.log"
    = Account.content
        (<["shift.log" := "earlier" +:+ NL]> (Sample.disk_with Sample.line_dot))
        "shift.log" +:+ added.
Proof.
  apply (shift_reads_log_grows "in.bed" "out.bed" "genome.sizes" "shift.log"
           MINUS_STRAND_SHIFT PLUS_STRAND_SHIFT).
  discriminate.
Defined.

Lemma shift_reads_bad_genome_witness :
  Sample.shift_sample (<["in.bed" := Sample.line_minus]> ∅)
  = (Raise (IOError "genome.sizes"), <["in.bed" := Sample.line_minus]> ∅).
Proof.
  apply (proj1 (shift_reads_bad_genome "in.bed" "out.bed" "genome.sizes" "shift.log"
                  MINUS_STRAND_SHIFT PLUS_STRAND_SHIFT
                  (<["in.bed" := Sample.line_minus]> ∅))).
  reflexivity.
Defined.

Lemma genome_table_last_wins_witness :
  exists before line after,
    [ "chr1" +:+ TAB +:+ "100" +:+ NL; "chr1" +:+ TAB +:+ "200" +:+ NL ]
      = before ++ line :: after /\
    GenomeSpec.entry line = Some ("chr1", 200) /\
    Forall (fun l => forall m, GenomeSpec.entry l <> Some ("chr1", m)) after.
Proof.
  apply (genome_table_last_wins
           [ "chr1" +:+ TAB +:+ "100" +:+ NL; "chr1" +:+ TAB +:+ "200" +:+ NL ]
           {[ "chr1" := 200 ]}).
  - vm_compute. reflexivity.
  - reflexivity.
Defined.

Lemma output_line_reparses_witness :
  Shift.parse_line (Shift.output_line SampleFields.fields_minus 5 15) =
    Ok {| Shift.record :=
            ["chr1"; str 5; str 15] ++ drop 3 (Shift.record SampleFields.fields_minus);
          Shift.chrom := "chr1";
          Shift.start := 5;
          Shift.end_ := 15;
          Shift.strand := "-" |}.
Proof.
  apply (output_line_reparses Sample.line_minus SampleFields.fields_minus 5 15).
  reflexivity.
Defined.

Lemma resume_at_4_merges_nothing_witness :
  Pipeline.num_reads_mapped (Pipeline.qc_data (SampleRun.sample_run 4).2) = [].
Proof.
  apply (proj2 (resume_at_4_merges_nothing SampleRun.sample_env SampleRun.sample_config
                  (SampleRun.sample_args 4) SampleRun.sample_store eq_refl)).
Defined.

Lemma stage1_rewrites_read_pairs_witness :
  let st := Pipeline.initial (SampleRun.sample_args 1) SampleRun.sample_store in
  Pipeline.read_pairs
    (Pipeline.stage1 SampleRun.sample_env SampleRun.sample_config
       (SampleRun.sample_args 1) st).2
  = map (fun i => join ":" [RunSpec.trimmed (SampleRun.sample_args 1) i "1";
                            RunSpec.trimmed (SampleRun.sample_args 1) i "2"])
      (seq 0 (length (Pipeline.read_pairs st))).
Proof.
  intros st.
  refine (proj1 (proj2
    (stage1_rewrites_read_pairs SampleRun.sample_env SampleRun.sample_config
       (SampleRun.sample_args 1) st _ _))).
  apply returned. vm_compute. reflexivity.
Defined.

Lemma read_pair_needs_one_colon_witness :
  let st := Pipeline.initial (SampleRun.sample_args 3) SampleRun.sample_store in
  Pipeline.stage3_pair SampleRun.sample_env SampleRun.sample_config
    (SampleRun.sample_args 3) 0 "/data/a.fastq.gz" st = (Raise ValueError, st).
Proof.
  intros st.
  refine (proj1 (proj1 (proj2
    (read_pair_needs_one_colon SampleRun.sample_env SampleRun.sample_config
       (SampleRun.sample_args 3) 0 "/data/a.fastq.gz" st)) _)).
  vm_compute. discriminate.
Defined.

Lemma stage3_collects_containers_witness :
  let st := Pipeline.initial (SampleRun.sample_args 3) SampleRun.sample_store in
  Pipeline.bwa_bam_outs
    (Pipeline.stage3 SampleRun.sample_env SampleRun.sample_config
       (SampleRun.sample_args 3) st).2
  = Pipeline.bwa_bam_outs st ++
    map (RunSpec.bwa_bam (SampleRun.sample_args 3))
      (seq 0 (length (Pipeline.read_pairs st))).
Proof.
  intros st.
  refine (proj1 (proj2
    (stage3_collects_containers SampleRun.sample_env SampleRun.sample_config
       (SampleRun.sample_args 3) st _ _))).
  apply returned. vm_compute. reflexivity.
Defined.

Lemma report_lists_agree_witness :
  let st :=
    (Pipeline.run_pipeline SampleRun.sample_env SampleRun.sample_config
       (SampleRun.sample_args 1)
       (Pipeline.initial (SampleRun.sample_args 1) SampleRun.sample_store)).2 in
  let n := length (Pipeline.reads_arg (SampleRun.sample_args 1)) in
  length (Pipeline.total_raw_reads_counts (Pipeline.qc_data st)) = n /\
  length (Pipeline.trimmed_reads_counts (Pipeline.qc_data st)) = n /\
  length (Pipeline.num_reads_mapped (Pipeline.qc_data st)) = n /\
  Pipeline.bwa_bam_outs st = map (RunSpec.bwa_bam (SampleRun.sample_args 1)) (seq 0 n) /\
  Forall (fun rp => Text.count_char ":" rp = 1%nat)
    (Pipeline.reads_arg (SampleRun.sample_args 1)).
Proof.
  apply (report_lists_agree SampleRun.sample_env SampleRun.sample_config
           (SampleRun.sample_args 1) SampleRun.sample_store).
  - vm_compute. discriminate.
  - vm_compute. reflexivity.
Defined.

Lemma flagstat_mapped_opened_witness :
  exists n,
    int_literal "10" = Some n /\ 0 <= n /\
    Pipeline.flagstat_mapped
      (Some ("10 + 0 mapped (100.00% : N/A)" +:+ NL)) "/out/lib.0.bam.flagstat"
    = str (n / 2).
Proof.
  apply (proj1 (proj2 (flagstat_mapped_opened
           ("10 + 0 mapped (100.00% : N/A)" +:+ NL) "/out/lib.0.bam.flagstat"))
           EmptyString "10" "0" (" (100.00% : N/A)" +:+ NL)).
  - repeat split; discriminate.
  - intros. apply Nat.le_0_l.
Defined.

(** ** What a run from step 5 leaves on disk *)

Section Produced.
Import Shift ShiftSpec Account.

Lemma shift_reads_output input out genome log minus plus (fs : files)
    (genome_text input_text : string) (gs : gmap string Z) :
  out <> log ->
  fs !! genome = Some genome_text ->
  load_genome_sizes (readlines genome_text) ∅ = Ok gs ->
  <[out := EmptyString]> fs !! input = Some input_text ->
  (shift_reads input out genome log minus plus fs).2 !! out =
    Some (concat_text
            (map output_text (classify_all minus plus gs (readlines input_text)).1)).
Proof.
  intros Hol Hg Hl Hi. rewrite shift_reads_unfold, Hg, Hl, Hi.
  pose proof (shift_loop_account out log minus plus gs Hol (readlines input_text)
                (<[out := EmptyString]> fs)) as H.
  destruct (classify_all minus plus gs (readlines input_text)) as [os err].
  destruct (for_each _ _ _) as [res fs'] eqn:E.
  destruct H as (_ & Ho & _). cbn.
  unfold content in Ho. rewrite lookup_insert_eq in Ho. cbn in Ho.
  destruct (fs' !! out) as [c|] eqn:Ec; cbn in Ho; [now rewrite Ho|].
  exfalso.
  assert (Hs : is_Some (fs' !! out)); [|rewrite Ec in Hs; now destruct Hs].
  change fs' with (res, fs').2. rewrite <- E.
  apply shift_loop_keeps.
  rewrite lookup_insert_eq. eauto.
Qed.
End Produced.

Section Differ.
Import Pipeline RunSpec.

Lemma ends_differ (a b x y : string) :
  ends a x -> ends b y -> suffixb a b = false -> suffixb b a = false -> x <> y.
Proof.
  intros Hx Hy Hab Hba <-.
  destruct (ends_weak_total a b x Hx Hy) as [H|H];
    apply suffixb_complete in H; congruence.
Qed.
End Differ.

Section FromStepFive.
Import Pipeline RunSpec Account.
Variables (env : environment) (cfg : config) (args : arguments).

Local Abbreviation unshifted_bed := (in_out args ".unshifted.bed").
Local Abbreviation processed_bed := (in_out args ".processed.bed").
Local Abbreviation shift_log := (path_join (logs_dir args) "shift_reads.logs").

Lemma processed_not_log : processed_bed <> shift_log.
Proof.
  apply (ends_differ ".processed.bed" "shift_reads.logs");
    [unfold in_out; solve_ends | solve_ends | reflexivity | reflexivity].
Qed.

Lemma processed_not_unshifted : processed_bed <> unshifted_bed.
Proof.
  apply (ends_differ ".processed.bed" ".unshifted.bed");
    [unfold in_out; solve_ends | unfold in_out; solve_ends | reflexivity | reflexivity].
Qed.

Lemma processed_not_report :
  path_join (logs_dir args) "qc_metrics.txt" <> processed_bed.
Proof.
  apply (ends_differ "qc_metrics.txt" ".processed.bed");
    [solve_ends | unfold in_out; solve_ends | reflexivity | reflexivity].
Qed.

Lemma run5_disk (w : store) :
  step args = 5 ->
  let r := run_pipeline env cfg args (initial args w) in
  let d := disk (replay env (take 5 (trace r.2)) w) in
  let sh := Shift.shift_reads unshifted_bed processed_bed (genome_sizes cfg) shift_log
              MINUS_STRAND_SHIFT PLUS_STRAND_SHIFT d in
  r.1 = sh.1 /\
  (sh.1 <> Ok tt -> disk (world r.2) = sh.2) /\
  (Forall (fun e => leaves env processed_bed e.2) (drop 6 (trace r.2)) ->
   disk (world r.2) !! processed_bed = sh.2 !! processed_bed).
Proof.
  intros H5. cbv zeta.
  unfold run_pipeline; cbv zeta; rewrite H5.
  change (5 <=? 1) with false; change (5 <=? 2) with false;
  change (5 <=? 3) with false; change (5 <=? 4) with false;
  change (5 <=? 5) with true; change (5 <=? 6) with true.
  cbn [when].
  unfold setup, stage5, stage6, finish, call, run, emit, note, modify,
    gets, on_disk, bind, ret, initial.
  cbn -[path_join Shift.shift_reads replay take drop leaves].
  match goal with
  | |- context [Shift.shift_reads ?a ?b ?c ?l ?m ?n (disk (exec env ?x ?y))] =>
      destruct (Shift.shift_reads a b c l m n (disk (exec env x y)))
        as [[[]|e] fs] eqn:E
  end.
  - cbn -[path_join Shift.shift_reads leaves]. unfold replay. cbn -[path_join Shift.shift_reads leaves].
    unfold tmp_dir, logs_dir, in_out in *. rewrite E. cbn [fst snd].
    split; [reflexivity|]. split; [congruence|].
    intros HF.
    repeat match type of HF with
    | Forall _ (_ :: _) => apply Forall_cons in HF as [? HF]
    end.
    cbn [leaves snd] in *.
    repeat match goal with
    | H : forall w', disk (exec env ?a w') !! _ = _ |- context [exec env ?a ?w0] =>
        rewrite (H w0); clear H
    end.
    cbn -[path_join]. rewrite lookup_insert_ne by apply processed_not_report.
    repeat match goal with
    | H : forall w', disk (exec env ?a w') !! _ = _ |- context [exec env ?a ?w0] =>
        rewrite (H w0); clear H
    end.
    reflexivity.
  - cbn -[path_join Shift.shift_reads leaves]. unfold replay. cbn -[path_join Shift.shift_reads leaves].
    unfold tmp_dir, logs_dir, in_out in *. rewrite E. cbn [fst snd].
    split; [reflexivity|]. split; [reflexivity|]. reflexivity.
Qed.
(** C5. A run is the setup, then the bodies of exactly the stages 1 to 6
    that the starting step does not exceed, in ascending order, then the
    final write and cleanup.  In the trace of a run the tags ascend, and
    every tag is 0 (setup), 7 (the end) or a stage that the step does not
    exceed: a stage below the step performs no action.  A run from step 5
    enters stages 5 and 6 only; its stage 5 takes '<lib>.chrmrm.bam' through
    bedtools intersect, bamtobed and [shift_reads] to '<lib>.processed.bed';
    and among all the strings its commands are given, an output path of
    stages 1 to 4 can only be '<lib>.chrmrm.bam' (read by stage 5) or a name
    the user supplied (the blacklist, the genome size file, the output
    directory).  The run ends as the call of [shift_reads] on the files
    that the first five commands left ends; when that call raises, the
    files at the end of the run are the files it left; when none of the
    commands after it touches '<lib>.processed.bed', the file at the end of
    the run is the one the call wrote; and when the genome size file loads
    and '<lib>.unshifted.bed' opens, what the call writes there is exactly
    the shifted records of the lines it emits, in order. *)
Theorem run_from_step (w : store) :
  (forall st,
     run_pipeline env cfg args st =
       (setup env args ;;;
        for_each (selected (step args)) (stage env cfg args) ;;;
        finish env args) st) /\
  (forall n, In n (selected (step args)) <->
             (1 <= n <= 6)%nat /\ step args <= Z.of_nat n) /\
  StronglySorted le (selected (step args)) /\
  StronglySorted le (tags (trace (run_pipeline env cfg args (initial args w)).2)) /\
  Forall (allowed (step args))
    (tags (trace (run_pipeline env cfg args (initial args w)).2)) /\
  (step args = 5 ->
     selected (step args) = [5; 6]%nat /\
     (exists rest,
        trace (run_pipeline env cfg args (initial args w)).2 =
          [ (0%nat, Call ["mkdir"; "-p"; output_dir args; tmp_dir args; logs_dir args]);
            (5%nat, Run (bedtools_intersect cfg)
                      [ Param ["-v"];
                        Param ["-abam"; chrmrm_bam args];
                        Param ["-b"; blacklist_bed cfg];
                        Param ["-f"; "0.5"];
                        Redir STDOUT (in_out args ".processed.bam") ]);
            (5%nat, Run (picard_insert_metrics cfg)
                      [ Param ["INPUT=" +:+ in_out args ".processed.bam"];
                        Param ["OUTPUT=" +:+
                               path_join (logs_dir args)
                                 (lib_prefix args +:+ ".insertsize.metrics")];
                        Param ["HISTOGRAM_FILE=" +:+
                               path_join (logs_dir args)
                                 (lib_prefix args +:+ ".insertsize.pdf")] ]);
            (5%nat, Run (samtools_index cfg) [ Param [in_out args ".processed.bam"] ]);
            (5%nat, Run (bedtools_bamtobed cfg)
                      [ Param ["-i"; in_out args ".processed.bam"];
                        Redir STDOUT (in_out args ".unshifted.bed") ]);
            (5%nat, ShiftReads (in_out args ".unshifted.bed")
                      (in_out args ".processed.bed")
                      (genome_sizes cfg)
                      (path_join (logs_dir args) "shift_reads.logs")) ] ++ rest) /\
     (forall n,
        Forall (fun e => forall x, In x (words e.2) ->
                  In x (stage14_outputs args n) ->
                  x = chrmrm_bam args \/ x = blacklist_bed cfg \/
                  x = genome_sizes cfg \/ x = output_dir args)
          (trace (run_pipeline env cfg args (initial args w)).2)) /\
     let r := run_pipeline env cfg args (initial args w) in
     let d := disk (replay env (take 5 (trace r.2)) w) in
     let sh := Shift.shift_reads unshifted_bed processed_bed (genome_sizes cfg)
                 shift_log MINUS_STRAND_SHIFT PLUS_STRAND_SHIFT d in
     r.1 = sh.1 /\
     (sh.1 <> Ok tt -> disk (world r.2) = sh.2) /\
     (Forall (fun e => leaves env processed_bed e.2) (drop 6 (trace r.2)) ->
      disk (world r.2) !! processed_bed = sh.2 !! processed_bed) /\
     (forall genome_text input_text gs,
        d !! genome_sizes cfg = Some genome_text ->
        Shift.load_genome_sizes (readlines genome_text) ∅ = Ok gs ->
        d !! unshifted_bed = Some input_text ->
        sh.2 !! processed_bed =
          Some (concat_text
                  (map output_text
                     (classify_all MINUS_STRAND_SHIFT PLUS_STRAND_SHIFT gs
                        (readlines input_text)).1)))).
Proof.
  split; [exact (run_pipeline_selected env cfg args)|].
  split; [intros n; apply selected_spec|].
  split; [apply selected_sorted|].
  destruct (run_pipeline_ascends env cfg args (initial args w)) as (l & E & F & S).
  change (trace (initial args w)) with (@nil (nat * action)) in E.
  rewrite app_nil_l in E. rewrite E.
  split; [exact S|]. split.
  - eapply Forall_impl; [exact F|]. intros n [_ H]. exact H.
  - intros H5. split; [rewrite H5; reflexivity|].
    rewrite <- E. split; [now apply run5_prefix|].
    split; [intros n; now apply run5_words|].
    pose proof (run5_disk w H5) as Hd. cbv zeta in Hd |- *.
    destruct Hd as (H1 & H2 & H3).
    split; [exact H1|]. split; [exact H2|]. split; [exact H3|].
    intros genome_text input_text gs Hg Hl Hi.
    apply (shift_reads_output _ _ _ _ _ _ _ genome_text input_text gs);
      [apply processed_not_log | exact Hg | exact Hl|].
    rewrite lookup_insert_ne by apply processed_not_unshifted. exact Hi.
Qed.
End FromStepFive.

Lemma run_from_step_witness :
  let r := Pipeline.run_pipeline SampleRun.sample_env SampleRun.sample_config
             (SampleRun.sample_args 5)
             (Pipeline.initial (SampleRun.sample_args 5) SampleRun.sample_store) in
  let d := Pipeline.disk
             (RunSpec.replay SampleRun.sample_env (take 5 (Pipeline.trace r.2))
                SampleRun.sample_store) in
  let sh := Shift.shift_reads (RunSpec.in_out (SampleRun.sample_args 5) ".unshifted.bed")
              (RunSpec.in_out (SampleRun.sample_args 5) ".processed.bed")
              (Pipeline.genome_sizes SampleRun.sample_config)
              (path_join (Pipeline.logs_dir (SampleRun.sample_args 5)) "shift_reads.logs")
              MINUS_STRAND_SHIFT PLUS_STRAND_SHIFT d in
  Pipeline.disk (Pipeline.world r.2)
    !! RunSpec.in_out (SampleRun.sample_args 5) ".processed.bed"
  = sh.2 !! RunSpec.in_out (SampleRun.sample_args 5) ".processed.bed".
Proof.
  refine (proj1 (proj2 (proj2 (proj2 (proj2 (proj2
    (proj2 (proj2 (proj2 (proj2 (proj2
      (run_from_step SampleRun.sample_env SampleRun.sample_config
         (SampleRun.sample_args 5) SampleRun.sample_store))))) eq_refl)))))) _).
  vm_compute.
  repeat (apply List.Forall_cons; [exact I || (intros ?; reflexivity)|]).
  apply List.Forall_nil.
Defined.
